(** * mkdocs-macros-plugin: a shallow embedding of [mkdocs_macros/plugin.py]

    The plugin is a Python class, [MacrosPlugin], whose methods mutate the
    instance and the dictionaries it holds.  The embedding keeps that shape:
    - Python objects that are shared and mutated (dictionaries, the page
      object) live on a heap and are named by their location, so that two
      references to one object are visibly the same object;
    - a method is a computation in a monad [M] that threads the plugin
      instance, can raise a Python exception, and records the calls it
      makes to code it does not own (extension functions, the template
      engine);
    - what the plugin only consumes (file system, importer, template
      engine, extension code) is gathered in the record [Host]. *)

From stdpp Require Import gmap strings list fin_maps.
From Stdlib Require Import ZArith.

Set Warnings "-register-all".
Open Scope string_scope.

(** ** Python values and objects *)

Definition loc := nat.

(** A function object: its identity and its [__name__] (absent for
    callables such as [functools.partial] objects). *)
Record callable := Callable { fn_id : nat; fn_name : option string }.

Inductive pyval :=
| PNone
| PBool (b : bool)
| PInt (n : Z)
| PStr (s : string)
| PFunc (f : callable)
| PRef (l : loc).

(** [mkdocs.structure.pages.Page], reduced to what the plugin reads. *)
Record Page := { title : string; meta : pyval; src_path : string }.

Inductive pyobj :=
| ODict (items : gmap string pyval)
| OList (elems : list pyval)
| OPage (p : Page).

#[global] Instance callable_eq_dec : EqDecision callable.
Proof. solve_decision. Defined.
#[global] Instance pyval_eq_dec : EqDecision pyval.
Proof. solve_decision. Defined.

(** [x == True] and [x == False]: Python compares a bool with an int by
    value, so [1 == True] and [0 == False] hold; [None] equals neither.
    (So does it compare a float: the embedding has no float.) *)
Definition py_eq_bool (x : pyval) (b : bool) : bool :=
  match x with
  | PBool b' => Bool.eqb b' b
  | PInt n => Z.eqb n (if b then 1 else 0)%Z
  | _ => false
  end.

(** ** Exceptions *)

Inductive exn_class :=
| BaseException | Exception
| AttributeError | KeyError | NameError | ValueError | TypeError
| ImportError | ModuleNotFoundError | FileNotFoundError
| AssertionError | TemplateError | SystemExit | KeyboardInterrupt.

#[global] Instance exn_class_eq_dec : EqDecision exn_class.
Proof. solve_decision. Defined.

Record exn := Exn { exn_type : exn_class; exn_arg : pyval }.

(** The part of Python's exception hierarchy the plugin relies on. *)
Definition issubclass (c base : exn_class) : bool :=
  if decide (c = base) then true else
  match base, c with
  | BaseException, _ => true
  | Exception, (SystemExit | KeyboardInterrupt | BaseException) => false
  | Exception, _ => true
  | ImportError, ModuleNotFoundError => true
  | _, _ => false
  end.

(** ** Data loaded from a YAML file *)

Inductive yaml :=
| YNull
| YBool (b : bool)
| YInt (n : Z)
| YStr (s : string)
| YSeq (l : list yaml)
| YMap (m : list (string * yaml)).

(** ** Module-level constants of plugin.py *)

Definition YAML_VARIABLES : string := "extra".
Definition DEFAULT_MODULE_NAME : string := "main".

Inductive Undefined_class :=
| DebugUndefined | Undefined | StrictUndefined | LaxUndefined.

Definition UNDEFINED_BEHAVIOR : gmap string Undefined_class :=
  <["keep" := DebugUndefined]>
  (<["silent" := Undefined]>
  (<["strict" := StrictUndefined]>
  (<["lax" := LaxUndefined]> ∅))).

Definition DEFAULT_UNDEFINED_BEHAVIOR : string := "keep".
Definition ERROR_MACRO : Z := 100%Z.

(** ** The plugin instance *)

(** An entry of [include_yaml]: a file name, or a dictionary that is meant
    to hold the single pair [key: filename]. *)
Inductive yaml_include :=
| IncFile (filename : string)
| IncDict (entries : list (string * string)).

(** [self.config], typed by [config_scheme]. *)
Record PluginConfig := {
  module_name : string;
  modules : list string;
  render_by_default : bool;
  include_dir : string;
  include_yaml : list yaml_include;
  j2_block_start_string : string;
  j2_block_end_string : string;
  j2_variable_start_string : string;
  j2_variable_end_string : string;
  on_undefined : string;
  on_error_fail : bool;
  verbose : bool;
  (** the keys of the configuration file that [config_scheme] does not
      know: MkDocs reports them and keeps them in [self.config] *)
  other_options : list (string * yaml)
}.

Definition default_config : PluginConfig :=
  {| module_name := DEFAULT_MODULE_NAME; modules := [];
     render_by_default := true; include_dir := ""; include_yaml := [];
     j2_block_start_string := ""; j2_block_end_string := "";
     j2_variable_start_string := ""; j2_variable_end_string := "";
     on_undefined := DEFAULT_UNDEFINED_BEHAVIOR; on_error_fail := false;
     verbose := false; other_options := [] |}.

(** An entry of [include_yaml], as the data it is in the configuration
    file. *)
Definition include_item (el : yaml_include) : yaml :=
  match el with
  | IncFile filename => YStr filename
  | IncDict entries => YMap (map (fun kf => (kf.1, YStr kf.2)) entries)
  end.

(** [self.config.items()]: the options of [config_scheme], then the keys
    that the scheme does not know.  (A dictionary holds a key once, so
    that the keys of [other_options] are not those of the scheme.) *)
Definition config_items (c : PluginConfig) : list (string * yaml) :=
  ([ ("module_name", YStr (module_name c));
     ("modules", YSeq (map YStr (modules c)));
     ("render_by_default", YBool (render_by_default c));
     ("include_dir", YStr (include_dir c));
     ("include_yaml", YSeq (map include_item (include_yaml c)));
     ("j2_block_start_string", YStr (j2_block_start_string c));
     ("j2_block_end_string", YStr (j2_block_end_string c));
     ("j2_variable_start_string", YStr (j2_variable_start_string c));
     ("j2_variable_end_string", YStr (j2_variable_end_string c));
     ("on_undefined", YStr (on_undefined c));
     ("on_error_fail", YBool (on_error_fail c));
     ("verbose", YBool (verbose c)) ] ++ other_options c)%list.

(** [if value:], for the data of a configuration file. *)
Definition yaml_truthy (value : yaml) : bool :=
  match value with
  | YNull => false
  | YBool b => b
  | YInt n => negb (Z.eqb n 0%Z)
  | YStr x => negb (String.eqb x "")
  | YSeq [] => false
  | YSeq _ => true
  | YMap [] => false
  | YMap _ => true
  end.

(** A keyword argument of [Environment]: the loader that [on_config]
    makes for the directory of the included files, a class of
    [UNDEFINED_BEHAVIOR], or a value of the configuration. *)
Inductive env_option :=
| FileSystemLoader (searchpath : string)
| UndefinedClass (u : Undefined_class)
| ConfigValue (value : yaml).

(** A jinja2 [Environment], as the plugin builds it: the keyword arguments
    it was made with, and its dictionaries of globals and of filters. *)
Record Environment := {
  env_options : gmap string env_option;
  env_globals : loc;
  env_filters : loc
}.

(** An imported extension module: the attributes [_load_module] probes. *)
Record PyModule := {
  define_env : option callable;
  declare_variables : option callable;
  on_pre_page_macros : option callable;
  on_post_page_macros : option callable;
  on_post_build : option callable
}.

(** The instance attributes ([None] when the attribute does not exist
    yet), together with the heap the objects they name live on and the
    modules the interpreter can currently import. *)
Record MacrosPlugin := {
  config : PluginConfig;
  heap : list pyobj;
  importable : gmap string PyModule;
  _conf : option loc;
  _variables : option loc;
  _macros : option loc;
  _filters : option loc;
  _page : option loc;
  _markdown : option string;
  _pre_macro_functions : option (list callable);
  _post_macro_functions : option (list callable);
  _post_build_functions : option (list callable);
  env : option Environment
}.

Definition new_plugin (c : PluginConfig) (h : list pyobj)
    (mods : gmap string PyModule) : MacrosPlugin :=
  {| config := c; heap := h; importable := mods;
     _conf := None; _variables := None; _macros := None; _filters := None;
     _page := None; _markdown := None;
     _pre_macro_functions := None; _post_macro_functions := None;
     _post_build_functions := None; env := None |}.

Definition set_heap (h : list pyobj) (s : MacrosPlugin) : MacrosPlugin :=
  {| config := config s; heap := h; importable := importable s;
     _conf := _conf s; _variables := _variables s; _macros := _macros s;
     _filters := _filters s; _page := _page s; _markdown := _markdown s;
     _pre_macro_functions := _pre_macro_functions s;
     _post_macro_functions := _post_macro_functions s;
     _post_build_functions := _post_build_functions s; env := env s |}.

Definition set_conf (v : option loc) (s : MacrosPlugin) : MacrosPlugin :=
  {| config := config s; heap := heap s; importable := importable s;
     _conf := v; _variables := _variables s; _macros := _macros s;
     _filters := _filters s; _page := _page s; _markdown := _markdown s;
     _pre_macro_functions := _pre_macro_functions s;
     _post_macro_functions := _post_macro_functions s;
     _post_build_functions := _post_build_functions s; env := env s |}.

Definition set_variables (v : option loc) (s : MacrosPlugin) : MacrosPlugin :=
  {| config := config s; heap := heap s; importable := importable s;
     _conf := _conf s; _variables := v; _macros := _macros s;
     _filters := _filters s; _page := _page s; _markdown := _markdown s;
     _pre_macro_functions := _pre_macro_functions s;
     _post_macro_functions := _post_macro_functions s;
     _post_build_functions := _post_build_functions s; env := env s |}.

Definition set_macros (v : option loc) (s : MacrosPlugin) : MacrosPlugin :=
  {| config := config s; heap := heap s; importable := importable s;
     _conf := _conf s; _variables := _variables s; _macros := v;
     _filters := _filters s; _page := _page s; _markdown := _markdown s;
     _pre_macro_functions := _pre_macro_functions s;
     _post_macro_functions := _post_macro_functions s;
     _post_build_functions := _post_build_functions s; env := env s |}.

Definition set_filters (v : option loc) (s : MacrosPlugin) : MacrosPlugin :=
  {| config := config s; heap := heap s; importable := importable s;
     _conf := _conf s; _variables := _variables s; _macros := _macros s;
     _filters := v; _page := _page s; _markdown := _markdown s;
     _pre_macro_functions := _pre_macro_functions s;
     _post_macro_functions := _post_macro_functions s;
     _post_build_functions := _post_build_functions s; env := env s |}.

Definition set_page (v : option loc) (s : MacrosPlugin) : MacrosPlugin :=
  {| config := config s; heap := heap s; importable := importable s;
     _conf := _conf s; _variables := _variables s; _macros := _macros s;
     _filters := _filters s; _page := v; _markdown := _markdown s;
     _pre_macro_functions := _pre_macro_functions s;
     _post_macro_functions := _post_macro_functions s;
     _post_build_functions := _post_build_functions s; env := env s |}.

Definition set_markdown (v : option string) (s : MacrosPlugin) : MacrosPlugin :=
  {| config := config s; heap := heap s; importable := importable s;
     _conf := _conf s; _variables := _variables s; _macros := _macros s;
     _filters := _filters s; _page := _page s; _markdown := v;
     _pre_macro_functions := _pre_macro_functions s;
     _post_macro_functions := _post_macro_functions s;
     _post_build_functions := _post_build_functions s; env := env s |}.

Definition set_pre_macro_functions (v : option (list callable))
    (s : MacrosPlugin) : MacrosPlugin :=
  {| config := config s; heap := heap s; importable := importable s;
     _conf := _conf s; _variables := _variables s; _macros := _macros s;
     _filters := _filters s; _page := _page s; _markdown := _markdown s;
     _pre_macro_functions := v;
     _post_macro_functions := _post_macro_functions s;
     _post_build_functions := _post_build_functions s; env := env s |}.

Definition set_post_macro_functions (v : option (list callable))
    (s : MacrosPlugin) : MacrosPlugin :=
  {| config := config s; heap := heap s; importable := importable s;
     _conf := _conf s; _variables := _variables s; _macros := _macros s;
     _filters := _filters s; _page := _page s; _markdown := _markdown s;
     _pre_macro_functions := _pre_macro_functions s;
     _post_macro_functions := v;
     _post_build_functions := _post_build_functions s; env := env s |}.

Definition set_post_build_functions (v : option (list callable))
    (s : MacrosPlugin) : MacrosPlugin :=
  {| config := config s; heap := heap s; importable := importable s;
     _conf := _conf s; _variables := _variables s; _macros := _macros s;
     _filters := _filters s; _page := _page s; _markdown := _markdown s;
     _pre_macro_functions := _pre_macro_functions s;
     _post_macro_functions := _post_macro_functions s;
     _post_build_functions := v; env := env s |}.

Definition set_env (v : option Environment) (s : MacrosPlugin) : MacrosPlugin :=
  {| config := config s; heap := heap s; importable := importable s;
     _conf := _conf s; _variables := _variables s; _macros := _macros s;
     _filters := _filters s; _page := _page s; _markdown := _markdown s;
     _pre_macro_functions := _pre_macro_functions s;
     _post_macro_functions := _post_macro_functions s;
     _post_build_functions := _post_build_functions s; env := v |}.

(** ** The monad of plugin methods *)

(** What a method does to code it does not own: it calls an extension
    function, or hands a text to the template engine. *)
Inductive event :=
| Called (f : callable)
| Evaluated (text : string).

(** A run ends with a value or a raised exception; in both cases the
    mutations made so far stay, as they do in Python. *)
Record outcome (A : Type) := Outcome {
  res : exn + A;
  st : MacrosPlugin;
  log : list event
}.
Arguments Outcome {A} _ _ _.
Arguments res {A} _.
Arguments st {A} _.
Arguments log {A} _.

Definition M (A : Type) : Type := MacrosPlugin -> outcome A.

Definition ret {A} (a : A) : M A := fun s => Outcome (inr a) s [].

Definition bind {A B} (m : M A) (k : A -> M B) : M B := fun s =>
  let o := m s in
  match res o with
  | inl e => Outcome (inl e) (st o) (log o)
  | inr a => let o' := k a (st o) in
             Outcome (res o') (st o') (log o ++ log o')
  end.

Definition raise {A} (c : exn_class) (arg : pyval) : M A :=
  fun s => Outcome (inl (Exn c arg)) s [].

Definition get : M MacrosPlugin := fun s => Outcome (inr s) s [].
Definition modify (f : MacrosPlugin -> MacrosPlugin) : M unit :=
  fun s => Outcome (inr tt) (f s) [].
Definition tell (ev : event) : M unit := fun s => Outcome (inr tt) s [ev].

Declare Scope py_scope.
Delimit Scope py_scope with py.
Notation "x <- m ;; k" := (bind m (fun x => k))
  (at level 100, m at next level, right associativity) : py_scope.
Notation "m ;;; k" := (bind m (fun _ => k))
  (at level 100, right associativity) : py_scope.
Open Scope py_scope.

(** [try: body except (classes) as e: handler e] *)
Definition try_except {A} (body : M A) (classes : list exn_class)
    (handler : exn -> M A) : M A := fun s =>
  let o := body s in
  match res o with
  | inl e =>
      if existsb (issubclass (exn_type e)) classes
      then let o' := handler e (st o) in
           Outcome (res o') (st o') (log o ++ log o')
      else o
  | inr _ => o
  end.

(** [for x in l: body x] *)
Fixpoint for_each {A} (l : list A) (body : A -> M unit) : M unit :=
  match l with
  | [] => ret tt
  | x :: l' => body x ;;; for_each l' body
  end.

(** Code the plugin does not own runs on the same instance and may raise,
    but records nothing in the log by itself. *)
Definition Ext (A : Type) : Type := MacrosPlugin -> (exn + A) * MacrosPlugin.

Definition lift {A} (f : Ext A) : M A := fun s =>
  Outcome (fst (f s)) (snd (f s)) [].

(** ** Heap operations *)

(** A new object gets the next free location. *)
Definition alloc (o : pyobj) : M loc := fun s =>
  Outcome (inr (length (heap s))) (set_heap (heap s ++ [o]) s) [].

(** Every reference a Python program holds names a live object; the
    [None] case is there for totality only. *)
Definition deref (l : loc) : M pyobj :=
  s <- get ;;
  match heap s !! l with
  | Some o => ret o
  | None => raise TypeError (PStr "dangling reference")
  end.

Definition store (l : loc) (o : pyobj) : M unit :=
  modify (fun s => set_heap (<[l := o]> (heap s)) s).

(** The dictionary behind a value, where there is one. *)
Definition as_dict (v : pyval) : M (loc * gmap string pyval) :=
  match v with
  | PRef l =>
      o <- deref l ;;
      match o with
      | ODict d => ret (l, d)
      | _ => raise TypeError (PStr "not a mapping")
      end
  | _ => raise TypeError (PStr "not a mapping")
  end.

(** [d[key]] *)
Definition getitem (d : pyval) (key : string) : M pyval :=
  ld <- as_dict d ;;
  match ld.2 !! key with
  | Some v => ret v
  | None => raise KeyError (PStr key)
  end.

(** [d[key] = value] *)
Definition setitem (d : pyval) (key : string) (value : pyval) : M unit :=
  ld <- as_dict d ;;
  store ld.1 (ODict (<[key := value]> ld.2)).

(** [d.get(key)]; an object without [get] raises [AttributeError]. *)
Definition dict_get (d : pyval) (key : string) : M pyval :=
  match d with
  | PRef l =>
      o <- deref l ;;
      match o with
      | ODict items => ret (default PNone (items !! key))
      | _ => raise AttributeError (PStr "get")
      end
  | _ => raise AttributeError (PStr "get")
  end.

(** [d.update(other)]: the entries of [other] are bound in [d], one level
    deep. *)
Definition dict_update (d other : pyval) : M unit :=
  ld <- as_dict d ;;
  lo <- as_dict other ;;
  store ld.1 (ODict (lo.2 ∪ ld.2)).

(** [copy.copy]: a new object with the same fields or entries; what they
    refer to is shared with the original. *)
Definition copy (v : pyval) : M pyval :=
  match v with
  | PRef l => o <- deref l ;; l' <- alloc o ;; ret (PRef l')
  | _ => ret v
  end.

(** Truth value of an object, as [if x:] tests it. *)
Definition truthy (v : pyval) : M bool :=
  match v with
  | PNone => ret false
  | PBool b => ret b
  | PInt n => ret (negb (Z.eqb n 0%Z))
  | PStr s => ret (negb (String.eqb s ""))
  | PFunc _ => ret true
  | PRef l =>
      o <- deref l ;;
      match o with
      | ODict d => ret (negb (bool_decide (d = ∅)))
      | OList l => ret (negb (bool_decide (l = [])))
      | OPage _ => ret true
      end
  end.

Definition raise_exn {A} (e : exn) : M A := fun s => Outcome (inl e) s [].

(** [dict(x)]: a new dictionary with the entries of the mapping [x]. *)
Definition dict_of (x : pyval) : M pyval :=
  lx <- as_dict x ;;
  l <- alloc (ODict lx.2) ;;
  ret (PRef l).

(** [v is not w], for two values that are references. *)
Definition is_not (v w : pyval) : bool := negb (bool_decide (v = w)).

(** The objects [yaml.load] builds for a document: a new dictionary for
    each mapping (a repeated key keeps its last value), a new list for
    each sequence. *)
Fixpoint to_python (y : yaml) : M pyval :=
  match y with
  | YNull => ret PNone
  | YBool b => ret (PBool b)
  | YInt n => ret (PInt n)
  | YStr s => ret (PStr s)
  | YSeq l =>
      vs <- (fix elems (l : list yaml) : M (list pyval) :=
               match l with
               | [] => ret []
               | x :: r => v <- to_python x ;; vs <- elems r ;; ret (v :: vs)
               end) l ;;
      o <- alloc (OList vs) ;;
      ret (PRef o)
  | YMap m =>
      d <- (fix entries (m : list (string * yaml)) (acc : gmap string pyval)
              : M (gmap string pyval) :=
              match m with
              | [] => ret acc
              | (k, x) :: r => v <- to_python x ;; entries r (<[k := v]> acc)
              end) m ∅ ;;
      o <- alloc (ODict d) ;;
      ret (PRef o)
  end.

(** ** Helpers of the package that are not in plugin.py *)

Module Util.

(** Modelled from the spec: [update] of mkdocs_macros.util, the deep merge
    that [_load_yaml] applies to the variable store, is not among the
    sources.  The spec: "a deep merge operation combines two stores such
    that for any key present as a nested mapping in both, the merge
    recurses; for any other key, the later (right-hand) value overwrites
    the earlier".  The left store [d1] is merged into in place; the right
    one is the data just loaded.  For data that is not a mapping the spec
    says nothing, and the store is left as it is. *)
Fixpoint update (d1 : pyval) (d2 : yaml) {struct d2} : M unit :=
  match d2 with
  | YMap m =>
      (fix merge (m : list (string * yaml)) : M unit :=
         match m with
         | [] => ret tt
         | (key, value) :: rest =>
             (ld <- as_dict d1 ;;
              s <- get ;;
              match ld.2 !! key, value with
              | Some (PRef l'), YMap _ =>
                  match heap s !! l' with
                  | Some (ODict _) => update (PRef l') value
                  | _ => v <- to_python value ;; setitem d1 key v
                  end
              | _, _ => v <- to_python value ;; setitem d1 key v
              end) ;;;
             merge rest
         end) m
  | _ => ret tt
  end.

(** Modelled from the spec: the same deep merge, as the spec states it of
    two stores taken as values, "a mapping from string keys to arbitrary
    values (scalars, nested mappings, sequences ...)": [merge d1 d2] is
    [d1] in which every entry of [d2] is bound in turn, a nested mapping
    being merged with the nested mapping it meets. *)
Fixpoint lookup_key (key : string) (d : list (string * yaml)) : option yaml :=
  match d with
  | [] => None
  | (k, v) :: rest => if String.eqb k key then Some v else lookup_key key rest
  end.

Fixpoint bind_key (key : string) (value : yaml) (d : list (string * yaml))
    : list (string * yaml) :=
  match d with
  | [] => [(key, value)]
  | (k, v) :: rest =>
      if String.eqb k key then (k, value) :: rest
      else (k, v) :: bind_key key value rest
  end.

Fixpoint merge_into (d1 : list (string * yaml)) (d2 : yaml) {struct d2}
    : list (string * yaml) :=
  match d2 with
  | YMap m =>
      (fix entries (m : list (string * yaml)) (d1 : list (string * yaml))
         : list (string * yaml) :=
         match m with
         | [] => d1
         | (key, value) :: rest =>
             let merged :=
               match lookup_key key d1, value with
               | Some (YMap n1), YMap _ => YMap (merge_into n1 value)
               | _, _ => value
               end in
             entries rest (bind_key key merged d1)
         end) m d1
  | _ => d1
  end.

Definition merge (d1 d2 : list (string * yaml)) : list (string * yaml) :=
  merge_into d1 (YMap d2).

End Util.

Module Errors.

Definition class_name (c : exn_class) : string :=
  match c with
  | BaseException => "BaseException" | Exception => "Exception"
  | AttributeError => "AttributeError" | KeyError => "KeyError"
  | NameError => "NameError" | ValueError => "ValueError"
  | TypeError => "TypeError" | ImportError => "ImportError"
  | ModuleNotFoundError => "ModuleNotFoundError"
  | FileNotFoundError => "FileNotFoundError"
  | AssertionError => "AssertionError" | TemplateError => "TemplateError"
  | SystemExit => "SystemExit" | KeyboardInterrupt => "KeyboardInterrupt"
  end.

(** [str(error)], for the arguments the plugin's exceptions carry. *)
Definition message (e : exn) : string :=
  match exn_arg e with
  | PStr s => s
  | _ => ""
  end.

Definition newline : string := String (Ascii.ascii_of_nat 10) "".

(** Modelled from the spec: [format_error] of mkdocs_macros.errors is not
    among the sources.  The spec has [render] "construct a diagnostic
    (error description + originating document text + this document's
    identity)"; the three parts are put on successive lines, the error
    described by its class and its message. *)
Definition format_error (error : exn) (markdown : string) (page : Page)
    : string :=
  (class_name (exn_type error) ++ ": " ++ message error) ++ newline ++
  markdown ++ newline ++ src_path page.

End Errors.

(** ** What the plugin consumes *)

Record Host := {
  (** calling a function of an extension module *)
  invoke : callable -> Ext unit;
  (** [env.from_string(text).render], given the variables as keywords *)
  template_render : Environment -> string -> gmap string pyval -> Ext string;
  (** [mkdocs_macros.context.define_env], the standard context *)
  context_define_env : Ext unit;
  (** [Environment], called with the entries of [env_config] as keyword
      arguments: the exception that jinja2 raises for them, when it
      refuses them (a keyword it does not know, markers that it cannot
      tell apart, ...) *)
  jinja2_Environment : gmap string env_option -> option exn;
  (** [jinja2.defaults]: what a new environment starts with *)
  DEFAULT_NAMESPACE : gmap string pyval;
  DEFAULT_FILTERS : gmap string pyval;
  (** [os.path] and [yaml.load] *)
  isfile : string -> bool;
  isdir : string -> bool;
  path_join : string -> string -> string;
  dirname_abspath : string -> string;
  yaml_load : string -> exn + yaml;
  (** [mkdocs_macros.util]: [parse_package], [install_package] and
      [import_local_module] *)
  parse_package : string -> string * string;
  install_package : string -> Ext unit;
  import_local_module : string -> string -> option PyModule
}.

Module Plugin.
Section WithHost.
Context (H : Host).

(** *** Properties of the env object *)

Definition conf : M pyval :=
  s <- get ;;
  match _conf s with
  | Some l => ret (PRef l)
  | None => raise AttributeError
      (PStr "Conf property of macros plugin was called before it was initialized!")
  end.

Definition variables : M pyval :=
  s <- get ;;
  match _variables s with
  | Some l => ret (PRef l)
  | None => raise AttributeError (PStr "Property called before on_config()")
  end.

Definition macros : M pyval :=
  s <- get ;;
  match _macros s with
  | Some l => ret (PRef l)
  | None => raise AttributeError (PStr "Property called before on_config()")
  end.

Definition filters : M pyval :=
  s <- get ;;
  match _filters s with
  | Some l => ret (PRef l)
  | None =>
      l <- alloc (ODict ∅) ;;
      modify (set_filters (Some l)) ;;;
      ret (PRef l)
  end.

Definition project_dir : M string :=
  c <- conf ;;
  CONFIG_FILE <- getitem c "config_file_path" ;;
  match CONFIG_FILE with
  | PStr f => ret (dirname_abspath H f)
  | _ => raise TypeError (PStr "expected str, bytes or os.PathLike object")
  end.

(** [v.__name__] *)
Definition dunder_name (v : pyval) : M string :=
  match v with
  | PFunc f =>
      match fn_name f with
      | Some n => ret n
      | None => raise AttributeError (PStr "__name__")
      end
  | _ => raise AttributeError (PStr "__name__")
  end.

(** [name or v.__name__]: the right operand is evaluated only when [name]
    is empty. *)
Definition name_or_dunder (name : string) (v : pyval) : M string :=
  if String.eqb name "" then dunder_name v else ret name.

Definition macro (v : pyval) (name : string) : M pyval :=
  name <- name_or_dunder name v ;;
  m <- macros ;;
  setitem m name v ;;;
  ret v.

Definition filter (v : pyval) (name : string) : M pyval :=
  name <- name_or_dunder name v ;;
  f <- filters ;;
  setitem f name v ;;;
  ret v.

Definition page : M loc :=
  s <- get ;;
  match _page s with
  | Some p => ret p
  | None => raise AttributeError
      (PStr "Too early: page information is not availableat this stage!")
  end.

Definition markdown : M string :=
  s <- get ;;
  match _markdown s with
  | Some t => ret t
  | None => raise AttributeError
      (PStr "Too early: raw markdown is not availableat this stage!")
  end.

(** The setter of [markdown]. *)
Definition markdown_setter (value : pyval) : M unit :=
  match value with
  | PStr t => markdown ;;; modify (set_markdown (Some t))
  | _ => raise ValueError
      (PStr "Value provided to attribute markdown should be a string")
  end.

Definition pre_macro_functions : M (list callable) :=
  s <- get ;;
  match _pre_macro_functions s with
  | Some l => ret l
  | None => raise AttributeError
      (PStr "You called the pre_macro_functions property too early. Does not exist yet !")
  end.

Definition post_macro_functions : M (list callable) :=
  s <- get ;;
  match _post_macro_functions s with
  | Some l => ret l
  | None => raise AttributeError
      (PStr "You called the post_macro_functions property too early. Does not exist yet !")
  end.

Definition post_build_functions : M (list callable) :=
  s <- get ;;
  match _post_build_functions s with
  | Some l => ret l
  | None => raise AttributeError
      (PStr "You called post_build_functions property too early. Does not exist yet !")
  end.

(** *** Loading *)

(** Calling a function of an extension module. *)
Definition call (f : callable) : M unit :=
  tell (Called f) ;;; lift (invoke H f).

(** [importlib.import_module] *)
Definition import_module (name : string) : M PyModule :=
  s <- get ;;
  match importable s !! name with
  | Some m => ret m
  | None => raise ModuleNotFoundError (PStr name)
  end.

Definition _load_yaml : M unit :=
  s <- get ;;
  for_each (include_yaml (config s)) (fun el =>
    kf <- match el with
          | IncDict [(key, filename)] => ret (Some key, filename)
          | IncDict _ => raise ValueError (PStr "wrong number of values to unpack")
          | IncFile filename => ret (None, filename)
          end ;;
    d <- project_dir ;;
    let filename := path_join H d kf.2 in
    if isfile H filename then
      match yaml_load H filename with
      | inl e => raise_exn e
      | inr content =>
          let content := match kf.1 with
                         | Some key => YMap [(key, content)]
                         | None => content
                         end in
          v <- variables ;;
          Util.update v content
      end
    else ret tt).

(** [add_function]: the list is an argument, read before the module is
    probed. *)
Definition add_function (hook : option callable)
    (funclist : M (list callable))
    (assign : option (list callable) -> MacrosPlugin -> MacrosPlugin) : M unit :=
  l <- funclist ;;
  match hook with
  | Some func => modify (assign (Some (l ++ [func])%list))
  | None => ret tt
  end.

Definition _load_module (module : option PyModule) (module_name : string)
    : M unit :=
  match module with
  | None => ret tt
  | Some module =>
      project_dir ;;;
      found1 <- match define_env module with
                | Some f => call f ;;; ret true
                | None => ret false
                end ;;
      found2 <- match declare_variables module with
                | Some f => variables ;;; call f ;;; ret true
                | None => ret found1
                end ;;
      if negb found2 then
        raise NameError
          (PStr ("No valid function found in module '" ++ module_name ++ "'"))
      else
        add_function (on_pre_page_macros module) pre_macro_functions
          set_pre_macro_functions ;;;
        add_function (on_post_page_macros module) post_macro_functions
          set_post_macro_functions ;;;
        add_function (on_post_build module) post_build_functions
          set_post_build_functions
  end.

(** The pluglets: the modules named in [modules]. *)
Definition load_named_modules : M unit :=
  modify (set_pre_macro_functions (Some [])) ;;;
  modify (set_post_macro_functions (Some [])) ;;;
  modify (set_post_build_functions (Some [])) ;;;
  s <- get ;;
  for_each (modules (config s)) (fun m =>
    let source_name := (parse_package H m).1 in
    let module_name := (parse_package H m).2 in
    module <- try_except (import_module module_name) [ModuleNotFoundError]
      (fun _ =>
         try_except
           (lift (install_package H source_name) ;;; import_module module_name)
           [NameError; ModuleNotFoundError]
           (fun _ => raise ModuleNotFoundError
              (PStr ("Could not import installed module '" ++ module_name
                     ++ "' (missing?)")))) ;;
    _load_module (Some module) module_name).

(** The local module (file or directory). *)
Definition load_local_module : M unit :=
  s <- get ;;
  let local_module_name := module_name (config s) in
  project_dir ;;;
  d <- project_dir ;;
  let module := import_local_module H d local_module_name in
  match module with
  | Some _ => project_dir ;;; _load_module module local_module_name
  | None =>
      if String.eqb local_module_name DEFAULT_MODULE_NAME then ret tt
      else
        d <- project_dir ;;
        raise ImportError
          (PStr ("Macro plugin could not find custom '" ++ local_module_name
                 ++ "' module in '" ++ d ++ "'."))
  end.

Definition _load_modules : M unit :=
  load_named_modules ;;; load_local_module.

(** *** Rendering *)

(** [p.meta] *)
Definition getattr_meta (p : pyval) : M pyval :=
  match p with
  | PRef l =>
      o <- deref l ;;
      match o with
      | OPage pg => ret (meta pg)
      | _ => raise AttributeError (PStr "meta")
      end
  | _ => raise AttributeError (PStr "meta")
  end.

(** The first half of [render], "Process meta_variables": [None] when the
    text is to be returned as it is, otherwise the variables to render it
    with. *)
Definition process_meta_variables : M (option pyval) :=
  v <- variables ;;
  page_variables <- copy v ;;
  meta_variables <-
    try_except (v <- variables ;; p <- getitem v "page" ;; getattr_meta p)
      [KeyError]
      (fun _ => l <- alloc (ODict ∅) ;; ret (PRef l)) ;;
  given <- truthy meta_variables ;;
  flags <- (if given : bool then
              i <- dict_get meta_variables "ignore_macros" ;;
              r <- dict_get meta_variables "render_macros" ;;
              ret (i, r)
            else ret (PNone, PNone)) ;;
  let ignore_macros := flags.1 in
  let render_macros := flags.2 in
  s <- get ;;
  let returns_early :=
    if render_by_default (config s) then
      let opt_out :=
        py_eq_bool ignore_macros true || py_eq_bool render_macros false in
      opt_out
    else
      let opt_in :=
        py_eq_bool render_macros true || py_eq_bool ignore_macros false in
      negb opt_in in
  if returns_early then ret None
  else dict_update page_variables meta_variables ;;; ret (Some page_variables).

(** [self.env] *)
Definition get_env : M Environment :=
  s <- get ;;
  match env s with
  | Some e => ret e
  | None => raise AttributeError (PStr "env")
  end.

(** [page.file.src_path] and the other fields of the page object. *)
Definition deref_page (p : loc) : M Page :=
  o <- deref p ;;
  match o with
  | OPage pg => ret pg
  | _ => raise AttributeError (PStr "file")
  end.

(** The second half of [render], "Rendering". *)
Definition expand_template (markdown : string) (page_variables : pyval)
    : M string :=
  s <- get ;;
  let on_error_fail := on_error_fail (config s) in
  try_except
    (e <- get_env ;;
     kw <- as_dict page_variables ;;
     tell (Evaluated markdown) ;;;
     lift (template_render H e markdown kw.2))
    [Exception]
    (fun error =>
       p <- page ;;
       pg <- deref_page p ;;
       let error_message := Errors.format_error error markdown pg in
       if on_error_fail then raise SystemExit (PInt ERROR_MACRO)
       else ret error_message).

Definition render (markdown : string) : M string :=
  pv <- process_meta_variables ;;
  match pv with
  | None => ret markdown
  | Some page_variables => expand_template markdown page_variables
  end.

(** *** Standard hooks of a mkdocs plugin *)

(** The beginning of [on_config]: the dictionaries of variables and
    macros, with the entries [extra] and [config]; it hands over [extra].
    [config'] is the argument [config] of the method, the configuration of
    the site; [config s] is [self.config]. *)
Definition on_config_seed (config' : loc) : M pyval :=
  l <- alloc (ODict ∅) ;;
  modify (set_variables (Some l)) ;;;
  l <- alloc (ODict ∅) ;;
  modify (set_macros (Some l)) ;;;
  x <- dict_get (PRef config') YAML_VARIABLES ;;
  extra <- dict_of x ;;
  v <- variables ;;
  setitem v "extra" extra ;;;
  modify (set_conf (Some config')) ;;;
  c <- copy (PRef config') ;;
  v <- variables ;;
  setitem v "config" c ;;;
  v <- variables ;;
  c' <- getitem v "config" ;;
  (if is_not c' (PRef config') then ret tt
   else raise AssertionError PNone) ;;;
  ret extra.

(** The first part of [on_config]: the variables and macros, up to the
    extension modules. *)
Definition on_config_variables (config' : loc) : M unit :=
  extra <- on_config_seed config' ;;
  _load_yaml ;;;
  lift (context_define_env H) ;;;
  v <- variables ;;
  dict_update v extra ;;;
  _load_modules ;;;
  variables ;;;
  f <- filters ;;
  truthy f ;;;
  ret tt.

(** [key.split('_', 1)[1]], for a key that starts with [j2_]: what
    follows the first underscore. *)
Definition variable_name (key : string) : string :=
  String.substring 3 (String.length key - 3) key.

(** The entries of the configuration whose key starts with [j2_] and
    whose value is not empty, under their name without the prefix, in the
    order of the configuration. *)
Definition j2_options (c : PluginConfig) : list (string * yaml) :=
  omap (fun kv =>
          if String.prefix "j2_" kv.1 && yaml_truthy kv.2
          then Some (variable_name kv.1, kv.2)
          else None) (config_items c).

(** [env_config]: the loader and the class for undefined names, then the
    entries above, each assigned in turn, so that a later one takes the
    place of an earlier one of the same name. *)
Definition env_config (c : PluginConfig) (include_dir : string)
    (undefined : Undefined_class) : gmap string env_option :=
  fold_left (fun (acc : gmap string env_option) kv =>
               <[kv.1 := ConfigValue kv.2]> acc)
    (j2_options c)
    (<["undefined" := UndefinedClass undefined]>
       (<["loader" := FileSystemLoader include_dir]> ∅)).

(** The second part of [on_config], "Create the jinja2 environment". *)
Definition on_config_environment (config' : loc) : M unit :=
  DOCS_DIR <- dict_get (PRef config') "docs_dir" ;;
  s <- get ;;
  let include_dir :=
    if negb (String.eqb (include_dir (config s)) "")
    then PStr (include_dir (config s)) else DOCS_DIR in
  include_dir <- match include_dir with
                 | PStr d =>
                     if isdir H d then ret d
                     else raise FileNotFoundError
                       (PStr ("MACROS ERROR: Include directory '" ++ d
                              ++ "' does not exist!"))
                 | _ => raise TypeError (PStr "stat: path should be string")
                 end ;;
  s <- get ;;
  let on_undefined := on_undefined (config s) in
  match UNDEFINED_BEHAVIOR !! on_undefined with
  | None => raise ValueError
      (PStr ("Illegal value for undefined macro parameter '" ++ on_undefined
             ++ "'"))
  | Some undefined =>
      s <- get ;;
      let env_config := env_config (config s) include_dir undefined in
      match jinja2_Environment H env_config with
      | Some error => raise_exn error
      | None =>
          g <- alloc (ODict (DEFAULT_NAMESPACE H)) ;;
          f <- alloc (ODict (DEFAULT_FILTERS H)) ;;
          modify (set_env (Some {| env_options := env_config;
                                   env_globals := g; env_filters := f |}))
      end
  end.

(** The last part of [on_config], "Process macros" and "Process
    filters". *)
Definition on_config_publish : M unit :=
  m <- macros ;;
  c <- copy m ;;
  v <- variables ;;
  setitem v "macros" c ;;;
  e <- get_env ;;
  m <- macros ;;
  dict_update (PRef (env_globals e)) m ;;;
  f <- filters ;;
  c <- copy f ;;
  v <- variables ;;
  setitem v "filters" c ;;;
  e <- get_env ;;
  c <- copy (PRef (env_filters e)) ;;
  v <- variables ;;
  setitem v "filters_builtin" c ;;;
  e <- get_env ;;
  f <- filters ;;
  dict_update (PRef (env_filters e)) f.

Definition on_config (config' : loc) : M unit :=
  on_config_variables config' ;;;
  on_config_environment config' ;;;
  on_config_publish.

(** [page.title = value] *)
Definition set_title (p : loc) (value : string) : M unit :=
  pg <- deref_page p ;;
  store p (OPage {| title := value; meta := meta pg; src_path := src_path pg |}).

Definition on_page_markdown (markdown' : string) (page : loc) : M string :=
  modify (set_page (Some page)) ;;;
  v <- variables ;;
  nonempty <- truthy v ;;
  if negb nonempty then ret markdown'
  else
    c <- copy (PRef page) ;;
    v <- variables ;;
    setitem v "page" c ;;;
    modify (set_markdown (Some markdown')) ;;;
    pre <- pre_macro_functions ;;
    for_each pre call ;;;
    md <- markdown ;;
    r <- render md ;;
    markdown_setter (PStr r) ;;;
    pg <- deref_page page ;;
    t <- render (title pg) ;;
    set_title page t ;;;
    post <- post_macro_functions ;;
    for_each post call ;;;
    markdown.

Definition on_post_build : M unit :=
  fs <- post_build_functions ;;
  for_each fs call.

End WithHost.
End Plugin.

(** * Properties *)

(** [o] ends with an exception of class [c]. *)
Definition raises {A} (o : outcome A) (c : exn_class) : Prop :=
  exists arg, res o = inl (Exn c arg).

(** [l] names a dictionary with entries [d]. *)
Definition dict_at (s : MacrosPlugin) (l : loc) (d : gmap string pyval) : Prop :=
  heap s !! l = Some (ODict d).

(** ** Running the primitive operations *)

(** [o], with the events [l] recorded before it. *)
Definition prepend {A} (l : list event) (o : outcome A) : outcome A :=
  Outcome (res o) (st o) (l ++ log o).

Lemma prepend_nil {A} (o : outcome A) : prepend [] o = o.
Proof. now destruct o. Qed.

Lemma prepend_prepend {A} l l' (o : outcome A) :
  prepend l (prepend l' o) = prepend (l ++ l') o.
Proof. unfold prepend. simpl. now rewrite app_assoc. Qed.

Lemma bind_inr {A B} (m : M A) (k : A -> M B) s a s1 l1 :
  m s = Outcome (inr a) s1 l1 -> bind m k s = prepend l1 (k a s1).
Proof. intros E. unfold bind. now rewrite E. Qed.

Lemma bind_inl {A B} (m : M A) (k : A -> M B) s e s1 l1 :
  m s = Outcome (inl e) s1 l1 -> bind m k s = Outcome (inl e) s1 l1.
Proof. intros E. unfold bind. now rewrite E. Qed.

Lemma bind_ret {A B} (a : A) (k : A -> M B) s : bind (ret a) k s = k a s.
Proof. rewrite (bind_inr _ _ _ a s []) by reflexivity. apply prepend_nil. Qed.

Lemma bind_get {B} (k : MacrosPlugin -> M B) s : bind get k s = k s s.
Proof. rewrite (bind_inr _ _ _ s s []) by reflexivity. apply prepend_nil. Qed.

Lemma bind_modify {B} f (k : unit -> M B) s : bind (modify f) k s = k tt (f s).
Proof. rewrite (bind_inr _ _ _ tt (f s) []) by reflexivity. apply prepend_nil. Qed.

Lemma bind_tell {B} ev (k : unit -> M B) s :
  bind (tell ev) k s = prepend [ev] (k tt s).
Proof. now rewrite (bind_inr _ _ _ tt s [ev]). Qed.

Lemma bind_raise {A B} c arg (k : A -> M B) s :
  bind (raise c arg) k s = Outcome (inl (Exn c arg)) s [].
Proof. now rewrite (bind_inl _ _ _ (Exn c arg) s []). Qed.

Lemma bind_alloc {B} o (k : loc -> M B) s :
  bind (alloc o) k s = k (length (heap s)) (set_heap (heap s ++ [o]) s).
Proof.
  rewrite (bind_inr _ _ _ (length (heap s)) (set_heap (heap s ++ [o]) s) [])
    by reflexivity.
  apply prepend_nil.
Qed.

Lemma bind_lift {A B} (f : Ext A) (k : A -> M B) s a :
  (f s).1 = inr a -> bind (lift f) k s = k a (f s).2.
Proof.
  intros E. rewrite (bind_inr _ _ _ a (f s).2 []).
  - apply prepend_nil.
  - unfold lift. now rewrite E.
Qed.

Lemma bind_assoc {A B C} (m : M A) (k : A -> M B) (k' : B -> M C) s :
  bind (bind m k) k' s = bind m (fun a => bind (k a) k') s.
Proof.
  unfold bind. destruct (m s) as [[e|a] s1 l1]; simpl; [reflexivity|].
  destruct (k a s1) as [[e|b] s2 l2]; simpl; [reflexivity|].
  now rewrite app_assoc.
Qed.

Lemma run_deref s l o :
  heap s !! l = Some o -> deref l s = Outcome (inr o) s [].
Proof. intros E. unfold deref. rewrite bind_get, E. reflexivity. Qed.

Lemma run_as_dict s l d :
  dict_at s l d -> as_dict (PRef l) s = Outcome (inr (l, d)) s [].
Proof.
  intros E. unfold as_dict. now rewrite (bind_inr _ _ _ _ _ _ (run_deref _ _ _ E)).
Qed.

Lemma dict_at_lt s l d : dict_at s l d -> (l < length (heap s))%nat.
Proof. unfold dict_at. intros E. now apply lookup_lt_Some in E. Qed.

Lemma run_store s l o :
  store l o s = Outcome (inr tt) (set_heap (<[l := o]> (heap s)) s) [].
Proof. reflexivity. Qed.

Lemma run_setitem s l d key value :
  dict_at s l d ->
  setitem (PRef l) key value s =
  Outcome (inr tt) (set_heap (<[l := ODict (<[key := value]> d)]> (heap s)) s) [].
Proof.
  intros Hd. unfold setitem.
  now rewrite (bind_inr _ _ _ _ _ _ (run_as_dict _ _ _ Hd)).
Qed.

Lemma run_getitem s l d key :
  dict_at s l d ->
  getitem (PRef l) key s =
  match d !! key with
  | Some v => Outcome (inr v) s []
  | None => Outcome (inl (Exn KeyError (PStr key))) s []
  end.
Proof.
  intros Hd. unfold getitem.
  rewrite (bind_inr _ _ _ _ _ _ (run_as_dict _ _ _ Hd)). simpl.
  now destruct (d !! key).
Qed.

Lemma run_dict_get s l d key :
  dict_at s l d ->
  dict_get (PRef l) key s = Outcome (inr (default PNone (d !! key))) s [].
Proof.
  intros Hd. unfold dict_get.
  now rewrite (bind_inr _ _ _ _ _ _ (run_deref _ _ _ Hd)).
Qed.

Lemma run_dict_update s l d lo other :
  dict_at s l d -> dict_at s lo other ->
  dict_update (PRef l) (PRef lo) s =
  Outcome (inr tt) (set_heap (<[l := ODict (other ∪ d)]> (heap s)) s) [].
Proof.
  intros Hd Ho. unfold dict_update.
  rewrite (bind_inr _ _ _ _ _ _ (run_as_dict _ _ _ Hd)), prepend_nil.
  now rewrite (bind_inr _ _ _ _ _ _ (run_as_dict _ _ _ Ho)).
Qed.

Lemma run_copy s l o :
  heap s !! l = Some o ->
  copy (PRef l) s =
  Outcome (inr (PRef (length (heap s)))) (set_heap (heap s ++ [o]) s) [].
Proof.
  intros E. unfold copy.
  rewrite (bind_inr _ _ _ _ _ _ (run_deref _ _ _ E)), prepend_nil.
  now rewrite bind_alloc.
Qed.

Lemma dict_at_insert_eq s l d d' :
  dict_at s l d -> dict_at (set_heap (<[l := ODict d']> (heap s)) s) l d'.
Proof.
  intros Hd. unfold dict_at. simpl.
  apply list_lookup_insert_eq. now apply dict_at_lt in Hd.
Qed.

Lemma dict_at_insert_ne s l l' d d' :
  l <> l' -> dict_at s l' d' ->
  dict_at (set_heap (<[l := ODict d]> (heap s)) s) l' d'.
Proof.
  intros Hne Hd. unfold dict_at. simpl.
  now rewrite list_lookup_insert_ne.
Qed.

(** ** C10: the filters property *)

(** C10.  The properties [variables], [macros], [page], [markdown] and the
    three lists of hook functions raise [AttributeError] when the attribute
    behind them does not exist yet.  [filters] never raises: when [_filters]
    does not exist, reading the property binds it to a new, empty dictionary
    and returns that dictionary, leaving every other object as it was. *)
Theorem filters_never_raises (s : MacrosPlugin) :
  raises (Plugin.variables (set_variables None s)) AttributeError /\
  raises (Plugin.macros (set_macros None s)) AttributeError /\
  raises (Plugin.page (set_page None s)) AttributeError /\
  raises (Plugin.markdown (set_markdown None s)) AttributeError /\
  raises (Plugin.pre_macro_functions (set_pre_macro_functions None s))
    AttributeError /\
  raises (Plugin.post_macro_functions (set_post_macro_functions None s))
    AttributeError /\
  raises (Plugin.post_build_functions (set_post_build_functions None s))
    AttributeError /\
  (exists l, res (Plugin.filters s) = inr (PRef l)) /\
  (let s0 := set_filters None s in
   let o := Plugin.filters s0 in
   let l := length (heap s0) in
   res o = inr (PRef l) /\
   heap s0 !! l = None /\
   dict_at (st o) l ∅ /\
   _filters (st o) = Some l /\
   st o = set_filters (Some l) (set_heap (heap s0 ++ [ODict ∅]) s0) /\
   log o = []).
Proof.
  repeat split; try (eexists; reflexivity).
  - unfold Plugin.filters, bind, get, ret. simpl.
    destruct (_filters s) as [l|]; simpl; eexists; reflexivity.
  - apply lookup_ge_None. simpl. lia.
  - unfold dict_at. simpl. now rewrite lookup_app_r, Nat.sub_diag.
Qed.

(** ** C9: registering macros and filters *)

Lemma run_name_or_dunder f name key s :
  (name = "" -> fn_name f = Some key) -> (name <> "" -> key = name) ->
  Plugin.name_or_dunder name (PFunc f) s = Outcome (inr key) s [].
Proof.
  intros Hd Hg. unfold Plugin.name_or_dunder, Plugin.dunder_name.
  destruct (String.eqb name "") eqn:E.
  - apply String.eqb_eq in E. now rewrite (Hd E).
  - apply String.eqb_neq in E. now rewrite (Hg E).
Qed.

(** C9.  In an instance whose macro and filter dictionaries exist and are
    two objects, [macro(v, name)] and [filter(v, name)] bind the function
    [v] under the key [name], or under [v.__name__] when no name is given
    (the default, the empty string); they return [v]; the binding replaces
    whatever the key was bound to before, without an error; and
    registering a macro leaves the filters as they were, and conversely. *)
Theorem registration_binds_name (s : MacrosPlugin) (f : callable)
    (name key : string) (lm lf : loc) (dm df : gmap string pyval) :
  _macros s = Some lm -> _filters s = Some lf -> lm <> lf ->
  dict_at s lm dm -> dict_at s lf df ->
  (name = "" -> fn_name f = Some key) ->
  (name <> "" -> key = name) ->
  let o_m := Plugin.macro (PFunc f) name s in
  let o_f := Plugin.filter (PFunc f) name s in
  (res o_m = inr (PFunc f) /\
   st o_m = set_heap (<[lm := ODict (<[key := PFunc f]> dm)]> (heap s)) s /\
   dict_at (st o_m) lm (<[key := PFunc f]> dm) /\
   res (getitem (PRef lm) key (st o_m)) = inr (PFunc f) /\
   dict_at (st o_m) lf df) /\
  (res o_f = inr (PFunc f) /\
   st o_f = set_heap (<[lf := ODict (<[key := PFunc f]> df)]> (heap s)) s /\
   dict_at (st o_f) lf (<[key := PFunc f]> df) /\
   res (getitem (PRef lf) key (st o_f)) = inr (PFunc f) /\
   dict_at (st o_f) lm dm).
Proof.
  intros Hm Hf Hne Hdm Hdf Hd Hg o_m o_f.
  pose proof (run_name_or_dunder f name key s Hd Hg) as En.
  assert (Em : o_m = Outcome (inr (PFunc f))
            (set_heap (<[lm := ODict (<[key := PFunc f]> dm)]> (heap s)) s) []).
  { subst o_m. unfold Plugin.macro.
    rewrite (bind_inr _ _ _ _ _ _ En), prepend_nil.
    unfold Plugin.macros. rewrite bind_assoc, bind_get, Hm, bind_ret.
    now rewrite (bind_inr _ _ _ _ _ _ (run_setitem _ _ _ _ _ Hdm)). }
  assert (Ef : o_f = Outcome (inr (PFunc f))
            (set_heap (<[lf := ODict (<[key := PFunc f]> df)]> (heap s)) s) []).
  { subst o_f. unfold Plugin.filter.
    rewrite (bind_inr _ _ _ _ _ _ En), prepend_nil.
    unfold Plugin.filters. rewrite bind_assoc, bind_get, Hf, bind_ret.
    now rewrite (bind_inr _ _ _ _ _ _ (run_setitem _ _ _ _ _ Hdf)). }
  rewrite Em, Ef. simpl.
  pose proof (dict_at_insert_eq s lm dm (<[key := PFunc f]> dm) Hdm) as Hm'.
  pose proof (dict_at_insert_eq s lf df (<[key := PFunc f]> df) Hdf) as Hf'.
  repeat split; trivial.
  - now rewrite (run_getitem _ _ _ _ Hm'), lookup_insert_eq.
  - now apply dict_at_insert_ne.
  - now rewrite (run_getitem _ _ _ _ Hf'), lookup_insert_eq.
  - apply dict_at_insert_ne; [congruence | trivial].
Qed.

(** ** The render decision *)

Lemma try_except_inr {A} (body : M A) classes handler s a s1 l1 :
  body s = Outcome (inr a) s1 l1 ->
  try_except body classes handler s = Outcome (inr a) s1 l1.
Proof. intros E. unfold try_except. now rewrite E. Qed.

Lemma try_except_caught {A} (body : M A) classes handler s e s1 l1 :
  body s = Outcome (inl e) s1 l1 ->
  existsb (issubclass (exn_type e)) classes = true ->
  try_except body classes handler s = prepend l1 (handler e s1).
Proof. intros E Hc. unfold try_except. rewrite E. simpl. now rewrite Hc. Qed.

Lemma try_except_passed {A} (body : M A) classes handler s e s1 l1 :
  body s = Outcome (inl e) s1 l1 ->
  existsb (issubclass (exn_type e)) classes = false ->
  try_except body classes handler s = Outcome (inl e) s1 l1.
Proof. intros E Hc. unfold try_except. rewrite E. simpl. now rewrite Hc. Qed.

Lemma dict_at_alloc s l d o :
  dict_at s l d -> dict_at (set_heap (heap s ++ [o]) s) l d.
Proof. unfold dict_at. simpl. intros E. now apply lookup_app_l_Some. Qed.

Lemma dict_at_new s d : dict_at (set_heap (heap s ++ [ODict d]) s) (length (heap s)) d.
Proof. unfold dict_at. simpl. now rewrite lookup_app_r, Nat.sub_diag. Qed.

(** The page being processed, as [render] finds it: the variables are the
    dictionary [dv] at [lv], the entry [page] of which is a page object
    whose metadata are the dictionary [dmeta] at [lm]. *)
Definition page_in_store (s : MacrosPlugin) (lv : loc) (dv : gmap string pyval)
    (lm : loc) (dmeta : gmap string pyval) : Prop :=
  _variables s = Some lv /\ dict_at s lv dv /\
  exists lp pg, dv !! "page" = Some (PRef lp) /\
                heap s !! lp = Some (OPage pg) /\
                meta pg = PRef lm /\ dict_at s lm dmeta.

(** The test [render] makes on the two flags of the metadata. *)
Definition returns_early (render_by_default : bool) (dmeta : gmap string pyval)
    : bool :=
  let ignore_macros := default PNone (dmeta !! "ignore_macros") in
  let render_macros := default PNone (dmeta !! "render_macros") in
  if render_by_default
  then py_eq_bool ignore_macros true || py_eq_bool render_macros false
  else negb (py_eq_bool render_macros true || py_eq_bool ignore_macros false).

Lemma run_process_meta_variables s lv dv lm dmeta :
  page_in_store s lv dv lm dmeta ->
  let s1 := set_heap (heap s ++ [ODict dv]) s in
  let pv := length (heap s) in
  Plugin.process_meta_variables s =
  if returns_early (render_by_default (config s)) dmeta
  then Outcome (inr None) s1 []
  else Outcome (inr (Some (PRef pv)))
         (set_heap (<[pv := ODict (dmeta ∪ dv)]> (heap s1)) s1) [].
Proof.
  intros (Hv & Hdv & lp & pg & Hp & Hpg & Hmeta & Hdm) s1 pv.
  unfold Plugin.process_meta_variables.
  unfold Plugin.variables at 1. rewrite bind_assoc, bind_get, Hv, bind_ret.
  rewrite (bind_inr _ _ _ _ _ _ (run_copy _ _ _ Hdv)), prepend_nil.
  fold s1. fold pv.
  assert (Hdv1 : dict_at s1 lv dv) by now apply dict_at_alloc.
  assert (Hdm1 : dict_at s1 lm dmeta) by now apply dict_at_alloc.
  assert (Hpg1 : heap s1 !! lp = Some (OPage pg))
    by (simpl; now apply lookup_app_l_Some).
  assert (Hnew : dict_at s1 pv dv) by apply dict_at_new.
  assert (Etry : forall handler,
    try_except (v <- Plugin.variables ;; p <- getitem v "page" ;;
                Plugin.getattr_meta p) [KeyError] handler s1
    = Outcome (inr (PRef lm)) s1 []).
  { intros handler. apply try_except_inr.
    unfold Plugin.variables. rewrite bind_assoc, bind_get. simpl. rewrite Hv, bind_ret.
    rewrite (bind_inr _ _ _ (PRef lp) s1 []), prepend_nil
      by now rewrite (run_getitem _ _ _ _ Hdv1), Hp.
    unfold Plugin.getattr_meta.
    rewrite (bind_inr _ _ _ _ _ _ (run_deref _ _ _ Hpg1)), prepend_nil.
    now rewrite Hmeta. }
  rewrite (bind_inr _ _ _ _ _ _ (Etry _)), prepend_nil.
  unfold truthy. rewrite bind_assoc.
  rewrite (bind_inr _ _ _ _ _ _ (run_deref _ _ _ Hdm1)), prepend_nil, bind_ret.
  assert (Eflags :
    (if negb (bool_decide (dmeta = ∅)) then
       i <- dict_get (PRef lm) "ignore_macros" ;;
       r <- dict_get (PRef lm) "render_macros" ;; ret (i, r)
     else ret (PNone, PNone)) s1
    = Outcome (inr (default PNone (dmeta !! "ignore_macros"),
                    default PNone (dmeta !! "render_macros"))) s1 []).
  { case_bool_decide as He; cbn [negb].
    - subst dmeta. now rewrite !lookup_empty.
    - rewrite (bind_inr _ _ _ _ _ _ (run_dict_get _ _ _ _ Hdm1)), prepend_nil.
      now rewrite (bind_inr _ _ _ _ _ _ (run_dict_get _ _ _ _ Hdm1)). }
  rewrite (bind_inr _ _ _ _ _ _ Eflags), prepend_nil, bind_get.
  unfold returns_early. simpl.
  destruct (render_by_default (config s)); simpl;
    match goal with |- context [if ?b then _ else _] => destruct b end; simpl;
    try reflexivity;
    now rewrite (bind_inr _ _ _ _ _ _ (run_dict_update _ _ _ _ _ Hnew Hdm1)).
Qed.

Lemma registration_binds_name_witness :
  let double := Callable 7 (Some "double") in
  let s := set_macros (Some 0) (set_filters (Some 1)
             (new_plugin default_config
                [ODict (<["double" := PInt 0]> ∅); ODict ∅] ∅)) in
  res (getitem (PRef 0) "double" (st (Plugin.macro (PFunc double) "" s)))
    = inr (PFunc double) /\
  res (getitem (PRef 1) "twice" (st (Plugin.filter (PFunc double) "twice" s)))
    = inr (PFunc double) /\
  dict_at (st (Plugin.macro (PFunc double) "" s)) 1 ∅.
Proof.
  intros double s.
  destruct (registration_binds_name s double "" "double" 0 1
              (<["double" := PInt 0]> ∅) ∅)
    as [(_ & _ & _ & Hm & Hf) _]; try reflexivity;
    [discriminate | congruence |].
  destruct (registration_binds_name s double "twice" "twice" 0 1
              (<["double" := PInt 0]> ∅) ∅)
    as [_ (_ & _ & _ & Hf' & _)]; try reflexivity;
    [discriminate | discriminate |].
  repeat split; assumption.
Defined.

(** A flag of the metadata as a Python value: [None] when nothing is
    said. *)
Definition flag_value (f : option bool) : pyval :=
  match f with
  | Some b => PBool b
  | None => PNone
  end.

(** ** A small site, for the examples *)

Module Site.

Definition f_define : callable := Callable 1 (Some "define_env").
Definition f_pre : callable := Callable 2 (Some "on_pre_page_macros").
Definition f_post : callable := Callable 3 (Some "on_post_page_macros").

(** A template engine that fails on the text ["{{ boom() }}"] and
    otherwise returns the text between brackets. *)
Definition eval (e : Environment) (text : string) (kw : gmap string pyval)
    : exn + string :=
  if String.eqb text "{{ boom() }}"
  then inl (Exn TemplateError (PStr "'boom' is undefined"))
  else inr ("[" ++ text ++ "]").

(** A host with that engine, whose extension functions rewrite the text
    of the page with [on_text] and do nothing else. *)
Definition host_with (on_text : callable -> string -> string) : Host :=
  {| invoke := fun f s =>
       (inr tt, match _markdown s with
                | Some t => set_markdown (Some (on_text f t)) s
                | None => s
                end);
     template_render := fun e text kw s => (eval e text kw, s);
     context_define_env := fun s => (inr tt, s);
     jinja2_Environment := fun _ => None;
     DEFAULT_NAMESPACE := ∅;
     DEFAULT_FILTERS := ∅;
     isfile := fun _ => true;
     isdir := fun _ => true;
     path_join := fun a b => a ++ "/" ++ b;
     dirname_abspath := fun _ => "/site";
     yaml_load := fun _ => inr (YMap []);
     parse_package := fun m => (m, m);
     install_package := fun _ s => (inl (Exn NameError PNone), s);
     import_local_module := fun _ _ => None |}.

(** Extension functions that leave the text as it is, and ones that put
    a mark at its end. *)
Definition host : Host := host_with (fun _ t => t).
Definition marking_host : Host := host_with (fun _ t => t ++ "!").

Definition options (by_default fail : bool) : PluginConfig :=
  {| module_name := DEFAULT_MODULE_NAME; modules := [];
     render_by_default := by_default; include_dir := ""; include_yaml := [];
     j2_block_start_string := ""; j2_block_end_string := "";
     j2_variable_start_string := ""; j2_variable_end_string := "";
     on_undefined := DEFAULT_UNDEFINED_BEHAVIOR; on_error_fail := fail;
     verbose := false; other_options := [] |}.

(** The configuration of the site, the argument of [on_config], and an
    instance as mkdocs creates it: location 0 holds that configuration,
    location 1 its [extra] values. *)
Definition mkdocs_config : pyobj :=
  ODict (<["config_file_path" := PStr "/site/mkdocs.yml"]>
        (<["docs_dir" := PStr "docs"]> (<["extra" := PRef 1]> ∅))).

Definition created (c : PluginConfig) : MacrosPlugin :=
  new_plugin c [mkdocs_config; ODict (<["site_name" := PStr "Docs"]> ∅)] ∅.

Definition the_page : Page :=
  {| title := "Home"; meta := PRef 2; src_path := "index.md" |}.

Definition the_env : Environment :=
  {| env_options := <["undefined" := UndefinedClass DebugUndefined]>
                  (<["loader" := FileSystemLoader "docs"]> ∅);
     env_globals := 3; env_filters := 4 |}.

(** An instance after [on_config], about to process the page at location
    1, whose metadata are [dmeta]:
    - 0: the variables, 1: the page, 2: its metadata,
    - 3, 4: globals and filters of the environment,
    - 5: the macros, 6: the filters, 7: the nested mapping [extra]. *)
Definition ready (c : PluginConfig) (dmeta : gmap string pyval)
    (pre post : list callable) : MacrosPlugin :=
  {| config := c;
     heap := [ ODict (<["page" := PRef 1]> (<["extra" := PRef 7]> ∅));
               OPage the_page; ODict dmeta; ODict ∅; ODict ∅; ODict ∅;
               ODict ∅; ODict (<["x" := PInt 1]> ∅) ];
     importable := ∅;
     _conf := None; _variables := Some 0; _macros := Some 5;
     _filters := Some 6; _page := Some 1; _markdown := None;
     _pre_macro_functions := Some pre; _post_macro_functions := Some post;
     _post_build_functions := Some []; env := Some the_env |}.

End Site.

(** ** C1: the render decision *)

(** C1.  For a page whose metadata give [ignore_macros] and
    [render_macros] as true, false or nothing: with [render_by_default]
    the text is returned as it is exactly when [ignore_macros] is true or
    [render_macros] is false; without it the text is rendered exactly when
    [render_macros] is true or [ignore_macros] is false; and exactly one of
    the two happens. *)
Theorem render_decision (H : Host) (s : MacrosPlugin) (lv lm : loc)
    (dv dmeta : gmap string pyval) (ignore_macros render_macros : option bool)
    (markdown : string) :
  page_in_store s lv dv lm dmeta ->
  default PNone (dmeta !! "ignore_macros") = flag_value ignore_macros ->
  default PNone (dmeta !! "render_macros") = flag_value render_macros ->
  let o := Plugin.process_meta_variables s in
  let skipped := res o = inr None in
  let rendered := exists pv, res o = inr (Some pv) in
  (render_by_default (config s) = true ->
     (skipped <-> ignore_macros = Some true \/ render_macros = Some false)) /\
  (render_by_default (config s) = false ->
     (rendered <-> render_macros = Some true \/ ignore_macros = Some false)) /\
  (skipped \/ rendered) /\ ~ (skipped /\ rendered) /\
  (skipped -> Plugin.render H markdown s = Outcome (inr markdown) (st o) []) /\
  (forall pv, res o = inr (Some pv) ->
     Plugin.render H markdown s = Plugin.expand_template H markdown pv (st o)).
Proof.
  intros Hp Hi Hr o skipped rendered.
  pose proof (run_process_meta_variables s lv dv lm dmeta Hp) as E.
  cbv zeta in E. fold o in E.
  assert (Hrender : forall r, res o = inr r ->
            Plugin.render H markdown s =
            match r with
            | None => Outcome (inr markdown) (st o) []
            | Some pv => Plugin.expand_template H markdown pv (st o)
            end).
  { intros r Hres. unfold Plugin.render.
    rewrite (bind_inr _ _ _ r (st o) []).
    - rewrite prepend_nil. now destruct r.
    - fold o. rewrite <- Hres. rewrite E.
      now destruct (returns_early _ _). }
  unfold returns_early in E. rewrite Hi, Hr in E.
  subst skipped rendered. clearbody o.
  destruct (render_by_default (config s)),
    ignore_macros as [[]|], render_macros as [[]|];
    simpl in E; subst o; simpl;
    (split; [intros Hb; try discriminate Hb;
             (split; [intros Hx; try discriminate; tauto
                     | intros [Hx|Hx]; try discriminate; reflexivity]) |]);
    (split; [intros Hb; try discriminate Hb;
             (split; [intros [pv Hx]; try discriminate; tauto
                     | intros [Hx|Hx]; try discriminate; eexists; reflexivity]) |]).
  all: (split; [first [left; reflexivity | right; eexists; reflexivity] |]).
  all: (split; [intros [Hx [pv Hy]]; congruence |]).
  all: (split; [intros Hx; try discriminate; apply (Hrender None Hx)
               | intros pv Hx; apply (Hrender (Some pv) Hx)]).
Qed.

Lemma render_decision_witness :
  let s := Site.ready (Site.options true false)
             (<["ignore_macros" := PBool true]> ∅) [] [] in
  res (Plugin.process_meta_variables s) = inr None /\
  res (Plugin.render Site.host "# {{ site_name }}" s) = inr "# {{ site_name }}".
Proof.
  intros s.
  assert (Hp : page_in_store s 0 (<["page" := PRef 1]> (<["extra" := PRef 7]> ∅))
                 2 (<["ignore_macros" := PBool true]> ∅)).
  { split; [reflexivity|]. split; [reflexivity|].
    exists 1, Site.the_page. repeat split. }
  destruct (render_decision Site.host s 0 2 _ _ (Some true) None
              "# {{ site_name }}" Hp eq_refl eq_refl)
    as (Hout & _ & _ & _ & Hskip & _).
  pose proof (proj2 (Hout eq_refl) (or_introl eq_refl)) as Hs.
  split; [exact Hs|]. now rewrite (Hskip Hs).
Defined.

(** ** Loading extension modules *)

(** Reading a dictionary entry changes nothing. *)
Lemma getitem_pure d key s : getitem d key s = Outcome (res (getitem d key s)) s [].
Proof.
  unfold getitem, as_dict, deref.
  destruct d as [| | | | |l]; try reflexivity.
  rewrite !bind_assoc, bind_get.
  destruct (heap s !! l) as [[d|?|?]|]; try reflexivity.
  rewrite !bind_ret. simpl. now destruct (d !! key).
Qed.

Lemma project_dir_pure (H : Host) s :
  Plugin.project_dir H s = Outcome (res (Plugin.project_dir H s)) s [].
Proof.
  unfold Plugin.project_dir, Plugin.conf.
  rewrite bind_assoc, bind_get.
  destruct (_conf s) as [l|]; [|reflexivity].
  rewrite bind_ret.
  pose proof (getitem_pure (PRef l) "config_file_path" s) as E.
  destruct (res (getitem (PRef l) "config_file_path" s)) as [e|v] eqn:Er.
  - now rewrite (bind_inl _ _ _ _ _ _ E).
  - rewrite (bind_inr _ _ _ _ _ _ E), prepend_nil. now destruct v.
Qed.

Lemma bind_project_dir {B} (H : Host) (k : string -> M B) s :
  bind (Plugin.project_dir H) k s =
  match res (Plugin.project_dir H s) with
  | inl e => Outcome (inl e) s []
  | inr d => k d s
  end.
Proof.
  pose proof (project_dir_pure H s) as E.
  destruct (res (Plugin.project_dir H s)) as [e|d].
  - now rewrite (bind_inl _ _ _ _ _ _ E).
  - now rewrite (bind_inr _ _ _ _ _ _ E), prepend_nil.
Qed.

(** C7.  A module that has neither [define_env] nor [declare_variables]
    makes [_load_module] raise [NameError], the registration error, whatever
    hook functions the module has: nothing of the module is called, and no
    hook is added.  (When the directory of the project cannot be read, the
    error is that of reading it, raised first.) *)
Theorem load_module_without_entry_point (H : Host) (s : MacrosPlugin)
    (module : PyModule) (module_name : string) :
  define_env module = None ->
  declare_variables module = None ->
  Plugin._load_module H (Some module) module_name s =
  match res (Plugin.project_dir H s) with
  | inr _ =>
      Outcome (inl (Exn NameError
        (PStr ("No valid function found in module '" ++ module_name ++ "'"))))
        s []
  | inl e => Outcome (inl e) s []
  end.
Proof.
  intros Hd Hv. unfold Plugin._load_module.
  rewrite bind_project_dir, Hd, Hv.
  destruct (res (Plugin.project_dir H s)); [reflexivity|].
  now rewrite !bind_ret.
Qed.

Lemma load_module_without_entry_point_witness :
  let hooks_only :=
    {| define_env := None; declare_variables := None;
       on_pre_page_macros := Some Site.f_pre;
       on_post_page_macros := Some Site.f_post; on_post_build := None |} in
  raises (Plugin._load_module Site.host (Some hooks_only) "pluglet"
            (set_conf (Some 0) (Site.created default_config)))
    NameError.
Proof.
  intros hooks_only. unfold raises.
  rewrite (load_module_without_entry_point Site.host _ hooks_only "pluglet"
             eq_refl eq_refl).
  eexists. reflexivity.
Defined.

(** C8.  Once the named modules are loaded, [_load_modules] looks for the
    local module of the configured name.  When there is none, loading ends
    without an error if that name is the default one, [main], and raises
    [ImportError] otherwise. *)
Theorem local_module_absent (H : Host) (s s1 : MacrosPlugin)
    (l1 : list event) (d : string) :
  Plugin.load_named_modules H s = Outcome (inr tt) s1 l1 ->
  res (Plugin.project_dir H s1) = inr d ->
  import_local_module H d (module_name (config s1)) = None ->
  Plugin._load_modules H s =
  if String.eqb (module_name (config s1)) DEFAULT_MODULE_NAME
  then Outcome (inr tt) s1 l1
  else Outcome (inl (Exn ImportError
         (PStr ("Macro plugin could not find custom '"
                ++ module_name (config s1) ++ "' module in '" ++ d ++ "'."))))
         s1 l1.
Proof.
  intros Hn Hd Hi. unfold Plugin._load_modules.
  rewrite (bind_inr _ _ _ _ _ _ Hn).
  unfold Plugin.load_local_module.
  rewrite bind_get, !bind_project_dir, Hd, Hi.
  destruct (module_name (config s1) =? DEFAULT_MODULE_NAME)%string.
  - unfold prepend, ret. simpl. now rewrite app_nil_r.
  - rewrite bind_project_dir, Hd.
    unfold prepend, raise. simpl. now rewrite app_nil_r.
Qed.

Lemma local_module_absent_witness :
  let custom :=
    {| module_name := "custom"; modules := []; render_by_default := true;
       include_dir := ""; include_yaml := [];
       j2_block_start_string := ""; j2_block_end_string := "";
       j2_variable_start_string := ""; j2_variable_end_string := "";
       on_undefined := "keep"; on_error_fail := false; verbose := false; other_options := [] |} in
  res (Plugin._load_modules Site.host
         (set_conf (Some 0) (Site.created default_config))) = inr tt /\
  raises (Plugin._load_modules Site.host (set_conf (Some 0) (Site.created custom)))
    ImportError.
Proof.
  intros custom. split.
  - set (s := set_conf (Some 0) (Site.created default_config)).
    rewrite (local_module_absent Site.host s
               (st (Plugin.load_named_modules Site.host s)) [] "/site");
      reflexivity.
  - set (s := set_conf (Some 0) (Site.created custom)).
    rewrite (local_module_absent Site.host s
               (st (Plugin.load_named_modules Site.host s)) [] "/site");
      try reflexivity.
    eexists. reflexivity.
Defined.

(** ** Building the environment *)

Definition is_dict (s : MacrosPlugin) (l : loc) : Prop := exists d, dict_at s l d.

(** [s'] is [s] with a heap in which the dictionaries of [s] are still
    dictionaries. *)
Definition grows (s s' : MacrosPlugin) : Prop :=
  s' = set_heap (heap s') s /\ forall l, is_dict s l -> is_dict s' l.

Lemma grows_refl s : grows s s.
Proof. split; [now destruct s | trivial]. Qed.

Lemma grows_trans s1 s2 s3 : grows s1 s2 -> grows s2 s3 -> grows s1 s3.
Proof.
  intros [E1 H1] [E2 H2]. split; [|auto].
  rewrite E2 at 1. rewrite E1 at 1. reflexivity.
Qed.

Lemma grows_insert_dict s l d d' :
  dict_at s l d -> grows s (set_heap (<[l := ODict d']> (heap s)) s).
Proof.
  intros Hd. split; [reflexivity|]. intros l' [d'' Hd''].
  destruct (decide (l = l')) as [->|Hne].
  - exists d'. now apply (dict_at_insert_eq _ _ d).
  - exists d''. now apply dict_at_insert_ne.
Qed.

Lemma grows_alloc s o : grows s (set_heap (heap s ++ [o]) s).
Proof.
  split; [reflexivity|]. intros l [d Hd]. exists d. now apply dict_at_alloc.
Qed.

Lemma copy_dict s l :
  is_dict s l ->
  exists s', copy (PRef l) s = Outcome (inr (PRef (length (heap s)))) s' [] /\
             grows s s' /\ is_dict s' (length (heap s)).
Proof.
  intros [d Hd]. eexists. split; [apply (run_copy _ _ _ Hd)|].
  split; [apply grows_alloc|]. exists d. apply dict_at_new.
Qed.

Lemma setitem_dict s l key value :
  is_dict s l ->
  exists s', setitem (PRef l) key value s = Outcome (inr tt) s' [] /\ grows s s'.
Proof.
  intros [d Hd]. eexists. split; [apply (run_setitem _ _ _ _ _ Hd)|].
  now apply (grows_insert_dict _ _ d).
Qed.

Lemma dict_update_dict s l lo :
  is_dict s l -> is_dict s lo ->
  exists s', dict_update (PRef l) (PRef lo) s = Outcome (inr tt) s' [] /\
             grows s s'.
Proof.
  intros [d Hd] [o Ho]. eexists.
  split; [apply (run_dict_update _ _ _ _ _ Hd Ho)|].
  now apply (grows_insert_dict _ _ d).
Qed.

Lemma bind_variables {B} (k : pyval -> M B) s l :
  _variables s = Some l -> bind Plugin.variables k s = k (PRef l) s.
Proof.
  intros E. unfold Plugin.variables. now rewrite bind_assoc, bind_get, E, bind_ret.
Qed.

Lemma bind_macros {B} (k : pyval -> M B) s l :
  _macros s = Some l -> bind Plugin.macros k s = k (PRef l) s.
Proof.
  intros E. unfold Plugin.macros. now rewrite bind_assoc, bind_get, E, bind_ret.
Qed.

Lemma bind_filters {B} (k : pyval -> M B) s l :
  _filters s = Some l -> bind Plugin.filters k s = k (PRef l) s.
Proof.
  intros E. unfold Plugin.filters. now rewrite bind_assoc, bind_get, E, bind_ret.
Qed.

Lemma bind_get_env {B} (k : Environment -> M B) s e :
  env s = Some e -> bind Plugin.get_env k s = k e s.
Proof.
  intros E. unfold Plugin.get_env. now rewrite bind_assoc, bind_get, E, bind_ret.
Qed.

Lemma grows_variables s s' : grows s s' -> _variables s' = _variables s.
Proof. intros [-> _]. reflexivity. Qed.
Lemma grows_macros s s' : grows s s' -> _macros s' = _macros s.
Proof. intros [-> _]. reflexivity. Qed.
Lemma grows_filters s s' : grows s s' -> _filters s' = _filters s.
Proof. intros [-> _]. reflexivity. Qed.
Lemma grows_env s s' : grows s s' -> env s' = env s.
Proof. intros [-> _]. reflexivity. Qed.
Lemma grows_config s s' : grows s s' -> config s' = config s.
Proof. intros [-> _]. reflexivity. Qed.

(** The last part of [on_config] ends well when the dictionaries it
    copies and updates exist. *)
Lemma on_config_publish_ok s e lv lm lf :
  env s = Some e -> _variables s = Some lv -> _macros s = Some lm ->
  _filters s = Some lf ->
  is_dict s lv -> is_dict s lm -> is_dict s lf ->
  is_dict s (env_globals e) -> is_dict s (env_filters e) ->
  exists s', Plugin.on_config_publish s = Outcome (inr tt) s' [] /\ grows s s'.
Proof.
  intros He Hv Hm Hf Dv Dm Df Dg Dfe. unfold Plugin.on_config_publish.
  rewrite (bind_macros _ _ _ Hm).
  destruct (copy_dict s lm Dm) as (s1 & E1 & G1 & _).
  rewrite (bind_inr _ _ _ _ _ _ E1), prepend_nil.
  rewrite (bind_variables _ _ lv) by now rewrite (grows_variables _ _ G1).
  destruct (setitem_dict s1 lv "macros" (PRef (length (heap s)))
              (proj2 G1 _ Dv)) as (s2 & E2 & G2).
  rewrite (bind_inr _ _ _ _ _ _ E2), prepend_nil.
  pose proof (grows_trans _ _ _ G1 G2) as G02.
  rewrite (bind_get_env _ _ e) by now rewrite (grows_env _ _ G02).
  rewrite (bind_macros _ _ lm) by now rewrite (grows_macros _ _ G02).
  destruct (dict_update_dict s2 (env_globals e) lm
              (proj2 G02 _ Dg) (proj2 G02 _ Dm)) as (s3 & E3 & G3).
  rewrite (bind_inr _ _ _ _ _ _ E3), prepend_nil.
  pose proof (grows_trans _ _ _ G02 G3) as G03.
  rewrite (bind_filters _ _ lf) by now rewrite (grows_filters _ _ G03).
  destruct (copy_dict s3 lf (proj2 G03 _ Df)) as (s4 & E4 & G4 & _).
  rewrite (bind_inr _ _ _ _ _ _ E4), prepend_nil.
  pose proof (grows_trans _ _ _ G03 G4) as G04.
  rewrite (bind_variables _ _ lv) by now rewrite (grows_variables _ _ G04).
  destruct (setitem_dict s4 lv "filters" (PRef (length (heap s3)))
              (proj2 G04 _ Dv)) as (s5 & E5 & G5).
  rewrite (bind_inr _ _ _ _ _ _ E5), prepend_nil.
  pose proof (grows_trans _ _ _ G04 G5) as G05.
  rewrite (bind_get_env _ _ e) by now rewrite (grows_env _ _ G05).
  destruct (copy_dict s5 (env_filters e) (proj2 G05 _ Dfe)) as (s6 & E6 & G6 & _).
  rewrite (bind_inr _ _ _ _ _ _ E6), prepend_nil.
  pose proof (grows_trans _ _ _ G05 G6) as G06.
  rewrite (bind_variables _ _ lv) by now rewrite (grows_variables _ _ G06).
  destruct (setitem_dict s6 lv "filters_builtin" (PRef (length (heap s5)))
              (proj2 G06 _ Dv)) as (s7 & E7 & G7).
  rewrite (bind_inr _ _ _ _ _ _ E7), prepend_nil.
  pose proof (grows_trans _ _ _ G06 G7) as G07.
  rewrite (bind_get_env _ _ e) by now rewrite (grows_env _ _ G07).
  rewrite (bind_filters _ _ lf) by now rewrite (grows_filters _ _ G07).
  destruct (dict_update_dict s7 (env_filters e) lf
              (proj2 G07 _ Dfe) (proj2 G07 _ Df)) as (s8 & E8 & G8).
  exists s8. split; [exact E8|]. now apply (grows_trans _ _ _ G07).
Qed.

(** The names [on_undefined] may take. *)
Definition undefined_names : list string := ["keep"; "silent"; "strict"; "lax"].

Lemma UNDEFINED_BEHAVIOR_lookup (v : string) :
  UNDEFINED_BEHAVIOR !! v =
  if decide (v = "keep") then Some DebugUndefined
  else if decide (v = "silent") then Some Undefined
  else if decide (v = "strict") then Some StrictUndefined
  else if decide (v = "lax") then Some LaxUndefined
  else None.
Proof.
  unfold UNDEFINED_BEHAVIOR.
  destruct (decide (v = "keep")) as [->|N1]; [reflexivity|].
  rewrite lookup_insert_ne by congruence.
  destruct (decide (v = "silent")) as [->|N2]; [reflexivity|].
  rewrite lookup_insert_ne by congruence.
  destruct (decide (v = "strict")) as [->|N3]; [reflexivity|].
  rewrite lookup_insert_ne by congruence.
  destruct (decide (v = "lax")) as [->|N4]; [reflexivity|].
  rewrite lookup_insert_ne by congruence.
  apply lookup_empty.
Qed.

Lemma UNDEFINED_BEHAVIOR_None (v : string) :
  ~ In v undefined_names -> UNDEFINED_BEHAVIOR !! v = None.
Proof.
  intros Hn. rewrite UNDEFINED_BEHAVIOR_lookup.
  repeat (case_decide; [exfalso; apply Hn; subst; simpl; tauto |]).
  reflexivity.
Qed.

Lemma UNDEFINED_BEHAVIOR_Some (v : string) :
  In v undefined_names -> exists u, UNDEFINED_BEHAVIOR !! v = Some u.
Proof.
  intros Hin. rewrite UNDEFINED_BEHAVIOR_lookup.
  repeat (case_decide; [eexists; reflexivity |]).
  exfalso. simpl in Hin. intuition congruence.
Qed.

Lemma run_on_config_environment (H : Host) s config' dc d :
  dict_at s config' dc ->
  (if negb (String.eqb (include_dir (config s)) "")
   then PStr (include_dir (config s))
   else default PNone (dc !! "docs_dir")) = PStr d ->
  isdir H d = true ->
  Plugin.on_config_environment H config' s =
  match UNDEFINED_BEHAVIOR !! on_undefined (config s) with
  | None =>
      Outcome (inl (Exn ValueError
        (PStr ("Illegal value for undefined macro parameter '"
               ++ on_undefined (config s) ++ "'")))) s []
  | Some u =>
      match jinja2_Environment H (Plugin.env_config (config s) d u) with
      | Some error => Outcome (inl error) s []
      | None =>
          Outcome (inr tt)
            (set_env (Some {| env_options := Plugin.env_config (config s) d u;
                              env_globals := length (heap s);
                              env_filters := S (length (heap s)) |})
               (set_heap ((heap s ++ [ODict (DEFAULT_NAMESPACE H)])
                            ++ [ODict (DEFAULT_FILTERS H)]) s)) []
      end
  end.
Proof.
  intros Hc Hdir Hisdir. unfold Plugin.on_config_environment.
  rewrite (bind_inr _ _ _ _ _ _ (run_dict_get _ _ _ _ Hc)), prepend_nil.
  rewrite bind_get, Hdir, Hisdir, bind_ret, bind_get.
  destruct (UNDEFINED_BEHAVIOR !! on_undefined (config s)) as [u|];
    [|reflexivity].
  rewrite bind_get.
  destruct (jinja2_Environment H (Plugin.env_config (config s) d u)) as [error|];
    [reflexivity|].
  rewrite !bind_alloc. unfold modify. simpl.
  rewrite length_app. simpl. now rewrite Nat.add_1_r.
Qed.

(** The keyword [undefined] of the environment is the class that
    [on_config] selects, unless an entry [j2_undefined] of the
    configuration takes its place. *)
Lemma env_config_undefined c d u :
  (forall value, ~ In ("undefined", value) (Plugin.j2_options c)) ->
  Plugin.env_config c d u !! "undefined" = Some (UndefinedClass u).
Proof.
  intros Hno. unfold Plugin.env_config.
  assert (Hgen : forall (l : list (string * yaml)) (acc0 : gmap string env_option),
            (forall value, ~ In ("undefined", value) l) ->
            acc0 !! "undefined" = Some (UndefinedClass u) ->
            fold_left (fun (acc : gmap string env_option) kv =>
                         <[kv.1 := ConfigValue kv.2]> acc) l acc0 !! "undefined"
            = Some (UndefinedClass u)).
  { induction l as [|[k v] l IH]; intros acc0 Hl Hacc; [exact Hacc|].
    simpl. apply IH.
    - intros value Hin. apply (Hl value). now right.
    - rewrite lookup_insert_ne; [exact Hacc|].
      intros ->. apply (Hl v). now left. }
  apply Hgen; [exact Hno | apply lookup_insert_eq].
Qed.

(** C6.  Once the variables are set up and the directory of the included
    files is found: a value of [on_undefined] other than keep, silent,
    strict and lax makes [on_config] raise [ValueError], with no
    environment built.  With one of the four the check passes, and the
    class that [UNDEFINED_BEHAVIOR] gives for the value is the keyword
    [undefined] that [Environment] is called with (unless the
    configuration has an entry [j2_undefined], which takes its place);
    [on_config] then ends well with that environment when jinja2 accepts
    the keywords, and with the exception of jinja2 when it refuses them.
    The default value is keep. *)
Theorem on_undefined_is_checked (H : Host) (config' : loc)
    (s s1 : MacrosPlugin) (l1 : list event) (dc : gmap string pyval)
    (d : string) (lv lm lf : loc) :
  Plugin.on_config_variables H config' s = Outcome (inr tt) s1 l1 ->
  dict_at s1 config' dc ->
  (if negb (String.eqb (include_dir (config s1)) "")
   then PStr (include_dir (config s1))
   else default PNone (dc !! "docs_dir")) = PStr d ->
  isdir H d = true ->
  _variables s1 = Some lv -> _macros s1 = Some lm -> _filters s1 = Some lf ->
  is_dict s1 lv -> is_dict s1 lm -> is_dict s1 lf ->
  let v := on_undefined (config s1) in
  let o := Plugin.on_config H config' s in
  (~ In v undefined_names ->
     res o = inl (Exn ValueError
       (PStr ("Illegal value for undefined macro parameter '" ++ v ++ "'"))) /\
     st o = s1 /\ log o = l1) /\
  (In v undefined_names ->
     exists u, UNDEFINED_BEHAVIOR !! v = Some u /\
       (v = "keep" -> u = DebugUndefined) /\
       (v = "silent" -> u = Undefined) /\
       (v = "strict" -> u = StrictUndefined) /\
       (v = "lax" -> u = LaxUndefined) /\
       let keywords := Plugin.env_config (config s1) d u in
       ((forall value,
           ~ In ("undefined", value) (Plugin.j2_options (config s1))) ->
        keywords !! "undefined" = Some (UndefinedClass u)) /\
       (jinja2_Environment H keywords = None ->
        res o = inr tt /\
        exists e, env (st o) = Some e /\ env_options e = keywords) /\
       (forall error, jinja2_Environment H keywords = Some error ->
        res o = inl error /\ st o = s1 /\ log o = l1)) /\
  on_undefined default_config = "keep".
Proof.
  intros H1 Hc Hdir Hisdir Hv Hm Hf Dv Dm Df v o.
  assert (Eo : o = prepend l1
            (bind (Plugin.on_config_environment H config')
               (fun _ => Plugin.on_config_publish) s1)).
  { subst o. unfold Plugin.on_config. now rewrite (bind_inr _ _ _ _ _ _ H1). }
  pose proof (run_on_config_environment H s1 config' dc d Hc Hdir Hisdir) as E2.
  fold v in E2.
  split; [|split; [|reflexivity]].
  - intros Hn. rewrite (UNDEFINED_BEHAVIOR_None v Hn) in E2.
    rewrite Eo, (bind_inl _ _ _ _ _ _ E2). unfold prepend. simpl.
    rewrite app_nil_r. repeat split.
  - intros Hin. destruct (UNDEFINED_BEHAVIOR_Some v Hin) as [u Hu].
    rewrite Hu in E2. exists u. split; [exact Hu|].
    assert (Hclass : (v = "keep" -> u = DebugUndefined) /\
                     (v = "silent" -> u = Undefined) /\
                     (v = "strict" -> u = StrictUndefined) /\
                     (v = "lax" -> u = LaxUndefined)).
    { pose proof Hu as Hu'. rewrite UNDEFINED_BEHAVIOR_lookup in Hu'.
      repeat split; intros Ev; rewrite Ev in Hu'; vm_compute in Hu';
        now injection Hu'. }
    destruct Hclass as (K1 & K2 & K3 & K4).
    split; [exact K1|]. split; [exact K2|]. split; [exact K3|].
    split; [exact K4|]. cbv zeta.
    split; [apply env_config_undefined|]. split.
    + intros Hok. rewrite Hok in E2.
      set (e := {| env_options := Plugin.env_config (config s1) d u;
                   env_globals := length (heap s1);
                   env_filters := S (length (heap s1)) |}) in *.
      set (s2 := set_env (Some e) _) in E2.
      assert (G : forall l, is_dict s1 l -> is_dict s2 l).
      { intros l [x Hx]. exists x. unfold dict_at in *. subst s2. simpl.
        now do 2 apply lookup_app_l_Some. }
      assert (Dg : is_dict s2 (env_globals e)).
      { exists (DEFAULT_NAMESPACE H). unfold dict_at. subst s2 e. simpl.
        rewrite lookup_app_l by (rewrite length_app; simpl; lia).
        now rewrite lookup_app_r, Nat.sub_diag. }
      assert (Dfe : is_dict s2 (env_filters e)).
      { exists (DEFAULT_FILTERS H). unfold dict_at. subst s2 e. simpl.
        rewrite lookup_app_r by (rewrite length_app; simpl; lia).
        rewrite length_app. simpl.
        replace (S (length (heap s1)) - (length (heap s1) + 1))%nat with 0%nat by lia.
        reflexivity. }
      destruct (on_config_publish_ok s2 e lv lm lf eq_refl Hv Hm Hf
                  (G _ Dv) (G _ Dm) (G _ Df) Dg Dfe) as (s3 & E3 & G3).
      rewrite Eo, (bind_inr _ _ _ _ _ _ E2), prepend_nil, E3. simpl.
      split; [reflexivity|]. exists e.
      split; [now rewrite (grows_env _ _ G3) | reflexivity].
    + intros error Herr. rewrite Herr in E2.
      rewrite Eo, (bind_inl _ _ _ _ _ _ E2). unfold prepend. simpl.
      rewrite app_nil_r. repeat split.
Qed.

Lemma on_undefined_is_checked_witness :
  let options v :=
    {| module_name := "main"; modules := []; render_by_default := true;
       include_dir := ""; include_yaml := [];
       j2_block_start_string := ""; j2_block_end_string := "";
       j2_variable_start_string := ""; j2_variable_end_string := "";
       on_undefined := v; on_error_fail := false; verbose := false;
       other_options := [] |} in
  raises (Plugin.on_config Site.host 0 (Site.created (options "loose")))
    ValueError /\
  res (Plugin.on_config Site.host 0 (Site.created (options "strict"))) = inr tt.
Proof.
  intros options.
  set (dc := <["config_file_path" := PStr "/site/mkdocs.yml"]>
             (<["docs_dir" := PStr "docs"]> (<["extra" := PRef 1]> ∅))
       : gmap string pyval).
  split.
  - set (s := Site.created (options "loose")).
    set (o1 := Plugin.on_config_variables Site.host 0 s).
    assert (H1 : Plugin.on_config_variables Site.host 0 s
                 = Outcome (inr tt) (st o1) (log o1))
      by (vm_compute; reflexivity).
    assert (Hc : dict_at (st o1) 0 dc) by (vm_compute; reflexivity).
    assert (Hd : (if negb (String.eqb (include_dir (config (st o1))) "")
                  then PStr (include_dir (config (st o1)))
                  else default PNone (dc !! "docs_dir")) = PStr "docs")
      by (vm_compute; reflexivity).
    assert (Hi : isdir Site.host "docs" = true) by reflexivity.
    assert (Hv : _variables (st o1) = Some 2) by (vm_compute; reflexivity).
    assert (Hm : _macros (st o1) = Some 3) by (vm_compute; reflexivity).
    assert (Hf : _filters (st o1) = Some 6) by (vm_compute; reflexivity).
    assert (Dv : is_dict (st o1) 2) by (eexists; vm_compute; reflexivity).
    assert (Dm : is_dict (st o1) 3) by (eexists; vm_compute; reflexivity).
    assert (Df : is_dict (st o1) 6) by (eexists; vm_compute; reflexivity).
    assert (Hn : ~ In (on_undefined (config (st o1))) undefined_names)
      by (vm_compute; intuition discriminate).
    pose proof (on_undefined_is_checked Site.host 0 s (st o1) (log o1) dc
                  "docs" 2 3 6 H1 Hc Hd Hi Hv Hm Hf Dv Dm Df) as (Hbad & _ & _).
    destruct (Hbad Hn) as (Hr & _ & _). eexists. exact Hr.
  - set (s := Site.created (options "strict")).
    set (o1 := Plugin.on_config_variables Site.host 0 s).
    assert (H1 : Plugin.on_config_variables Site.host 0 s
                 = Outcome (inr tt) (st o1) (log o1))
      by (vm_compute; reflexivity).
    assert (Hc : dict_at (st o1) 0 dc) by (vm_compute; reflexivity).
    assert (Hd : (if negb (String.eqb (include_dir (config (st o1))) "")
                  then PStr (include_dir (config (st o1)))
                  else default PNone (dc !! "docs_dir")) = PStr "docs")
      by (vm_compute; reflexivity).
    assert (Hi : isdir Site.host "docs" = true) by reflexivity.
    assert (Hv : _variables (st o1) = Some 2) by (vm_compute; reflexivity).
    assert (Hm : _macros (st o1) = Some 3) by (vm_compute; reflexivity).
    assert (Hf : _filters (st o1) = Some 6) by (vm_compute; reflexivity).
    assert (Dv : is_dict (st o1) 2) by (eexists; vm_compute; reflexivity).
    assert (Dm : is_dict (st o1) 3) by (eexists; vm_compute; reflexivity).
    assert (Df : is_dict (st o1) 6) by (eexists; vm_compute; reflexivity).
    assert (Hin : In (on_undefined (config (st o1))) undefined_names)
      by (vm_compute; tauto).
    pose proof (on_undefined_is_checked Site.host 0 s (st o1) (log o1) dc
                  "docs" 2 3 6 H1 Hc Hd Hi Hv Hm Hf Dv Dm Df) as (_ & Hok & _).
    destruct (Hok Hin) as (u & _ & _ & _ & _ & _ & _ & Hgood & _).
    exact (proj1 (Hgood eq_refl)).
Defined.

(** ** C3: what the copies share *)

Ltac norm :=
  cbn [set_heap set_conf set_variables set_macros set_filters set_page
       set_markdown set_pre_macro_functions set_post_macro_functions
       set_post_build_functions set_env
       config heap importable _conf _variables _macros _filters _page
       _markdown _pre_macro_functions _post_macro_functions
       _post_build_functions env] in *.

Lemma state_ext (a b : MacrosPlugin) :
  config a = config b -> heap a = heap b -> importable a = importable b ->
  _conf a = _conf b -> _variables a = _variables b -> _macros a = _macros b ->
  _filters a = _filters b -> _page a = _page b -> _markdown a = _markdown b ->
  _pre_macro_functions a = _pre_macro_functions b ->
  _post_macro_functions a = _post_macro_functions b ->
  _post_build_functions a = _post_build_functions b ->
  env a = env b -> a = b.
Proof. destruct a, b. simpl. intros. now subst. Qed.

Lemma run_dict_of s l d :
  dict_at s l d ->
  dict_of (PRef l) s =
  Outcome (inr (PRef (length (heap s)))) (set_heap (heap s ++ [ODict d]) s) [].
Proof.
  intros Hd. unfold dict_of.
  rewrite (bind_inr _ _ _ _ _ _ (run_as_dict _ _ _ Hd)), prepend_nil.
  now rewrite bind_alloc.
Qed.

Lemma run_on_config_seed s config' dc le de :
  dict_at s config' dc -> dc !! "extra" = Some (PRef le) -> dict_at s le de ->
  let n := length (heap s) in
  Plugin.on_config_seed config' s =
  Outcome (inr (PRef (n + 2)))
    (set_heap
       (heap s ++ [ODict (<["config" := PRef (n + 3)]>
                            (<["extra" := PRef (n + 2)]> ∅));
                   ODict ∅; ODict de; ODict dc])
       (set_conf (Some config')
          (set_macros (Some (n + 1)) (set_variables (Some n) s)))) [].
Proof.
  intros Hc He Hde n. unfold Plugin.on_config_seed.
  pose proof (dict_at_lt _ _ _ Hc) as Lc.
  rewrite bind_alloc, bind_modify, bind_alloc, bind_modify.
  match goal with |- _ ?s0 = _ => set (s1 := s0) end.
  assert (Hc1 : dict_at s1 config' dc).
  { unfold dict_at. subst s1. norm. now do 2 apply lookup_app_l_Some. }
  assert (Hde1 : dict_at s1 le de).
  { unfold dict_at. subst s1. norm. now do 2 apply lookup_app_l_Some. }
  rewrite (bind_inr _ _ _ _ _ _ (run_dict_get _ _ _ YAML_VARIABLES Hc1)), prepend_nil.
  unfold YAML_VARIABLES. rewrite He. simpl default.
  rewrite (bind_inr _ _ _ _ _ _ (run_dict_of _ _ _ Hde1)), prepend_nil.
  match goal with |- _ ?s0 = _ => set (s2 := s0) end.
  assert (Hv2 : dict_at s2 n ∅).
  { unfold dict_at. subst s2 s1. norm.
    rewrite <- !app_assoc. now rewrite lookup_app_r, Nat.sub_diag. }
  rewrite (bind_variables _ _ n) by reflexivity.
  rewrite (bind_inr _ _ _ _ _ _ (run_setitem _ _ _ _ _ Hv2)), prepend_nil.
  rewrite bind_modify.
  match goal with |- _ ?s0 = _ => set (s3 := s0) end.
  assert (Hc3 : heap s3 !! config' = Some (ODict dc)).
  { subst s3 s2 s1. norm. rewrite list_lookup_insert_ne by (subst n; lia).
    now do 3 apply lookup_app_l_Some. }
  rewrite (bind_inr _ _ _ _ _ _ (run_copy _ _ _ Hc3)), prepend_nil.
  match goal with |- _ ?s0 = _ => set (s4 := s0) end.
  assert (Hv4 : dict_at s4 n (<["extra" := PRef (n + 2)]> ∅)).
  { unfold dict_at. subst s4 s3 s2 s1. norm.
    apply lookup_app_l_Some. rewrite !length_app. simpl.
    replace (length (heap s) + 1 + 1)%nat with (n + 2)%nat by (subst n; lia).
    apply list_lookup_insert_eq. rewrite !length_app. simpl. subst n. lia. }
  rewrite (bind_variables _ _ n) by reflexivity.
  rewrite (bind_inr _ _ _ _ _ _ (run_setitem _ _ _ _ _ Hv4)), prepend_nil.
  match goal with |- _ ?s0 = _ => set (s5 := s0) end.
  rewrite (bind_variables _ _ n) by reflexivity.
  assert (L1 : length (heap s1) = (n + 2)%nat).
  { subst s1. norm. rewrite !length_app. simpl. subst n. lia. }
  assert (L3 : length (heap s3) = (n + 3)%nat).
  { subst s3 s2. norm. rewrite length_insert, length_app, L1. simpl. lia. }
  assert (Hv5 : dict_at s5 n (<["config" := PRef (n + 3)]>
                                (<["extra" := PRef (n + 2)]> ∅))).
  { rewrite <- L3. subst s5. apply (dict_at_insert_eq _ _ _ _ Hv4). }
  rewrite (bind_inr _ _ _ (PRef (n + 3)) s5 []), prepend_nil
    by now rewrite (run_getitem _ _ _ _ Hv5), lookup_insert_eq.
  unfold is_not. rewrite bool_decide_false by (intros [=]; lia).
  cbn [negb]. rewrite bind_ret. unfold ret. rewrite L1. f_equal.
  subst s5. rewrite L3. subst s4 s3. norm. rewrite L1. subst s2 s1.
  clear Hc1 Hde1 Hv2 Hc3 Hv4 Hv5 L3 L1.
  apply state_ext; norm; try reflexivity.
  - rewrite <- !app_assoc. simpl.
    rewrite (insert_app_r_alt (heap s)) by (subst n; lia).
    rewrite <- app_assoc.
    rewrite (insert_app_r_alt (heap s)) by (subst n; lia).
    subst n. rewrite !Nat.sub_diag. reflexivity.
  - rewrite length_app. simpl. subst n. reflexivity.
Qed.

(** What [render] does before it tests the flags, and after: every object
    that existed keeps its fields. *)
Lemma process_meta_variables_frame s lv dv lm dmeta :
  page_in_store s lv dv lm dmeta ->
  forall l, (l < length (heap s))%nat ->
  heap (st (Plugin.process_meta_variables s)) !! l = heap s !! l.
Proof.
  intros Hp l Hl. rewrite (run_process_meta_variables s lv dv lm dmeta Hp).
  destruct (returns_early _ _); simpl.
  - now rewrite lookup_app_l.
  - rewrite list_lookup_insert_ne by lia. now rewrite lookup_app_l.
Qed.

(** C3, as the code has it.  The variables [render] works on are a new
    dictionary: making it, merging the metadata of the page into it and
    binding any key in it leave every object that existed as it was, the
    variables of the site among them.  The copy is one level deep: a key
    that the metadata do not bind has in the copy the value it has in the
    store, hence the same object when that value is a nested mapping.
    Likewise the entry [config] that [on_config] binds is a new dictionary
    with the entries of the configuration of the site: binding a key in it
    leaves the configuration as it was, and what the entries refer to is
    shared. *)
Theorem copies_are_one_level_deep (s : MacrosPlugin) (lv lm : loc)
    (dv dmeta : gmap string pyval)
    (s0 : MacrosPlugin) (config' le : loc) (dc de : gmap string pyval) :
  page_in_store s lv dv lm dmeta ->
  dict_at s0 config' dc -> dc !! "extra" = Some (PRef le) -> dict_at s0 le de ->
  let o := Plugin.process_meta_variables s in
  let pv := length (heap s) in
  let o0 := Plugin.on_config_seed config' s0 in
  let c := (length (heap s0) + 3)%nat in
  ((forall l, (l < length (heap s))%nat -> heap (st o) !! l = heap s !! l) /\
   (forall r, res o = inr (Some r) ->
      r = PRef pv /\ heap s !! pv = None /\ dict_at (st o) pv (dmeta ∪ dv)) /\
   (forall key value l, (l < length (heap s))%nat ->
      heap (st (setitem (PRef pv) key value (st o))) !! l = heap s !! l) /\
   (forall key, dmeta !! key = None -> (dmeta ∪ dv) !! key = dv !! key)) /\
  (res (bind Plugin.variables (fun v => getitem v "config") (st o0))
     = inr (PRef c) /\
   c <> config' /\ heap s0 !! c = None /\
   dict_at (st o0) c dc /\
   dict_at (st o0) config' dc /\
   (forall key value,
      dict_at (st (setitem (PRef c) key value (st o0))) config' dc)).
Proof.
  intros Hp Hc He Hde o pv o0 c.
  pose proof (run_process_meta_variables s lv dv lm dmeta Hp) as E.
  cbv zeta in E. fold o pv in E.
  pose proof (process_meta_variables_frame s lv dv lm dmeta Hp) as Hframe.
  fold o in Hframe.
  assert (Hpv : exists d, dict_at (st o) pv d /\
                  (forall r, res o = inr (Some r) -> r = PRef pv /\ d = dmeta ∪ dv)).
  { rewrite E. destruct (returns_early _ _); simpl.
    - exists dv. split; [apply dict_at_new | discriminate].
    - exists (dmeta ∪ dv). split.
      + unfold dict_at. simpl. apply list_lookup_insert_eq.
        rewrite length_app. simpl. subst pv. lia.
      + intros r [= <-]. now split. }
  destruct Hpv as (d & Hd & Hr).
  split; [split; [exact Hframe | split; [|split]] |].
  - intros r Er. destruct (Hr r Er) as [-> ->].
    split; [reflexivity|]. split; [|exact Hd].
    apply lookup_ge_None. subst pv. lia.
  - intros key value l Hl. rewrite (run_setitem _ _ _ _ _ Hd). simpl.
    rewrite list_lookup_insert_ne by (subst pv; lia). now apply Hframe.
  - intros key Hk. rewrite lookup_union_r; trivial.
  - pose proof (run_on_config_seed s0 config' dc le de Hc He Hde) as E0.
    cbv zeta in E0. fold o0 c in E0.
    pose proof (dict_at_lt _ _ _ Hc) as Lc.
    assert (Hcopy : dict_at (st o0) c dc).
    { rewrite E0. unfold dict_at. simpl. subst c.
      rewrite lookup_app_r by lia.
      now replace (length (heap s0) + 3 - length (heap s0))%nat with 3%nat by lia. }
    assert (Horig : dict_at (st o0) config' dc).
    { rewrite E0. unfold dict_at. simpl. now apply lookup_app_l_Some. }
    split; [|split; [subst c; lia | split; [|split; [exact Hcopy | split; [exact Horig|]]]]].
    + rewrite (bind_variables _ _ (length (heap s0))) by now rewrite E0.
      erewrite run_getitem.
      2: { rewrite E0. unfold dict_at. simpl.
           rewrite lookup_app_r by lia. now rewrite Nat.sub_diag. }
      now rewrite lookup_insert_eq.
    + apply lookup_ge_None. subst c. lia.
    + intros key value. rewrite (run_setitem _ _ _ _ _ Hcopy).
      apply dict_at_insert_ne; [subst c; lia | exact Horig].
Qed.

Lemma copies_are_one_level_deep_witness :
  let s := Site.ready (Site.options true false) ∅ [] [] in
  heap (st (Plugin.process_meta_variables s)) !! 0%nat = heap s !! 0%nat /\
  dict_at (st (Plugin.on_config_seed 0 (Site.created default_config))) 0
    (<["config_file_path" := PStr "/site/mkdocs.yml"]>
       (<["docs_dir" := PStr "docs"]> (<["extra" := PRef 1]> ∅))).
Proof.
  intros s.
  assert (Hp : page_in_store s 0 (<["page" := PRef 1]> (<["extra" := PRef 7]> ∅))
                 2 ∅).
  { split; [reflexivity|]. split; [reflexivity|].
    exists 1, Site.the_page. repeat split. }
  destruct (copies_are_one_level_deep s 0 2 _ ∅
              (Site.created default_config) 0 1
              (<["config_file_path" := PStr "/site/mkdocs.yml"]>
                 (<["docs_dir" := PStr "docs"]> (<["extra" := PRef 1]> ∅)))
              (<["site_name" := PStr "Docs"]> ∅) Hp)
    as [(Hframe & _) (_ & _ & _ & _ & Horig & _)];
    try (vm_compute; reflexivity).
  split; [apply Hframe; simpl; lia | exact Horig].
Defined.

(** The claim C3 as the spec words it fails: a change made inside a nested
    mapping of the copy that [render] works on is a change of the store,
    and a change made inside a nested mapping of the entry [config] is a
    change of the configuration of the site. *)
Lemma nested_mutation_reaches_the_original :
  let s := Site.ready (Site.options true false) ∅ [] [] in
  let read_store :=
    v <- Plugin.variables ;; e <- getitem v "extra" ;; getitem e "x" in
  let mutate_copy :=
    pv <- Plugin.process_meta_variables ;;
    match pv with
    | Some page_variables =>
        nested <- getitem page_variables "extra" ;;
        setitem nested "x" (PInt 2)
    | None => ret tt
    end in
  let s0 := Site.created default_config in
  let read_site := e <- getitem (PRef 0) "extra" ;; getitem e "site_name" in
  let mutate_config :=
    Plugin.on_config_seed 0 ;;;
    v <- Plugin.variables ;; c <- getitem v "config" ;;
    nested <- getitem c "extra" ;;
    setitem nested "site_name" (PStr "Changed") in
  res (read_store s) = inr (PInt 1) /\
  res ((mutate_copy ;;; read_store) s) = inr (PInt 2) /\
  res (read_site s0) = inr (PStr "Docs") /\
  res ((mutate_config ;;; read_site) s0) = inr (PStr "Changed").
Proof. vm_compute. repeat split. Qed.

(** ** Rendering a page *)

(** What [render] returns once the template is evaluated, with result
    [r]: the expanded text, or what the handler of the exception makes of
    the error. *)
Definition template_result (c : PluginConfig) (r : exn + string)
    (text : string) (pg : Page) : exn + string :=
  match r with
  | inr out => inr out
  | inl error =>
      if issubclass (exn_type error) Exception then
        if on_error_fail c then inl (Exn SystemExit (PInt ERROR_MACRO))
        else inr (Errors.format_error error text pg)
      else inl error
  end.

Lemma run_process_meta_variables_state s lv dv lm dmeta :
  page_in_store s lv dv lm dmeta ->
  let early := returns_early (render_by_default (config s)) dmeta in
  Plugin.process_meta_variables s =
  Outcome (inr (if early then None else Some (PRef (length (heap s)))))
    (set_heap (heap s ++ [ODict (if early then dv else dmeta ∪ dv)]) s) [].
Proof.
  intros Hp early. rewrite (run_process_meta_variables s lv dv lm dmeta Hp).
  fold early. destruct early; [reflexivity|].
  f_equal. apply state_ext; norm; try reflexivity.
  rewrite (insert_app_r_alt (heap s)) by lia. now rewrite Nat.sub_diag.
Qed.

Lemma run_deref_page s p pg :
  heap s !! p = Some (OPage pg) ->
  Plugin.deref_page p s = Outcome (inr pg) s [].
Proof.
  intros E. unfold Plugin.deref_page.
  now rewrite (bind_inr _ _ _ _ _ _ (run_deref _ _ _ E)).
Qed.

Lemma run_page s p : _page s = Some p -> Plugin.page s = Outcome (inr p) s [].
Proof. intros E. unfold Plugin.page. now rewrite bind_get, E. Qed.

(** The second half of [render], whatever the template engine does to the
    instance; the page is read after the engine has run. *)
Lemma run_expand_template (H : Host) s text pv kw e r s' p pg :
  env s = Some e -> dict_at s pv kw ->
  template_render H e text kw s = (r, s') ->
  _page s' = Some p -> heap s' !! p = Some (OPage pg) ->
  Plugin.expand_template H text (PRef pv) s =
  Outcome (template_result (config s) r text pg) s' [Evaluated text].
Proof.
  intros He Hkw Hr Hp Hpg. unfold Plugin.expand_template. rewrite bind_get.
  assert (Ebody :
    (e0 <- Plugin.get_env ;; kw0 <- as_dict (PRef pv) ;;
     tell (Evaluated text) ;;; lift (template_render H e0 text kw0.2)) s
    = Outcome r s' [Evaluated text]).
  { rewrite (bind_get_env _ _ e He).
    rewrite (bind_inr _ _ _ _ _ _ (run_as_dict _ _ _ Hkw)), prepend_nil.
    rewrite bind_tell. unfold lift, prepend. simpl. now rewrite Hr. }
  destruct r as [error|out]; simpl.
  - destruct (issubclass (exn_type error) Exception) eqn:Hc.
    + rewrite (try_except_caught _ _ _ _ _ _ _ Ebody)
        by (simpl; now rewrite Hc).
      rewrite (bind_inr _ _ _ _ _ _ (run_page _ _ Hp)), prepend_nil.
      rewrite (bind_inr _ _ _ _ _ _ (run_deref_page _ _ _ Hpg)), prepend_nil.
      now destruct (on_error_fail (config s)).
    + now rewrite (try_except_passed _ _ _ _ _ _ _ Ebody)
        by (simpl; now rewrite Hc).
  - now rewrite (try_except_inr _ _ _ _ _ _ _ Ebody).
Qed.

(** A host whose hook functions only rewrite the text of the page, and
    whose template engine leaves the instance as it is. *)
Record tame (H : Host) (on_text : callable -> string -> string)
    (eval : Environment -> string -> gmap string pyval -> exn + string)
    : Prop := {
  tame_invoke : forall f s t, _markdown s = Some t ->
    invoke H f s = (inr tt, set_markdown (Some (on_text f t)) s);
  tame_render : forall e text kw s,
    template_render H e text kw s = (eval e text kw, s)
}.

(** The text after the hook functions [fs] have rewritten it in turn. *)
Definition after_hooks (on_text : callable -> string -> string)
    (fs : list callable) (t : string) : string :=
  fold_left (fun t f => on_text f t) fs t.

Lemma set_markdown_same s t : _markdown s = Some t -> set_markdown (Some t) s = s.
Proof. intros E. apply state_ext; norm; congruence. Qed.

Lemma run_hooks (H : Host) on_text eval fs s t :
  tame H on_text eval -> _markdown s = Some t ->
  for_each fs (Plugin.call H) s =
  Outcome (inr tt) (set_markdown (Some (after_hooks on_text fs t)) s)
    (map Called fs).
Proof.
  intros T. revert s t. induction fs as [|f fs IH]; intros s t Ht.
  - simpl. now rewrite (set_markdown_same _ _ Ht).
  - cbn [for_each]. unfold Plugin.call at 1.
    rewrite bind_assoc, bind_tell.
    rewrite (bind_lift _ _ _ tt) by now rewrite (tame_invoke _ _ _ T f s t Ht).
    rewrite (tame_invoke _ _ _ T f s t Ht). cbn [snd].
    rewrite (IH _ (on_text f t)) by reflexivity.
    unfold prepend. simpl. f_equal; try (apply state_ext; norm; reflexivity).
Qed.

(** What [render] returns for the text [text] on a page with metadata
    [dmeta], the variables being [dv]. *)
Definition render_result (c : PluginConfig)
    (eval : Environment -> string -> gmap string pyval -> exn + string)
    (e : Environment) (pg : Page) (dv dmeta : gmap string pyval)
    (text : string) : exn + string :=
  if returns_early (render_by_default c) dmeta then inr text
  else template_result c (eval e text (dmeta ∪ dv)) text pg.

Lemma run_render (H : Host) on_text eval s lv dv lm dmeta e p pg text :
  tame H on_text eval ->
  page_in_store s lv dv lm dmeta ->
  env s = Some e -> _page s = Some p -> heap s !! p = Some (OPage pg) ->
  let early := returns_early (render_by_default (config s)) dmeta in
  Plugin.render H text s =
  Outcome (render_result (config s) eval e pg dv dmeta text)
    (set_heap (heap s ++ [ODict (if early then dv else dmeta ∪ dv)]) s)
    (if early then [] else [Evaluated text]).
Proof.
  intros T Hs He Hp Hpg early.
  pose proof (run_process_meta_variables_state s lv dv lm dmeta Hs) as E.
  cbv zeta in E. fold early in E.
  unfold Plugin.render, render_result. fold early.
  rewrite (bind_inr _ _ _ _ _ _ E), prepend_nil.
  destruct early; [reflexivity|].
  set (s1 := set_heap _ s).
  rewrite (run_expand_template H s1 text (length (heap s)) (dmeta ∪ dv) e
             (eval e text (dmeta ∪ dv)) s1 p pg);
    trivial.
  - apply dict_at_new.
  - apply (tame_render _ _ _ T).
  - subst s1. norm. now apply lookup_app_l_Some.
Qed.

Lemma page_in_store_alloc s lv dv lm dmeta o :
  page_in_store s lv dv lm dmeta ->
  page_in_store (set_heap (heap s ++ [o]) s) lv dv lm dmeta.
Proof.
  intros (Hv & Hdv & lp & pg & Hp & Hpg & Hm & Hdm).
  split; [exact Hv|]. split; [now apply dict_at_alloc|].
  exists lp, pg. repeat split; trivial.
  - norm. now apply lookup_app_l_Some.
  - now apply dict_at_alloc.
Qed.

Lemma page_in_store_set_markdown s lv dv lm dmeta t :
  page_in_store s lv dv lm dmeta ->
  page_in_store (set_markdown t s) lv dv lm dmeta.
Proof. intros Hp. exact Hp. Qed.

Lemma run_markdown s t : _markdown s = Some t -> Plugin.markdown s = Outcome (inr t) s [].
Proof. intros E. unfold Plugin.markdown. now rewrite bind_get, E. Qed.

Lemma run_on_page_markdown (H : Host) on_text eval s markdown' page lv dv pg
    lm dmeta e pre post :
  tame H on_text eval ->
  _variables s = Some lv -> dict_at s lv dv -> dv <> ∅ ->
  heap s !! page = Some (OPage pg) -> meta pg = PRef lm ->
  dict_at s lm dmeta -> lm <> lv ->
  env s = Some e ->
  _pre_macro_functions s = Some pre -> _post_macro_functions s = Some post ->
  let dv1 := <["page" := PRef (length (heap s))]> dv in
  let t1 := after_hooks on_text pre markdown' in
  let r1 := render_result (config s) eval e pg dv1 dmeta t1 in
  let r2 := render_result (config s) eval e pg dv1 dmeta (title pg) in
  let early := returns_early (render_by_default (config s)) dmeta in
  let o := Plugin.on_page_markdown H markdown' page s in
  res o = match r1 with
          | inl x => inl x
          | inr b => match r2 with
                     | inl x => inl x
                     | inr _ => inr (after_hooks on_text post b)
                     end
          end /\
  log o = (map Called pre ++ (if early then [] else [Evaluated t1]) ++
           match r1 with
           | inl _ => []
           | inr _ => (if early then [] else [Evaluated (title pg)]) ++
                      match r2 with
                      | inl _ => []
                      | inr _ => map Called post
                      end
           end)%list.
Proof.
  intros T Hv Hdv Hne Hpg Hmeta Hdm Hlm He Hpre Hpost dv1 t1 r1 r2 early o.
  pose proof (dict_at_lt _ _ _ Hdv) as Llv.
  pose proof (dict_at_lt _ _ _ Hdm) as Llm.
  assert (Lpage : (page < length (heap s))%nat) by now apply lookup_lt_Some in Hpg.
  assert (Hpl : page <> lv).
  { intros ->. unfold dict_at in Hdv. congruence. }
  subst o. unfold Plugin.on_page_markdown.
  rewrite bind_modify. set (sA := set_page (Some page) s).
  rewrite (bind_variables _ _ lv) by exact Hv.
  unfold truthy. rewrite bind_assoc.
  rewrite (bind_inr _ _ _ _ _ _ (run_deref sA _ _ Hdv)), prepend_nil, bind_ret.
  rewrite bool_decide_false by exact Hne. cbn [negb].
  rewrite (bind_inr _ _ _ _ _ _ (run_copy sA _ _ Hpg)), prepend_nil.
  set (sB := set_heap _ sA). set (n := length (heap sA)).
  rewrite (bind_variables _ _ lv) by exact Hv.
  assert (HdvB : dict_at sB lv dv) by (subst sB; now apply (dict_at_alloc sA)).
  rewrite (bind_inr _ _ _ _ _ _ (run_setitem _ _ _ "page" (PRef n) HdvB)), prepend_nil.
  rewrite bind_modify.
  set (sD := set_markdown _ _).
  unfold Plugin.pre_macro_functions. rewrite bind_assoc, bind_get.
  replace (_pre_macro_functions sD) with (Some pre) by (symmetry; exact Hpre).
  rewrite bind_ret.
  rewrite (bind_inr _ _ _ _ _ _ (run_hooks H on_text eval pre sD markdown' T eq_refl)).
  fold t1.
  set (sE := set_markdown (Some t1) sD).
  rewrite (bind_inr _ _ _ _ _ _ (run_markdown sE t1 eq_refl)), prepend_nil.
  assert (HsE : page_in_store sE lv dv1 lm dmeta).
  { split; [exact Hv|]. split.
    - subst sE sD. apply (dict_at_insert_eq sB lv dv dv1 HdvB).
    - exists n, pg. split; [apply lookup_insert_eq|]. split; [|split; [exact Hmeta|]].
      + subst sE sD sB n sA. norm. rewrite list_lookup_insert_ne by lia.
        now rewrite lookup_app_r, Nat.sub_diag.
      + subst sE sD. apply dict_at_insert_ne; [congruence|].
        subst sB. now apply (dict_at_alloc sA). }
  assert (HpE : heap sE !! page = Some (OPage pg)).
  { subst sE sD sB sA. norm. rewrite list_lookup_insert_ne by congruence.
    now apply lookup_app_l_Some. }
  pose proof (run_render H on_text eval sE lv dv1 lm dmeta e page pg t1 T HsE He
                eq_refl HpE) as Er1.
  cbv zeta in Er1.
  replace (config sE) with (config s) in Er1 by reflexivity.
  fold r1 early in Er1.
  destruct r1 as [x|b] eqn:Hr1.
  { rewrite (bind_inl _ _ _ _ _ _ Er1). unfold prepend. simpl.
    split; [reflexivity|]. now rewrite app_nil_r. }
  rewrite (bind_inr _ _ _ _ _ _ Er1).
  set (sF := set_heap _ sE).
  unfold Plugin.markdown_setter. rewrite bind_assoc.
  rewrite (bind_inr _ _ _ _ _ _ (run_markdown sF t1 eq_refl)), prepend_nil.
  rewrite bind_modify.
  set (sG := set_markdown (Some b) sF).
  assert (HpG : heap sG !! page = Some (OPage pg)).
  { subst sG sF. norm. now apply lookup_app_l_Some. }
  rewrite (bind_inr _ _ _ _ _ _ (run_deref_page sG _ _ HpG)), prepend_nil.
  assert (HsG : page_in_store sG lv dv1 lm dmeta).
  { subst sG sF. apply page_in_store_set_markdown.
    now apply page_in_store_alloc. }
  pose proof (run_render H on_text eval sG lv dv1 lm dmeta e page pg (title pg)
                T HsG He eq_refl HpG) as Er2.
  cbv zeta in Er2.
  replace (config sG) with (config s) in Er2 by reflexivity.
  fold r2 early in Er2.
  destruct r2 as [x|t2] eqn:Hr2.
  { rewrite (bind_inl _ _ _ _ _ _ Er2). unfold prepend. simpl.
    split; [reflexivity|]. now rewrite !app_nil_r. }
  rewrite (bind_inr _ _ _ _ _ _ Er2).
  set (sH := set_heap _ sG).
  assert (HpH : heap sH !! page = Some (OPage pg)).
  { subst sH. norm. now apply lookup_app_l_Some. }
  unfold Plugin.set_title. rewrite bind_assoc.
  rewrite (bind_inr _ _ _ _ _ _ (run_deref_page sH _ _ HpH)), prepend_nil.
  unfold store. rewrite bind_modify.
  set (sI := set_heap _ sH).
  unfold Plugin.post_macro_functions. rewrite bind_assoc, bind_get.
  replace (_post_macro_functions sI) with (Some post) by (symmetry; exact Hpost).
  rewrite bind_ret.
  rewrite (bind_inr _ _ _ _ _ _ (run_hooks H on_text eval post sI b T eq_refl)).
  rewrite (run_markdown (set_markdown (Some (after_hooks on_text post b)) sI)
             _ eq_refl).
  unfold prepend. simpl. split; [reflexivity|].
  now rewrite !app_nil_r.
Qed.

Lemma host_with_tame on_text : tame (Site.host_with on_text) on_text Site.eval.
Proof.
  split.
  - intros f s t Ht. unfold Site.host_with. simpl. now rewrite Ht.
  - reflexivity.
Qed.

(** ** C2: a page that is not rendered *)

(** The claim C2 as the spec words it fails: on a page that asks not to be
    rendered, [on_page_markdown] still calls the functions registered for
    before and after the rendering; and when those functions rewrite the
    text, the text returned is not the text of the page. *)
Lemma skipped_page_runs_hooks :
  let dmeta : gmap string pyval := <["ignore_macros" := PBool true]> ∅ in
  let s := Site.ready (Site.options true false) dmeta [Site.f_pre] [Site.f_post] in
  let o := Plugin.on_page_markdown Site.host "# {{ title }}" 1 s in
  let o' := Plugin.on_page_markdown Site.marking_host "# {{ title }}" 1 s in
  returns_early (render_by_default (config s)) dmeta = true /\
  log o = [Called Site.f_pre; Called Site.f_post] /\
  ~ (forall f, ~ In (Called f) (log o)) /\
  res o' = inr "# {{ title }}!!" /\
  res o' <> inr "# {{ title }}".
Proof.
  vm_compute. repeat split; try discriminate.
  intros Hn. apply (Hn Site.f_pre). now left.
Qed.

(** C2, as the code has it.  On a page whose flags make [render] return
    early, [render] returns the text it is given and the template engine is
    not called.  [on_page_markdown], when the variables are not empty,
    calls the functions registered for before the rendering, then those
    registered for after it, each list in the order of registration; with
    hook functions that only rewrite the text, the text returned is the
    text of the page as those functions rewrote it. *)
Theorem skipped_page_runs_hooks_only (H : Host)
    (on_text : callable -> string -> string)
    (eval : Environment -> string -> gmap string pyval -> exn + string)
    (s : MacrosPlugin) (markdown' : string) (page lv lm : loc) (pg : Page)
    (dv dmeta : gmap string pyval) (e : Environment)
    (pre post : list callable) :
  tame H on_text eval ->
  _variables s = Some lv -> dict_at s lv dv -> dv <> ∅ ->
  heap s !! page = Some (OPage pg) -> meta pg = PRef lm ->
  dict_at s lm dmeta -> lm <> lv ->
  env s = Some e ->
  _pre_macro_functions s = Some pre -> _post_macro_functions s = Some post ->
  returns_early (render_by_default (config s)) dmeta = true ->
  let o := Plugin.on_page_markdown H markdown' page s in
  res o = inr (after_hooks on_text post (after_hooks on_text pre markdown')) /\
  log o = (map Called pre ++ map Called post)%list /\
  (forall s' lv' dv' text,
     page_in_store s' lv' dv' lm dmeta -> config s' = config s ->
     Plugin.render H text s' =
     Outcome (inr text) (set_heap (heap s' ++ [ODict dv']) s') []).
Proof.
  intros T Hv Hdv Hne Hpg Hmeta Hdm Hlm He Hpre Hpost Hearly o.
  destruct (run_on_page_markdown H on_text eval s markdown' page lv dv pg lm
              dmeta e pre post T Hv Hdv Hne Hpg Hmeta Hdm Hlm He Hpre Hpost)
    as [Hres Hlog].
  fold o in Hres, Hlog. unfold render_result in Hres, Hlog.
  rewrite Hearly in Hres, Hlog.
  split; [exact Hres|]. split; [exact Hlog|].
  intros s' lv' dv' text Hs' Hc.
  pose proof (run_process_meta_variables_state s' lv' dv' lm dmeta Hs') as E.
  cbv zeta in E. rewrite Hc, Hearly in E.
  unfold Plugin.render. now rewrite (bind_inr _ _ _ _ _ _ E).
Qed.

Lemma skipped_page_runs_hooks_only_witness :
  let dmeta : gmap string pyval := <["render_macros" := PBool false]> ∅ in
  let s := Site.ready (Site.options true false) dmeta [Site.f_pre] [Site.f_post] in
  let o := Plugin.on_page_markdown Site.marking_host "# {{ title }}" 1 s in
  res o = inr "# {{ title }}!!" /\ log o = [Called Site.f_pre; Called Site.f_post].
Proof.
  intros dmeta s o.
  destruct (skipped_page_runs_hooks_only Site.marking_host _ _ s "# {{ title }}"
              1 0 2 Site.the_page
              (<["page" := PRef 1]> (<["extra" := PRef 7]> ∅)) dmeta
              Site.the_env [Site.f_pre] [Site.f_post]
              (host_with_tame (fun _ t => t ++ "!")))
    as (Hres & Hlog & _); try reflexivity.
  - intros Hempty. apply (f_equal (fun m : gmap string pyval => m !! "page")) in Hempty.
    vm_compute in Hempty. discriminate.
  - discriminate.
  - split; [exact Hres | exact Hlog].
Defined.

(** ** C4: a template that fails *)

(** [sub] occurs in [s]. *)
Definition occurs_in (sub s : string) : Prop :=
  exists before after, s = before ++ sub ++ after.

Lemma string_cons_app x (a b : string) : String x a ++ b = String x (a ++ b).
Proof. reflexivity. Qed.

Lemma string_length_app (a b : string) :
  String.length (a ++ b) = (String.length a + String.length b)%nat.
Proof.
  induction a as [|x a IH]; [reflexivity|].
  rewrite string_cons_app. simpl. now rewrite IH.
Qed.

Lemma string_app_assoc (a b c : string) : (a ++ b) ++ c = a ++ b ++ c.
Proof.
  induction a as [|x a IH]; [reflexivity|].
  rewrite !string_cons_app. now rewrite IH.
Qed.

Lemma string_app_empty (a : string) : a ++ "" = a.
Proof.
  induction a as [|x a IH]; [reflexivity|].
  rewrite string_cons_app. now rewrite IH.
Qed.

Lemma class_name_not_empty c : (0 < String.length (Errors.class_name c))%nat.
Proof. destruct c; simpl; lia. Qed.

Lemma format_error_differs error text pg : Errors.format_error error text pg <> text.
Proof.
  intros E. apply (f_equal String.length) in E.
  unfold Errors.format_error in E. rewrite !string_length_app in E.
  pose proof (class_name_not_empty (exn_type error)). lia.
Qed.

Lemma format_error_names error text pg :
  occurs_in (Errors.class_name (exn_type error))
    (Errors.format_error error text pg) /\
  occurs_in text (Errors.format_error error text pg) /\
  occurs_in (src_path pg) (Errors.format_error error text pg).
Proof.
  unfold occurs_in, Errors.format_error. repeat split.
  - exists "", (": " ++ Errors.message error ++ Errors.newline ++ text
                ++ Errors.newline ++ src_path pg).
    rewrite !string_app_assoc. reflexivity.
  - exists ((Errors.class_name (exn_type error) ++ ": " ++ Errors.message error)
            ++ Errors.newline), (Errors.newline ++ src_path pg).
    now rewrite !string_app_assoc.
  - exists ((Errors.class_name (exn_type error) ++ ": " ++ Errors.message error)
            ++ Errors.newline ++ text ++ Errors.newline), "".
    rewrite !string_app_assoc.
    now rewrite string_app_empty.
Qed.

(** C4.  First part, for any template engine: when the evaluation of the
    text raises an exception (one that derives from [Exception]), [render]
    ends the build with exit status [ERROR_MACRO], which is not zero, if
    [on_error_fail] is set; otherwise it returns a diagnostic, which is not
    the text and names the class of the error and the page.
    Second part, for hook functions that only rewrite the text: whether
    the evaluation of the body succeeds or raises, [on_page_markdown]
    without [on_error_fail] goes on to the title and then calls the
    functions registered for after the rendering, in order, on the
    expanded text or on the diagnostic; with [on_error_fail] a failing
    body ends the build. *)
Theorem render_error_policy (H : Host)
    (s s' : MacrosPlugin) (text : string) (pv : loc) (kw : gmap string pyval)
    (e : Environment) (error : exn) (p : loc) (pg : Page)
    (on_text : callable -> string -> string)
    (eval : Environment -> string -> gmap string pyval -> exn + string)
    (s0 : MacrosPlugin) (markdown' : string) (page lv lm : loc) (pg0 : Page)
    (dv dmeta : gmap string pyval) (e0 : Environment)
    (pre post : list callable) (body : exn + string) (title' : string) :
  env s = Some e -> dict_at s pv kw ->
  template_render H e text kw s = (inl error, s') ->
  issubclass (exn_type error) Exception = true ->
  _page s' = Some p -> heap s' !! p = Some (OPage pg) ->
  tame H on_text eval ->
  _variables s0 = Some lv -> dict_at s0 lv dv -> dv <> ∅ ->
  heap s0 !! page = Some (OPage pg0) -> meta pg0 = PRef lm ->
  dict_at s0 lm dmeta -> lm <> lv ->
  env s0 = Some e0 ->
  _pre_macro_functions s0 = Some pre -> _post_macro_functions s0 = Some post ->
  returns_early (render_by_default (config s0)) dmeta = false ->
  let kw0 := dmeta ∪ <["page" := PRef (length (heap s0))]> dv in
  let t1 := after_hooks on_text pre markdown' in
  eval e0 t1 kw0 = body ->
  (forall x, body = inl x -> issubclass (exn_type x) Exception = true) ->
  eval e0 (title pg0) kw0 = inr title' ->
  let o := Plugin.expand_template H text (PRef pv) s in
  let diagnostic := Errors.format_error error text pg in
  let o0 := Plugin.on_page_markdown H markdown' page s0 in
  (st o = s' /\ log o = [Evaluated text] /\
   (on_error_fail (config s) = true ->
      res o = inl (Exn SystemExit (PInt ERROR_MACRO)) /\ ERROR_MACRO <> 0%Z) /\
   (on_error_fail (config s) = false -> res o = inr diagnostic) /\
   diagnostic <> text /\
   occurs_in (Errors.class_name (exn_type error)) diagnostic /\
   occurs_in (src_path pg) diagnostic) /\
  (on_error_fail (config s0) = false ->
     res o0 = inr (after_hooks on_text post
                     match body with
                     | inr out => out
                     | inl x => Errors.format_error x t1 pg0
                     end) /\
     log o0 = (map Called pre ++ [Evaluated t1; Evaluated (title pg0)]
               ++ map Called post)%list) /\
  (on_error_fail (config s0) = true -> forall x, body = inl x ->
     res o0 = inl (Exn SystemExit (PInt ERROR_MACRO)) /\
     log o0 = (map Called pre ++ [Evaluated t1])%list).
Proof.
  intros He Hkw Hr Hexc Hp Hpg T Hv Hdv Hne Hpg0 Hmeta Hdm Hlm He0 Hpre Hpost
    Hrender kw0 t1 Hbody Hbexc Htitle o diagnostic o0.
  split; [|split].
  - pose proof (run_expand_template H s text pv kw e (inl error) s' p pg
                  He Hkw Hr Hp Hpg) as E.
    fold o in E. rewrite E. unfold template_result. rewrite Hexc. simpl.
    split; [reflexivity|]. split; [reflexivity|].
    split; [intros ->; split; [reflexivity | discriminate]|].
    split; [now intros ->|].
    split; [apply format_error_differs|].
    split; apply format_error_names.
  - intros Hfail.
    destruct (run_on_page_markdown H on_text eval s0 markdown' page lv dv pg0
                lm dmeta e0 pre post T Hv Hdv Hne Hpg0 Hmeta Hdm Hlm He0
                Hpre Hpost) as [Hres Hlog].
    fold o0 t1 in Hres, Hlog. unfold render_result in Hres, Hlog.
    rewrite Hrender in Hres, Hlog. fold kw0 in Hres, Hlog.
    rewrite Hbody, Htitle in Hres, Hlog. unfold template_result in Hres, Hlog.
    rewrite Hfail in Hres, Hlog.
    destruct body as [x|out].
    + rewrite (Hbexc x eq_refl) in Hres, Hlog. now split.
    + now split.
  - intros Hfail x ->.
    destruct (run_on_page_markdown H on_text eval s0 markdown' page lv dv pg0
                lm dmeta e0 pre post T Hv Hdv Hne Hpg0 Hmeta Hdm Hlm He0
                Hpre Hpost) as [Hres Hlog].
    fold o0 t1 in Hres, Hlog. unfold render_result in Hres, Hlog.
    rewrite Hrender in Hres, Hlog. fold kw0 in Hres, Hlog.
    rewrite Hbody in Hres, Hlog. unfold template_result in Hres, Hlog.
    rewrite Hfail, (Hbexc x eq_refl) in Hres, Hlog. now split.
Qed.

Lemma render_error_policy_witness :
  let boom := Exn TemplateError (PStr "'boom' is undefined") in
  let s0 fail := Site.ready (Site.options true fail) ∅ [Site.f_pre] [Site.f_post] in
  (res (Plugin.on_page_markdown Site.host "{{ boom() }}" 1 (s0 false))
     = inr (Errors.format_error boom "{{ boom() }}" Site.the_page) /\
   log (Plugin.on_page_markdown Site.host "{{ boom() }}" 1 (s0 false))
     = [Called Site.f_pre; Evaluated "{{ boom() }}"; Evaluated "Home";
        Called Site.f_post]) /\
  (res (Plugin.on_page_markdown Site.host "{{ boom() }}" 1 (s0 true))
     = inl (Exn SystemExit (PInt 100)) /\
   res (Plugin.expand_template Site.host "{{ boom() }}" (PRef 0) (s0 true))
     = inl (Exn SystemExit (PInt 100))).
Proof.
  intros boom s0.
  set (dv := <["page" := PRef 1]> (<["extra" := PRef 7]> ∅) : gmap string pyval).
  assert (Hne : dv <> ∅).
  { intros Hempty.
    apply (f_equal (fun m : gmap string pyval => m !! "page")) in Hempty.
    vm_compute in Hempty. discriminate. }
  assert (Hexc : forall x, @inl exn string boom = inl x ->
                   issubclass (exn_type x) Exception = true)
    by (intros x [= <-]; reflexivity).
  pose proof (render_error_policy Site.host
    (s0 false) (s0 false) "{{ boom() }}" 0 dv Site.the_env boom 1 Site.the_page
    (fun _ t => t) Site.eval
    (s0 false) "{{ boom() }}" 1 0 2 Site.the_page dv ∅ Site.the_env
    [Site.f_pre] [Site.f_post] (inl boom) "[Home]"
    eq_refl eq_refl eq_refl eq_refl eq_refl eq_refl
    (host_with_tame (fun _ t => t))
    eq_refl eq_refl Hne eq_refl eq_refl eq_refl ltac:(discriminate)
    eq_refl eq_refl eq_refl eq_refl eq_refl Hexc eq_refl)
    as (_ & Hgo & _).
  pose proof (render_error_policy Site.host
    (s0 true) (s0 true) "{{ boom() }}" 0 dv Site.the_env boom 1 Site.the_page
    (fun _ t => t) Site.eval
    (s0 true) "{{ boom() }}" 1 0 2 Site.the_page dv ∅ Site.the_env
    [Site.f_pre] [Site.f_post] (inl boom) "[Home]"
    eq_refl eq_refl eq_refl eq_refl eq_refl eq_refl
    (host_with_tame (fun _ t => t))
    eq_refl eq_refl Hne eq_refl eq_refl eq_refl ltac:(discriminate)
    eq_refl eq_refl eq_refl eq_refl eq_refl Hexc eq_refl)
    as ((_ & _ & Hexit & _) & _ & Hstop).
  split.
  - exact (Hgo eq_refl).
  - split; [exact (proj1 (Hstop eq_refl boom eq_refl)) | exact (proj1 (Hexit eq_refl))].
Defined.

(** ** C5: the deep merge *)

Lemma lookup_bind_key_eq key value d :
  Util.lookup_key key (Util.bind_key key value d) = Some value.
Proof.
  induction d as [|[k v] rest IH]; simpl.
  - now rewrite String.eqb_refl.
  - destruct (String.eqb k key) eqn:E; simpl; rewrite E; [reflexivity | exact IH].
Qed.

Lemma lookup_bind_key_ne key key' value d :
  key <> key' ->
  Util.lookup_key key' (Util.bind_key key value d) = Util.lookup_key key' d.
Proof.
  intros Hne. induction d as [|[k v] rest IH]; simpl.
  - destruct (String.eqb key key') eqn:E; [|reflexivity].
    apply String.eqb_eq in E. contradiction.
  - destruct (String.eqb k key) eqn:E; simpl.
    + apply String.eqb_eq in E. subst k.
      destruct (String.eqb key key') eqn:E'; [|reflexivity].
      apply String.eqb_eq in E'. contradiction.
    + destruct (String.eqb k key'); [reflexivity | exact IH].
Qed.

Lemma lookup_key_None key (d : list (string * yaml)) :
  key ∉ map fst d -> Util.lookup_key key d = None.
Proof.
  induction d as [|[k v] rest IH]; simpl; [reflexivity|].
  intros Hn. apply not_elem_of_cons in Hn as [Hne Hn].
  destruct (String.eqb k key) eqn:E.
  - apply String.eqb_eq in E. congruence.
  - now apply IH.
Qed.

Lemma merge_nil d1 : Util.merge d1 [] = d1.
Proof. reflexivity. Qed.

Lemma merge_cons d1 key value rest :
  Util.merge d1 ((key, value) :: rest) =
  Util.merge
    (Util.bind_key key
       match Util.lookup_key key d1, value with
       | Some (YMap n1), YMap n2 => YMap (Util.merge n1 n2)
       | _, _ => value
       end d1) rest.
Proof.
  unfold Util.merge. cbn [Util.merge_into].
  destruct (Util.lookup_key key d1) as [[| | | | |n1]|]; try reflexivity.
  now destruct value.
Qed.

(** The example of the spec, as data. *)
Definition merge_left : list (string * yaml) :=
  [("a", YMap [("x", YInt 1); ("y", YInt 2)])].
Definition merge_right : list (string * yaml) :=
  [("a", YMap [("y", YInt 3); ("z", YInt 4)])].
Definition merge_result : list (string * yaml) :=
  [("a", YMap [("x", YInt 1); ("y", YInt 3); ("z", YInt 4)])].

(** An instance whose variables are [merge_left], and a host for which
    the one file of [include_yaml] holds [merge_right]: locations 0 and 1
    hold the variables and the mapping nested under [a]. *)
Definition merge_plugin : MacrosPlugin :=
  set_conf (Some 2) (set_variables (Some 0)
    (new_plugin
       {| module_name := "main"; modules := []; render_by_default := true;
          include_dir := ""; include_yaml := [IncFile "data.yml"];
          j2_block_start_string := ""; j2_block_end_string := "";
          j2_variable_start_string := ""; j2_variable_end_string := "";
          on_undefined := "keep"; on_error_fail := false; verbose := false; other_options := [] |}
       [ ODict (<["a" := PRef 1]> ∅);
         ODict (<["x" := PInt 1]> (<["y" := PInt 2]> ∅));
         ODict (<["config_file_path" := PStr "/site/mkdocs.yml"]> ∅) ]
       ∅)).

Definition merge_host : Host :=
  {| invoke := fun _ s => (inr tt, s);
     template_render := fun _ text _ s => (inr text, s);
     context_define_env := fun s => (inr tt, s);
     jinja2_Environment := fun _ => None;
     DEFAULT_NAMESPACE := ∅;
     DEFAULT_FILTERS := ∅;
     isfile := fun _ => true;
     isdir := fun _ => true;
     path_join := fun a b => a ++ "/" ++ b;
     dirname_abspath := fun _ => "/site";
     yaml_load := fun _ => inr (YMap merge_right);
     parse_package := fun m => (m, m);
     install_package := fun _ s => (inl (Exn NameError PNone), s);
     import_local_module := fun _ _ => None |}.

(** ** The merge in place and the merge of values

    [Util.update] works on the objects of the heap, [Util.merge] on data.
    The two agree on stores without sharing: when the dictionary at [l]
    represents [m1], after [Util.update (PRef l) (YMap m2)] it represents
    [Util.merge m1 m2], and the objects outside of it are as before. *)

Section Representation.

Close Scope string_scope.
#[local] Set Warnings "-clear-no-such-hyp".

(** Induction on YAML data, with the hypothesis for the nested data. *)
Lemma yaml_rect' (P : yaml -> Prop) :
  P YNull -> (forall b, P (YBool b)) -> (forall n, P (YInt n)) ->
  (forall x, P (YStr x)) ->
  (forall l, Forall P l -> P (YSeq l)) ->
  (forall m, Forall (fun kt => P kt.2) m -> P (YMap m)) ->
  forall t, P t.
Proof.
  intros Hnull Hbool Hint Hstr Hseq Hmap.
  fix IH 1. intros [| b | n | x | l | m].
  - exact Hnull.
  - apply Hbool.
  - apply Hint.
  - apply Hstr.
  - apply Hseq. induction l as [|t l IHl]; constructor; [apply IH | exact IHl].
  - apply Hmap. induction m as [|[k t] m IHm]; constructor; [apply IH | exact IHm].
Qed.

(** Data is well formed when no mapping in it binds a key twice: what a
    YAML file holds once loaded as a dictionary. *)
Fixpoint wf (t : yaml) : Prop :=
  match t with
  | YSeq l => (fix all (l : list yaml) : Prop :=
                 match l with [] => True | x :: r => wf x /\ all r end) l
  | YMap m => NoDup m.*1 /\
              (fix all (m : list (string * yaml)) : Prop :=
                 match m with [] => True | (_, x) :: r => wf x /\ all r end) m
  | _ => True
  end.

Lemma wf_seq l : wf (YSeq l) <-> Forall wf l.
Proof.
  simpl. induction l as [|t l IH]; [split; [constructor | trivial]|].
  rewrite Forall_cons. now rewrite IH.
Qed.

Lemma wf_map m : wf (YMap m) <-> NoDup m.*1 /\ Forall (fun kt => wf kt.2) m.
Proof.
  simpl. apply and_iff_compat_l.
  induction m as [|[k t] m IH]; [split; [constructor | trivial]|].
  rewrite Forall_cons. now rewrite IH.
Qed.

(** [repr h t v F]: in the heap [h] the value [v] represents the data [t],
    and [F] lists the locations of the objects that make it up, in the
    order of the data.  A mapping is a dictionary with exactly its keys; a
    sequence is a list.  When [F] has no duplicates no object is shared,
    so that an update in place of one part leaves the others as they
    are. *)
Fixpoint repr (h : list pyobj) (t : yaml) (v : pyval) (F : list loc)
    {struct t} : Prop :=
  match t with
  | YNull => v = PNone /\ F = []
  | YBool b => v = PBool b /\ F = []
  | YInt n => v = PInt n /\ F = []
  | YStr x => v = PStr x /\ F = []
  | YSeq ts =>
      exists l vs Fs, v = PRef l /\ h !! l = Some (OList vs) /\
        F = l :: concat Fs /\
        (fix all (ts : list yaml) (vs : list pyval) (Fs : list (list loc)) : Prop :=
           match ts, vs, Fs with
           | [], [], [] => True
           | t :: ts, v :: vs, F :: Fs => repr h t v F /\ all ts vs Fs
           | _, _, _ => False
           end) ts vs Fs
  | YMap m =>
      exists l d Fs, v = PRef l /\ h !! l = Some (ODict d) /\
        F = l :: concat Fs /\ NoDup m.*1 /\
        dom d = list_to_set m.*1 /\
        (fix all (m : list (string * yaml)) (Fs : list (list loc)) : Prop :=
           match m, Fs with
           | [], [] => True
           | (k, t) :: m, F :: Fs =>
               (exists v', d !! k = Some v' /\ repr h t v' F) /\ all m Fs
           | _, _ => False
           end) m Fs
  end.

(** An entry of a mapping, represented under its key in [d]. *)
Definition kid (h : list pyobj) (d : gmap string pyval)
    (kt : string * yaml) (F : list loc) : Prop :=
  exists v', d !! kt.1 = Some v' /\ repr h kt.2 v' F.

Lemma repr_seq h ts v F :
  repr h (YSeq ts) v F <->
  exists l vs Fs, v = PRef l /\ h !! l = Some (OList vs) /\
    F = l :: concat Fs /\ Forall3 (repr h) ts vs Fs.
Proof.
  simpl. apply exist_proper; intros l.
  apply exist_proper; intros vs. apply exist_proper; intros Fs.
  do 3 apply and_iff_compat_l.
  revert vs Fs. induction ts as [|t ts IH]; intros [|v' vs] [|F' Fs];
    try (split; [tauto | inversion 1]).
  - split; [constructor | trivial].
  - rewrite IH. split; [intros []; now constructor | inversion 1; now subst].
Qed.

Lemma repr_map h m v F :
  repr h (YMap m) v F <->
  exists l d Fs, v = PRef l /\ h !! l = Some (ODict d) /\
    F = l :: concat Fs /\ NoDup m.*1 /\ dom d = list_to_set m.*1 /\
    Forall2 (kid h d) m Fs.
Proof.
  simpl. apply exist_proper; intros l.
  apply exist_proper; intros d. apply exist_proper; intros Fs.
  do 5 apply and_iff_compat_l.
  revert Fs. induction m as [|[k t] m IH]; intros [|F' Fs];
    try (split; [tauto | inversion 1]).
  - split; [constructor | trivial].
  - rewrite IH. split; [intros []; now constructor | inversion 1; now subst].
Qed.

Lemma repr_frame h h' t : forall v F,
  repr h t v F -> (forall l, l ∈ F -> h' !! l = h !! l) -> repr h' t v F.
Proof.
  induction t as [| b | n | x | ts IH | m IH] using yaml_rect';
    intros v F Hr Hsame; try exact Hr.
  - apply repr_seq in Hr as (l & vs & Fs & -> & Hl & -> & Hall).
    apply repr_seq. exists l, vs, Fs. split; [reflexivity|].
    split; [rewrite Hsame; [exact Hl | left]|]. split; [reflexivity|].
    assert (Hsub : forall x, x ∈ concat Fs -> h' !! x = h !! x)
      by (intros x Hx; apply Hsame; now right).
    clear Hsame Hl. revert IH Hsub.
    induction Hall as [|t v F ts vs Fs Hr Hall IHall]; intros IH Hsub;
      [constructor|].
    apply Forall_cons in IH as [IHt IHts].
    constructor.
    + apply IHt; [exact Hr|]. intros x Hx. apply Hsub. simpl.
      apply elem_of_app. now left.
    + apply IHall; [exact IHts|]. intros x Hx. apply Hsub. simpl.
      apply elem_of_app. now right.
  - apply repr_map in Hr as (l & d & Fs & -> & Hl & -> & Hnd & Hdom & Hall).
    apply repr_map. exists l, d, Fs. split; [reflexivity|].
    split; [rewrite Hsame; [exact Hl | left]|].
    do 3 (split; [trivial|]).
    assert (Hsub : forall x, x ∈ concat Fs -> h' !! x = h !! x)
      by (intros x Hx; apply Hsame; now right).
    clear Hsame Hl Hnd Hdom. revert IH Hsub.
    induction Hall as [|kt F m Fs Hk Hall IHall]; intros IH Hsub;
      [constructor|].
    apply Forall_cons in IH as [IHt IHts].
    constructor.
    + destruct Hk as (v' & Hv' & Hr). exists v'. split; [exact Hv'|].
      apply IHt; [exact Hr|]. intros x Hx. apply Hsub. simpl.
      apply elem_of_app. now left.
    + apply IHall; [exact IHts|]. intros x Hx. apply Hsub. simpl.
      apply elem_of_app. now right.
Qed.

Lemma repr_lt h t : forall v F l, repr h t v F -> l ∈ F -> (l < length h)%nat.
Proof.
  induction t as [| b | n | x | ts IH | m IH] using yaml_rect';
    intros v F l0 Hr Hin;
    try (destruct Hr as [_ ->]; now apply elem_of_nil in Hin).
  - apply repr_seq in Hr as (l & vs & Fs & -> & Hl & -> & Hall).
    apply elem_of_cons in Hin as [->|Hin]; [now apply lookup_lt_Some in Hl|].
    clear Hl. revert IH Hin.
    induction Hall as [|t v F ts vs Fs Hr Hall IHall]; intros IH Hin;
      [now apply elem_of_nil in Hin|].
    apply Forall_cons in IH as [IHt IHts]. simpl in Hin.
    apply elem_of_app in Hin as [Hin|Hin]; [now apply (IHt v F) | now apply IHall].
  - apply repr_map in Hr as (l & d & Fs & -> & Hl & -> & Hnd & Hdom & Hall).
    apply elem_of_cons in Hin as [->|Hin]; [now apply lookup_lt_Some in Hl|].
    clear Hl Hnd Hdom. revert IH Hin.
    induction Hall as [|kt F m Fs Hk Hall IHall]; intros IH Hin;
      [now apply elem_of_nil in Hin|].
    apply Forall_cons in IH as [IHt IHts]. simpl in Hin.
    apply elem_of_app in Hin as [Hin|Hin]; [|now apply IHall].
    destruct Hk as (v' & _ & Hr). now apply (IHt v' F).
Qed.

Lemma set_heap_same s : set_heap (heap s) s = s.
Proof. apply state_ext; reflexivity. Qed.

Lemma set_heap_set_heap h h' s : set_heap h (set_heap h' s) = set_heap h s.
Proof. apply state_ext; reflexivity. Qed.

Lemma kids_frame h h' d m Fs :
  Forall2 (kid h d) m Fs ->
  (forall l, l ∈ concat Fs -> h' !! l = h !! l) ->
  Forall2 (kid h' d) m Fs.
Proof.
  induction 1 as [|kt F m Fs Hk Hall IH]; intros Hsame; [constructor|].
  constructor.
  - destruct Hk as (v' & Hv' & Hr). exists v'. split; [exact Hv'|].
    apply (repr_frame h); [exact Hr|]. intros l Hl. apply Hsame. simpl.
    apply elem_of_app. now left.
  - apply IH. intros l Hl. apply Hsame. simpl. apply elem_of_app. now right.
Qed.

Lemma kids_lt h d m Fs l :
  Forall2 (kid h d) m Fs -> l ∈ concat Fs -> (l < length h)%nat.
Proof.
  induction 1 as [|kt F m Fs Hk Hall IH]; intros Hin;
    [now apply elem_of_nil in Hin|].
  simpl in Hin. apply elem_of_app in Hin as [Hin|Hin]; [|now apply IH].
  destruct Hk as (v' & _ & Hr). now apply (repr_lt h kt.2 v' F).
Qed.

Lemma kids_dict h d d' m Fs :
  Forall2 (kid h d) m Fs ->
  (forall k, k ∈ m.*1 -> d' !! k = d !! k) ->
  Forall2 (kid h d') m Fs.
Proof.
  induction 1 as [|kt F m Fs Hk Hall IH]; intros Hsame; [constructor|].
  constructor.
  - destruct Hk as (v' & Hv' & Hr). exists v'. split; [|exact Hr].
    rewrite Hsame; [exact Hv'|]. simpl. left.
  - apply IH. intros k Hk'. apply Hsame. simpl. now right.
Qed.

Lemma seq_frame h h' ts vs Fs :
  Forall3 (repr h) ts vs Fs ->
  (forall l, l ∈ concat Fs -> h' !! l = h !! l) ->
  Forall3 (repr h') ts vs Fs.
Proof.
  induction 1 as [|t v F ts vs Fs Hr Hall IH]; intros Hsame; [constructor|].
  constructor.
  - apply (repr_frame h); [exact Hr|]. intros l Hl. apply Hsame. simpl.
    apply elem_of_app. now left.
  - apply IH. intros l Hl. apply Hsame. simpl. apply elem_of_app. now right.
Qed.

Lemma seq_lt h ts vs Fs l :
  Forall3 (repr h) ts vs Fs -> l ∈ concat Fs -> (l < length h)%nat.
Proof.
  induction 1 as [|t v F ts vs Fs Hr Hall IH]; intros Hin;
    [now apply elem_of_nil in Hin|].
  simpl in Hin. apply elem_of_app in Hin as [Hin|Hin]; [|now apply IH].
  now apply (repr_lt h t v F).
Qed.

(** The objects built for well-formed data represent it, in new
    locations. *)
Definition built (t : yaml) : Prop :=
  forall s, exists new v F,
    to_python t s = Outcome (inr v) (set_heap (heap s ++ new) s) [] /\
    repr (heap s ++ new) t v F /\ NoDup F /\
    (forall l, l ∈ F -> (length (heap s) <= l)%nat).

Lemma built_scalar t v :
  (forall s, to_python t s = Outcome (inr v) s []) ->
  (forall h, repr h t v []) -> built t.
Proof.
  intros Hrun Hr s. exists [], v, [].
  rewrite app_nil_r, set_heap_same. split; [apply Hrun|].
  split; [apply Hr|]. split; [constructor|]. intros l Hl.
  now apply elem_of_nil in Hl.
Qed.

Lemma to_python_built t : wf t -> built t.
Proof.
  induction t as [| b | n | x | ts IH | m IH] using yaml_rect'; intros Hwf.
  - now apply (built_scalar _ PNone).
  - now apply (built_scalar _ (PBool b)).
  - now apply (built_scalar _ (PInt n)).
  - now apply (built_scalar _ (PStr x)).
  - apply wf_seq in Hwf.
    set (elems := fix elems (l : list yaml) : M (list pyval) :=
           match l with
           | [] => ret []
           | x :: r => v <- to_python x ;; vs <- elems r ;; ret (v :: vs)
           end).
    assert (Hloop : forall s, exists new vs Fs,
      elems ts s = Outcome (inr vs) (set_heap (heap s ++ new) s) [] /\
      Forall3 (repr (heap s ++ new)) ts vs Fs /\ NoDup (concat Fs) /\
      (forall l, l ∈ concat Fs -> (length (heap s) <= l)%nat)).
    { clear -IH Hwf. induction ts as [|t ts IHts]; intros s.
      - exists [], [], []. rewrite app_nil_r, set_heap_same.
        split; [reflexivity|]. split; [constructor|]. split; [constructor|].
        intros l Hl. now apply elem_of_nil in Hl.
      - apply Forall_cons in IH as [IHt IH]. apply Forall_cons in Hwf as [Hwt Hwf].
        destruct (IHt Hwt s) as (new1 & v & F & E1 & R1 & N1 & L1).
        destruct (IHts IH Hwf (set_heap (heap s ++ new1) s))
          as (new2 & vs & Fs & E2 & R2 & N2 & L2).
        simpl in E2, R2, L2. rewrite set_heap_set_heap in E2.
        exists (new1 ++ new2)%list, (v :: vs), (F :: Fs).
        rewrite app_assoc. split; [|split; [|split]].
        + cbn [elems]. rewrite (bind_inr _ _ _ _ _ _ E1), prepend_nil.
          now rewrite (bind_inr _ _ _ _ _ _ E2), prepend_nil.
        + constructor; [|exact R2].
          apply (repr_frame (heap s ++ new1)); [exact R1|].
          intros l Hl. apply lookup_app_l. now apply (repr_lt _ _ _ _ _ R1).
        + simpl. apply NoDup_app. split; [exact N1|]. split; [|exact N2].
          intros l Hl Hl'. apply L2 in Hl'.
          apply (repr_lt _ _ _ _ _ R1) in Hl. lia.
        + intros l Hl. simpl in Hl. apply elem_of_app in Hl as [Hl|Hl].
          * now apply L1.
          * apply L2 in Hl. rewrite length_app in Hl. lia. }
    intros s. destruct (Hloop s) as (new & vs & Fs & E & R & N & L).
    exists (new ++ [OList vs])%list, (PRef (length (heap s ++ new))),
      (length (heap s ++ new) :: concat Fs).
    rewrite app_assoc. split; [|split; [|split]].
    + cbn [to_python]. fold elems.
      rewrite (bind_inr _ _ _ _ _ _ E), prepend_nil, bind_alloc.
      simpl. now rewrite set_heap_set_heap.
    + apply repr_seq. exists (length (heap s ++ new)), vs, Fs.
      split; [reflexivity|].
      split; [now rewrite lookup_app_r, Nat.sub_diag|]. split; [reflexivity|].
      apply (seq_frame (heap s ++ new)); [exact R|].
      intros l Hl. apply lookup_app_l. now apply (seq_lt _ _ _ _ _ R).
    + constructor; [|exact N]. intros Hin. apply (seq_lt _ _ _ _ _ R) in Hin. lia.
    + intros l Hl. apply elem_of_cons in Hl as [->|Hl].
      * rewrite length_app. lia.
      * now apply L.
  - apply wf_map in Hwf as [Hnd Hwf].
    set (entries := fix entries (m : list (string * yaml)) (acc : gmap string pyval)
              : M (gmap string pyval) :=
              match m with
              | [] => ret acc
              | (k, x) :: r => v <- to_python x ;; entries r (<[k := v]> acc)
              end).
    assert (Hloop : forall s acc, exists new d Fs,
      entries m acc s = Outcome (inr d) (set_heap (heap s ++ new) s) [] /\
      dom d = dom acc ∪ list_to_set m.*1 /\
      (forall k, k ∉ m.*1 -> d !! k = acc !! k) /\
      Forall2 (kid (heap s ++ new) d) m Fs /\ NoDup (concat Fs) /\
      (forall l, l ∈ concat Fs -> (length (heap s) <= l)%nat)).
    { clear -IH Hwf Hnd. induction m as [|[k t] m IHm]; intros s acc.
      - exists [], acc, []. rewrite app_nil_r, set_heap_same.
        split; [reflexivity|]. split; [set_solver|]. split; [reflexivity|].
        split; [constructor|]. split; [constructor|].
        intros l Hl. now apply elem_of_nil in Hl.
      - apply Forall_cons in IH as [IHt IH]. apply Forall_cons in Hwf as [Hwt Hwf].
        simpl in Hnd. apply NoDup_cons in Hnd as [Hk Hnd].
        destruct (IHt Hwt s) as (new1 & v & F & E1 & R1 & N1 & L1).
        destruct (IHm IH Hnd Hwf (set_heap (heap s ++ new1) s) (<[k := v]> acc))
          as (new2 & d & Fs & E2 & D2 & K2 & R2 & N2 & L2).
        simpl in E2, R2, L2. rewrite set_heap_set_heap in E2.
        exists (new1 ++ new2)%list, d, (F :: Fs).
        rewrite app_assoc. split; [|split; [|split; [|split; [|split]]]].
        + cbn [entries]. now rewrite (bind_inr _ _ _ _ _ _ E1), prepend_nil.
        + rewrite D2, dom_insert_L. simpl. set_solver.
        + intros k' Hk'. simpl in Hk'. apply not_elem_of_cons in Hk' as [Hne Hk'].
          rewrite (K2 k' Hk'). now rewrite lookup_insert_ne.
        + constructor; [|exact R2].
          exists v. split.
          * simpl. rewrite (K2 k Hk). apply lookup_insert_eq.
          * apply (repr_frame (heap s ++ new1)); [exact R1|].
            intros l Hl. apply lookup_app_l. now apply (repr_lt _ _ _ _ _ R1).
        + simpl. apply NoDup_app. split; [exact N1|]. split; [|exact N2].
          intros l Hl Hl'. apply L2 in Hl'.
          apply (repr_lt _ _ _ _ _ R1) in Hl. lia.
        + intros l Hl. simpl in Hl. apply elem_of_app in Hl as [Hl|Hl].
          * now apply L1.
          * apply L2 in Hl. rewrite length_app in Hl. lia. }
    intros s. destruct (Hloop s ∅) as (new & d & Fs & E & D & _ & R & N & L).
    exists (new ++ [ODict d])%list, (PRef (length (heap s ++ new))),
      (length (heap s ++ new) :: concat Fs).
    rewrite app_assoc. split; [|split; [|split]].
    + cbn [to_python]. fold entries.
      rewrite (bind_inr _ _ _ _ _ _ E), prepend_nil, bind_alloc.
      simpl. now rewrite set_heap_set_heap.
    + apply repr_map. exists (length (heap s ++ new)), d, Fs.
      split; [reflexivity|].
      split; [now rewrite lookup_app_r, Nat.sub_diag|]. split; [reflexivity|].
      split; [exact Hnd|]. split; [rewrite D; set_solver|].
      apply (kids_frame (heap s ++ new)); [exact R|].
      intros l Hl. apply lookup_app_l. now apply (kids_lt _ _ _ _ _ R).
    + constructor; [|exact N]. intros Hin. apply (kids_lt _ _ _ _ _ R) in Hin. lia.
    + intros l Hl. apply elem_of_cons in Hl as [->|Hl].
      * rewrite length_app. lia.
      * now apply L.
Qed.

Lemma key_split (m : list (string * yaml)) key :
  key ∈ m.*1 ->
  exists ma tk mb, m = (ma ++ (key, tk) :: mb)%list /\ key ∉ ma.*1.
Proof.
  induction m as [|[k t] m IH]; intros Hin; [now apply elem_of_nil in Hin|].
  destruct (decide (k = key)) as [->|Hne].
  - exists [], t, m. split; [reflexivity | apply not_elem_of_nil].
  - simpl in Hin. apply elem_of_cons in Hin as [E|Hin]; [congruence|].
    destruct (IH Hin) as (ma & tk & mb & -> & Hma).
    exists ((k, t) :: ma), tk, mb. split; [reflexivity|].
    simpl. apply not_elem_of_cons. split; [congruence | exact Hma].
Qed.

Lemma lookup_key_split ma key tk mb :
  key ∉ ma.*1 ->
  Util.lookup_key key (ma ++ (key, tk) :: mb) = Some tk.
Proof.
  induction ma as [|[k t] ma IH]; intros Hn; simpl.
  - now rewrite String.eqb_refl.
  - simpl in Hn. apply not_elem_of_cons in Hn as [Hne Hn].
    destruct (String.eqb k key) eqn:E.
    + apply String.eqb_eq in E. congruence.
    + now apply IH.
Qed.

Lemma bind_key_split ma key tk v mb :
  key ∉ ma.*1 ->
  Util.bind_key key v (ma ++ (key, tk) :: mb) = (ma ++ (key, v) :: mb)%list.
Proof.
  induction ma as [|[k t] ma IH]; intros Hn; simpl.
  - now rewrite String.eqb_refl.
  - simpl in Hn. apply not_elem_of_cons in Hn as [Hne Hn].
    destruct (String.eqb k key) eqn:E.
    + apply String.eqb_eq in E. congruence.
    + now rewrite IH.
Qed.

Lemma bind_key_new (m : list (string * yaml)) key v :
  key ∉ m.*1 -> Util.bind_key key v m = (m ++ [(key, v)])%list.
Proof.
  induction m as [|[k t] m IH]; intros Hn; simpl; [reflexivity|].
  simpl in Hn. apply not_elem_of_cons in Hn as [Hne Hn].
  destruct (String.eqb k key) eqn:E.
  - apply String.eqb_eq in E. congruence.
  - now rewrite IH.
Qed.

Lemma concat_app_cons {A} (Fa : list (list A)) F Fb :
  concat (Fa ++ F :: Fb) = (concat Fa ++ F ++ concat Fb)%list.
Proof. now rewrite concat_app. Qed.

(** [update] refines [merge]: the dictionary at [l] represents [m1]
    without sharing; after the update it represents the merge. *)
Definition refines (t2 : yaml) : Prop :=
  match t2 with
  | YMap m2 =>
      forall s l m1 F,
        repr (heap s) (YMap m1) (PRef l) F -> NoDup F ->
        exists h' F',
          Util.update (PRef l) t2 s = Outcome (inr tt) (set_heap h' s) [] /\
          repr h' (YMap (Util.merge m1 m2)) (PRef l) F' /\ NoDup F' /\
          (length (heap s) <= length h')%nat /\
          (forall x, x ∈ F' -> x ∈ F \/ (length (heap s) <= x)%nat) /\
          (forall x, (x < length (heap s))%nat -> x ∉ F ->
                     h' !! x = heap s !! x)
  | _ => True
  end.

(** A nested mapping that reprents data is a dictionary, and the data a
    mapping. *)
Lemma repr_dict h t l d F :
  repr h t (PRef l) F -> h !! l = Some (ODict d) -> exists m, t = YMap m.
Proof.
  destruct t as [| | | | ts | m]; simpl;
    try (intros [? _]; discriminate).
  - intros (l' & vs & Fs & [= <-] & Hl & _) Hd. congruence.
  - intros _ _. now exists m.
Qed.

Lemma repr_map_ref h m v F :
  repr h (YMap m) v F -> exists l d, v = PRef l /\ h !! l = Some (ODict d).
Proof.
  intros Hr. apply repr_map in Hr as (l & d & Fs & -> & Hl & _). eauto.
Qed.

(** One step of the loop of [update], when the value is bound. *)
Lemma update_binds s l d m1 Fs key value :
  wf value ->
  heap s !! l = Some (ODict d) -> NoDup m1.*1 -> dom d = list_to_set m1.*1 ->
  Forall2 (kid (heap s) d) m1 Fs -> NoDup (l :: concat Fs) ->
  exists h' F',
    (v <- to_python value ;; setitem (PRef l) key v) s
      = Outcome (inr tt) (set_heap h' s) [] /\
    repr h' (YMap (Util.bind_key key value m1)) (PRef l) F' /\ NoDup F' /\
    (length (heap s) <= length h')%nat /\
    (forall x, x ∈ F' -> x ∈ l :: concat Fs \/ (length (heap s) <= x)%nat) /\
    (forall x, (x < length (heap s))%nat -> x ∉ l :: concat Fs ->
               h' !! x = heap s !! x).
Proof.
  intros Hwf Hl Hnd Hdom Hkids HF.
  destruct (to_python_built value Hwf s) as (new & pv & Fv & E & Rv & Nv & Lv).
  pose proof (lookup_lt_Some _ _ _ Hl) as Ll.
  set (s1 := set_heap (heap s ++ new) s).
  assert (Hd1 : dict_at s1 l d) by (now apply lookup_app_l_Some).
  set (d' := <[key := pv]> d).
  set (h' := <[l := ODict d']> (heap s ++ new)).
  assert (Erun : (v <- to_python value ;; setitem (PRef l) key v) s
                 = Outcome (inr tt) (set_heap h' s) []).
  { rewrite (bind_inr _ _ _ _ _ _ E), prepend_nil.
    rewrite (run_setitem _ _ _ _ _ Hd1). subst s1. simpl.
    now rewrite set_heap_set_heap. }
  assert (Hl' : h' !! l = Some (ODict d')).
  { subst h'. apply list_lookup_insert_eq. rewrite length_app. lia. }
  assert (Hold : forall x, (x < length (heap s))%nat -> x <> l ->
                   h' !! x = heap s !! x).
  { intros x Hx Hne. subst h'. rewrite list_lookup_insert_ne by congruence.
    now apply lookup_app_l. }
  apply NoDup_cons in HF as [HlF HFs].
  assert (Rv' : repr h' value pv Fv).
  { apply (repr_frame (heap s ++ new)); [exact Rv|].
    intros x Hx. subst h'. apply list_lookup_insert_ne.
    apply Lv in Hx. lia. }
  assert (Hkids' : forall ma Fa, Forall2 (kid (heap s) d) ma Fa ->
            key ∉ ma.*1 -> (forall x, x ∈ concat Fa -> x ∈ concat Fs) ->
            Forall2 (kid h' d') ma Fa).
  { intros ma Fa Hk Hn Hsub.
    apply (kids_dict _ d).
    - apply (kids_frame (heap s)); [exact Hk|].
      intros x Hx. apply Hold; [now apply (kids_lt _ _ _ _ _ Hk)|].
      intros ->. apply HlF. now apply Hsub.
    - intros k Hk'. subst d'. apply lookup_insert_ne. congruence. }
  destruct (decide (key ∈ m1.*1)) as [Hin|Hnin].
  - destruct (key_split m1 key Hin) as (ma & tk & mb & -> & Hma).
    apply Forall2_app_inv_l in Hkids as (Fa & Fb' & Hka & Hkb & ->).
    apply Forall2_cons_inv_l in Hkb as (Fk & Fb & Hk & Hkb & ->).
    rewrite fmap_app, fmap_cons in Hnd. simpl in Hnd.
    apply NoDup_app in Hnd as (Hnda & Hdis & Hndb).
    apply NoDup_cons in Hndb as [Hmb Hndb].
    rewrite concat_app_cons in HFs, HlF.
    apply NoDup_app in HFs as (NFa & DFa & HFs).
    apply NoDup_app in HFs as (NFk & DFk & NFb).
    exists h', (l :: concat (Fa ++ Fv :: Fb)).
    rewrite (bind_key_split ma key tk value mb Hma).
    split; [exact Erun|]. split; [|split; [|split; [|split]]].
    + apply repr_map. exists l, d', (Fa ++ Fv :: Fb)%list.
      split; [reflexivity|]. split; [exact Hl'|]. split; [reflexivity|].
      split; [|split].
      * rewrite fmap_app, fmap_cons. simpl. apply NoDup_app.
        split; [exact Hnda|]. split; [exact Hdis|]. now apply NoDup_cons.
      * subst d'. rewrite dom_insert_L, Hdom, !fmap_app, !fmap_cons. simpl.
        rewrite !list_to_set_app_L. simpl. set_solver.
      * apply Forall2_app; [|constructor].
        -- apply Hkids'; [exact Hka | exact Hma |].
           intros x Hx. rewrite concat_app_cons. apply elem_of_app. now left.
        -- exists pv. split; [apply lookup_insert_eq | exact Rv'].
        -- apply Hkids'; [exact Hkb | exact Hmb |].
           intros x Hx. rewrite concat_app_cons. apply elem_of_app. right.
           apply elem_of_app. now right.
    + rewrite concat_app_cons. apply NoDup_cons. split.
      * intros Hx. apply elem_of_app in Hx as [Hx|Hx];
          [apply HlF, elem_of_app; now left|].
        apply elem_of_app in Hx as [Hx|Hx].
        -- apply Lv in Hx. lia.
        -- apply HlF, elem_of_app. right. apply elem_of_app. now right.
      * apply NoDup_app. split; [exact NFa|]. split.
        -- intros x Hx Hx'. apply elem_of_app in Hx' as [Hx'|Hx'].
           ++ apply Lv in Hx'. apply (kids_lt _ _ _ _ _ Hka) in Hx. lia.
           ++ apply (DFa x Hx). apply elem_of_app. now right.
        -- apply NoDup_app. split; [exact Nv|]. split; [|exact NFb].
           intros x Hx Hx'. apply Lv in Hx.
           apply (kids_lt _ _ _ _ _ Hkb) in Hx'. lia.
    + subst h'. rewrite length_insert, length_app. lia.
    + intros x Hx. rewrite concat_app_cons in Hx. rewrite concat_app_cons.
      apply elem_of_cons in Hx as [->|Hx]; [left; left|].
      apply elem_of_app in Hx as [Hx|Hx];
        [left; right; apply elem_of_app; now left|].
      apply elem_of_app in Hx as [Hx|Hx]; [right; now apply Lv|].
      left. right. apply elem_of_app. right. apply elem_of_app. now right.
    + intros x Hx Hnx. apply Hold; [exact Hx|]. intros ->. apply Hnx. left.
  - exists h', (l :: concat (Fs ++ [Fv])).
    rewrite (bind_key_new m1 key value Hnin).
    split; [exact Erun|]. split; [|split; [|split; [|split]]].
    + apply repr_map. exists l, d', (Fs ++ [Fv])%list.
      split; [reflexivity|]. split; [exact Hl'|]. split; [reflexivity|].
      split; [|split].
      * rewrite fmap_app. simpl. apply NoDup_app. split; [exact Hnd|].
        split; [|apply NoDup_singleton].
        intros x Hx Hx'. apply list_elem_of_singleton in Hx'. congruence.
      * subst d'. rewrite dom_insert_L, Hdom, fmap_app.
        rewrite list_to_set_app_L. simpl. set_solver.
      * apply Forall2_app; [|repeat constructor].
        -- apply Hkids'; [exact Hkids | exact Hnin | trivial].
        -- exists pv. split; [apply lookup_insert_eq | exact Rv'].
    + rewrite concat_app. simpl. rewrite app_nil_r. apply NoDup_cons. split.
      * intros Hx. apply elem_of_app in Hx as [Hx|Hx]; [now apply HlF|].
        apply Lv in Hx. lia.
      * apply NoDup_app. split; [exact HFs|]. split; [|exact Nv].
        intros x Hx Hx'. apply Lv in Hx'.
        apply (kids_lt _ _ _ _ _ Hkids) in Hx. lia.
    + subst h'. rewrite length_insert, length_app. lia.
    + intros x Hx. rewrite concat_app in Hx. simpl in Hx.
      rewrite app_nil_r in Hx.
      apply elem_of_cons in Hx as [->|Hx]; [left; left|].
      apply elem_of_app in Hx as [Hx|Hx]; [left; now right | right; now apply Lv].
    + intros x Hx Hnx. apply Hold; [exact Hx|]. intros ->. apply Hnx. left.
Qed.

Lemma lookup_key_kid h d m1 Fs key t :
  Util.lookup_key key m1 = Some t -> Forall2 (kid h d) m1 Fs ->
  exists v' F, d !! key = Some v' /\ repr h t v' F.
Proof.
  intros Hk Hkids. revert Hk.
  induction Hkids as [|[k t'] F m1 Fs Hkid Hkids IH]; simpl; [discriminate|].
  destruct (String.eqb k key) eqn:E.
  - apply String.eqb_eq in E. subst k. intros [= ->].
    destruct Hkid as (v' & Hv' & Hr). eauto.
  - exact IH.
Qed.

(** The step of the loop of [update] when both values are nested
    mappings. *)
Lemma update_recurses s l d m1 Fs key n2 lk dk :
  refines (YMap n2) ->
  heap s !! l = Some (ODict d) -> NoDup m1.*1 -> dom d = list_to_set m1.*1 ->
  Forall2 (kid (heap s) d) m1 Fs -> NoDup (l :: concat Fs) ->
  d !! key = Some (PRef lk) -> heap s !! lk = Some (ODict dk) ->
  exists n1, Util.lookup_key key m1 = Some (YMap n1) /\
  exists h' F',
    Util.update (PRef lk) (YMap n2) s = Outcome (inr tt) (set_heap h' s) [] /\
    repr h' (YMap (Util.bind_key key (YMap (Util.merge n1 n2)) m1)) (PRef l) F' /\
    NoDup F' /\
    (length (heap s) <= length h')%nat /\
    (forall x, x ∈ F' -> x ∈ l :: concat Fs \/ (length (heap s) <= x)%nat) /\
    (forall x, (x < length (heap s))%nat -> x ∉ l :: concat Fs ->
               h' !! x = heap s !! x).
Proof.
  intros IH Hl Hnd Hdom Hkids HF Hkey Hlk.
  pose proof (lookup_lt_Some _ _ _ Hl) as Ll.
  assert (Hin : key ∈ m1.*1).
  { assert (Hd : key ∈ dom d) by (apply elem_of_dom; eauto).
    rewrite Hdom in Hd. now apply elem_of_list_to_set in Hd. }
  destruct (key_split m1 key Hin) as (ma & tk & mb & -> & Hma).
  apply Forall2_app_inv_l in Hkids as (Fa & Fb' & Hka & Hkb & ->).
  apply Forall2_cons_inv_l in Hkb as (Fk & Fb & Hk & Hkb & ->).
  destruct Hk as (v' & Hv' & Rk). simpl in Hv', Rk.
  rewrite Hkey in Hv'. injection Hv' as <-.
  destruct (repr_dict _ _ _ _ _ Rk Hlk) as [n1 ->].
  exists n1. split; [now apply lookup_key_split|].
  rewrite fmap_app, fmap_cons in Hnd. simpl in Hnd.
  pose proof Hnd as Hnd0.
  apply NoDup_app in Hnd as (Hnda & Hdis & Hndb).
  apply NoDup_cons in Hndb as [Hmb Hndb].
  apply NoDup_cons in HF as [HlF HFs].
  rewrite concat_app_cons in HFs, HlF.
  apply NoDup_app in HFs as (NFa & DFa & HFs).
  apply NoDup_app in HFs as (NFk & DFk & NFb).
  destruct (IH s lk n1 Fk Rk NFk) as (h' & Fk' & E & R' & N' & Lh & B' & Fr').
  assert (Hold : forall x, (x < length (heap s))%nat -> x ∉ Fk ->
                   h' !! x = heap s !! x) by exact Fr'.
  assert (Hl' : h' !! l = Some (ODict d)).
  { rewrite Hold; [exact Hl | exact Ll |]. intros Hx. apply HlF.
    apply elem_of_app. right. apply elem_of_app. now left. }
  exists h', (l :: concat (Fa ++ Fk' :: Fb)).
  rewrite (bind_key_split ma key (YMap n1) _ mb Hma).
  split; [exact E|]. split; [|split; [|split; [|split]]].
  - apply repr_map. exists l, d, (Fa ++ Fk' :: Fb).
    split; [reflexivity|]. split; [exact Hl'|]. split; [reflexivity|].
    split; [|split].
    + rewrite fmap_app, fmap_cons. exact Hnd0.
    + rewrite Hdom, !fmap_app, !fmap_cons. reflexivity.
    + apply Forall2_app; [|constructor].
      * apply (kids_frame (heap s)); [exact Hka|].
        intros x Hx. apply Hold; [now apply (kids_lt _ _ _ _ _ Hka)|].
        intros Hx'. apply (DFa x Hx). apply elem_of_app. now left.
      * exists (PRef lk). split; [exact Hkey | exact R'].
      * apply (kids_frame (heap s)); [exact Hkb|].
        intros x Hx. apply Hold; [now apply (kids_lt _ _ _ _ _ Hkb)|].
        intros Hx'. now apply (DFk x Hx').
  - rewrite concat_app_cons. apply NoDup_cons. split.
    + intros Hx. apply elem_of_app in Hx as [Hx|Hx];
        [apply HlF, elem_of_app; now left|].
      apply elem_of_app in Hx as [Hx|Hx].
      * destruct (B' l Hx) as [Hx'|Hx']; [|lia].
        apply HlF, elem_of_app. right. apply elem_of_app. now left.
      * apply HlF, elem_of_app. right. apply elem_of_app. now right.
    + apply NoDup_app. split; [exact NFa|]. split.
      * intros x Hx Hx'. apply elem_of_app in Hx' as [Hx'|Hx'].
        -- destruct (B' x Hx') as [Hx''|Hx''].
           ++ apply (DFa x Hx). apply elem_of_app. now left.
           ++ apply (kids_lt _ _ _ _ _ Hka) in Hx. lia.
        -- apply (DFa x Hx). apply elem_of_app. now right.
      * apply NoDup_app. split; [exact N'|]. split; [|exact NFb].
        intros x Hx Hx'. destruct (B' x Hx) as [Hx''|Hx''].
        -- now apply (DFk x Hx'').
        -- apply (kids_lt _ _ _ _ _ Hkb) in Hx'. lia.
  - exact Lh.
  - intros x Hx. rewrite concat_app_cons in Hx. rewrite concat_app_cons.
    apply elem_of_cons in Hx as [->|Hx]; [left; left|].
    apply elem_of_app in Hx as [Hx|Hx];
      [left; right; apply elem_of_app; now left|].
    apply elem_of_app in Hx as [Hx|Hx].
    + destruct (B' x Hx) as [Hx'|Hx']; [|now right].
      left. right. apply elem_of_app. right. apply elem_of_app. now left.
    + left. right. apply elem_of_app. right. apply elem_of_app. now right.
  - intros x Hx Hnx. apply Hold; [exact Hx|]. intros Hx'. apply Hnx. right.
    rewrite concat_app_cons. apply elem_of_app. right. apply elem_of_app.
    now left.
Qed.

(** The loop of [update] over the entries of the right-hand mapping. *)
Definition update_entries (d1 : pyval) : list (string * yaml) -> M unit :=
  fix merge (m : list (string * yaml)) : M unit :=
    match m with
    | [] => ret tt
    | (key, value) :: rest =>
        (ld <- as_dict d1 ;;
         s <- get ;;
         match ld.2 !! key, value with
         | Some (PRef l'), YMap _ =>
             match heap s !! l' with
             | Some (ODict _) => Util.update (PRef l') value
             | _ => v <- to_python value ;; setitem d1 key v
             end
         | _, _ => v <- to_python value ;; setitem d1 key v
         end) ;;;
        merge rest
    end.

Lemma update_map d1 m : Util.update d1 (YMap m) = update_entries d1 m.
Proof. reflexivity. Qed.

Lemma entry_cases {A} (d : gmap string pyval) key value (h : list pyobj)
    (rec : loc -> A) (other : A) :
  (match d !! key, value with
   | Some (PRef l'), YMap _ =>
       match h !! l' with
       | Some (ODict _) => rec l'
       | _ => other
       end
   | _, _ => other
   end = other /\
   forall lk dk n2, ~ (d !! key = Some (PRef lk) /\ h !! lk = Some (ODict dk) /\
                       value = YMap n2)) \/
  exists lk dk n2,
    d !! key = Some (PRef lk) /\ h !! lk = Some (ODict dk) /\ value = YMap n2 /\
    match d !! key, value with
    | Some (PRef l'), YMap _ =>
        match h !! l' with
        | Some (ODict _) => rec l'
        | _ => other
        end
    | _, _ => other
    end = rec lk.
Proof.
  destruct (d !! key) as [[| | | | |lk]|] eqn:Hk;
    try (left; split; [now destruct value | intros ? ? ? (? & _); congruence]).
  destruct value as [| | | | |n2];
    try (left; split; [reflexivity | intros ? ? ? (_ & _ & ?); congruence]).
  cbn.
  destruct (h !! lk) as [[dk| |]|] eqn:Hlk;
    try (left; split; [reflexivity |
                       intros ? ? ? ([= <-] & ? & _); congruence]).
  right. exists lk, dk, n2. rewrite Hlk. repeat split; reflexivity.
Qed.

(** One entry of the right-hand mapping. *)
Lemma update_entry s l m1 F key value :
  wf value -> refines value ->
  repr (heap s) (YMap m1) (PRef l) F -> NoDup F ->
  exists h' F',
    (ld <- as_dict (PRef l) ;;
     s <- get ;;
     match ld.2 !! key, value with
     | Some (PRef l'), YMap _ =>
         match heap s !! l' with
         | Some (ODict _) => Util.update (PRef l') value
         | _ => v <- to_python value ;; setitem (PRef l) key v
         end
     | _, _ => v <- to_python value ;; setitem (PRef l) key v
     end) s = Outcome (inr tt) (set_heap h' s) [] /\
    repr h'
      (YMap (Util.bind_key key
               match Util.lookup_key key m1, value with
               | Some (YMap n1), YMap n2 => YMap (Util.merge n1 n2)
               | _, _ => value
               end m1)) (PRef l) F' /\
    NoDup F' /\
    (length (heap s) <= length h')%nat /\
    (forall x, x ∈ F' -> x ∈ F \/ (length (heap s) <= x)%nat) /\
    (forall x, (x < length (heap s))%nat -> x ∉ F -> h' !! x = heap s !! x).
Proof.
  intros Hwf IH Hr HF.
  apply repr_map in Hr as (l0 & d & Fs & [= <-] & Hl & -> & Hnd & Hdom & Hkids).
  rewrite (bind_inr _ _ _ _ _ _ (run_as_dict s l d Hl)), prepend_nil, bind_get.
  cbn [snd].
  destruct (entry_cases d key value (heap s)
              (fun l' => Util.update (PRef l') value)
              (v <- to_python value ;; setitem (PRef l) key v))
    as [[E Hno] | (lk & dk & n2 & Hkey & Hlk & -> & E)]; rewrite E.
  - assert (Em : match Util.lookup_key key m1, value with
                 | Some (YMap n1), YMap n2 => YMap (Util.merge n1 n2)
                 | _, _ => value
                 end = value).
    { destruct (Util.lookup_key key m1) as [[| | | | |n1]|] eqn:Hlk;
        try reflexivity.
      destruct value as [| | | | |n2]; try reflexivity.
      destruct (lookup_key_kid _ _ _ _ _ _ Hlk Hkids) as (v' & F' & Hv' & Hr').
      destruct (repr_map_ref _ _ _ _ Hr') as (lk & dk & -> & Hdk).
      destruct (Hno lk dk n2). auto. }
    rewrite Em. now apply (update_binds s l d m1 Fs key value).
  - destruct (update_recurses s l d m1 Fs key n2 lk dk IH Hl Hnd Hdom Hkids HF
                Hkey Hlk) as (n1 & Hn1 & Hex).
    rewrite Hn1. exact Hex.
Qed.

Lemma update_entries_refines m2 :
  Forall (fun kt => wf kt.2) m2 -> Forall (fun kt => refines kt.2) m2 ->
  forall s l m1 F,
    repr (heap s) (YMap m1) (PRef l) F -> NoDup F ->
    exists h' F',
      update_entries (PRef l) m2 s = Outcome (inr tt) (set_heap h' s) [] /\
      repr h' (YMap (Util.merge m1 m2)) (PRef l) F' /\ NoDup F' /\
      (length (heap s) <= length h')%nat /\
      (forall x, x ∈ F' -> x ∈ F \/ (length (heap s) <= x)%nat) /\
      (forall x, (x < length (heap s))%nat -> x ∉ F ->
                 h' !! x = heap s !! x).
Proof.
  induction m2 as [|[key value] rest IHrest]; intros Hwf IH s l m1 F Hr HF.
  - exists (heap s), F. rewrite merge_nil, set_heap_same.
    repeat split; auto.
  - apply Forall_cons in Hwf as [Hwv Hwf]. apply Forall_cons in IH as [IHv IH].
    simpl in Hwv, IHv.
    destruct (update_entry s l m1 F key value Hwv IHv Hr HF)
      as (h1 & F1 & E1 & R1 & N1 & L1 & B1 & Fr1).
    destruct (IHrest Hwf IH (set_heap h1 s) l _ F1 R1 N1)
      as (h2 & F2 & E2 & R2 & N2 & L2 & B2 & Fr2).
    cbn [heap set_heap] in L2, B2, Fr2.
    exists h2, F2. rewrite merge_cons. split; [|split; [|split; [|split; [|split]]]].
    + cbn [update_entries]. fold (update_entries (PRef l)).
      rewrite (bind_inr _ _ _ _ _ _ E1), prepend_nil, E2.
      now rewrite set_heap_set_heap.
    + exact R2.
    + exact N2.
    + lia.
    + intros x Hx. destruct (B2 x Hx) as [Hx'|Hx']; [|right; lia].
      now apply B1.
    + intros x Hx Hnx. rewrite Fr2; [now apply Fr1 | lia |].
      intros Hx'. destruct (B1 x Hx') as [?|?]; [tauto | lia].
Qed.

Theorem update_refines_merge t2 : wf t2 -> refines t2.
Proof.
  induction t2 as [| | | | ts _ | m2 IH] using yaml_rect'; try (intros; exact I).
  intros Hwf. apply wf_map in Hwf as [_ Hwfs].
  unfold refines. intros s l m1 F Hr HF. rewrite update_map.
  apply update_entries_refines; auto.
  clear -IH Hwfs. induction IH as [|kt m Hkt _ IHm]; [constructor|].
  apply Forall_cons in Hwfs as [Hw Hwfs]. constructor; auto.
Qed.

End Representation.

(** C5.  Merging [d2] into [d1] gives, for every key: the value of [d1]
    when [d2] does not bind the key; the merge of the two values when both
    bind it to a nested mapping; the value of [d2] otherwise.  On the
    example of the spec the result is [{a: {x: 1, y: 3, z: 4}}], for the
    merge of the values and for the merge [_load_yaml] makes in place.
    The merge in place computes the merge of the values: on a store
    without sharing that represents [d1], [Util.update] with well-formed
    data [d2] returns, and the store then represents [Util.merge d1 d2]. *)
Theorem deep_merge_right_biased (d1 d2 : list (string * yaml)) (key : string) :
  NoDup (map fst d2) ->
  Util.lookup_key key (Util.merge d1 d2) =
    match Util.lookup_key key d2 with
    | None => Util.lookup_key key d1
    | Some value =>
        match Util.lookup_key key d1, value with
        | Some (YMap n1), YMap n2 => Some (YMap (Util.merge n1 n2))
        | _, _ => Some value
        end
    end /\
  Util.merge merge_left merge_right = merge_result /\
  (let s := st (Plugin._load_yaml merge_host merge_plugin) in
   dict_at s 0 (<["a" := PRef 1]> ∅) /\
   dict_at s 1 (<["x" := PInt 1]> (<["y" := PInt 3]> (<["z" := PInt 4]> ∅)))) /\
  (forall s l F,
     wf (YMap d2) -> repr (heap s) (YMap d1) (PRef l) F -> NoDup F ->
     exists h' F',
       Util.update (PRef l) (YMap d2) s = Outcome (inr tt) (set_heap h' s) [] /\
       repr h' (YMap (Util.merge d1 d2)) (PRef l) F' /\ NoDup F').
Proof.
  intros Hnd.
  split; [|split; [reflexivity | split; [vm_compute; split; reflexivity|]]].
  - revert d1 Hnd. induction d2 as [|[k v] rest IH]; intros d1 Hnd.
    + reflexivity.
    + inversion Hnd as [|? ? Hnotin Hnd']; subst. rewrite merge_cons.
      rewrite (IH _ Hnd'). cbn [Util.lookup_key].
      destruct (String.eqb k key) eqn:E.
      * apply String.eqb_eq in E. subst k.
        rewrite (lookup_key_None key rest Hnotin), lookup_bind_key_eq.
        destruct (Util.lookup_key key d1) as [[| | | | |n1]|]; try reflexivity.
        now destruct v.
      * assert (Hne : k <> key) by (intros ->; now rewrite String.eqb_refl in E).
        now rewrite (lookup_bind_key_ne k key _ _ Hne).
  - intros s l F Hwf Hr HF.
    destruct (update_refines_merge (YMap d2) Hwf s l d1 F Hr HF)
      as (h' & F' & E & R & N & _).
    exists h', F'. auto.
Qed.

Lemma deep_merge_right_biased_witness :
  Util.lookup_key "a" (Util.merge merge_left merge_right)
  = Some (YMap (Util.merge [("x", YInt 1); ("y", YInt 2)]
                           [("y", YInt 3); ("z", YInt 4)])) /\
  exists h' F',
    Util.update (PRef 0) (YMap merge_right) merge_plugin
      = Outcome (inr tt) (set_heap h' merge_plugin) [] /\
    repr h' (YMap (Util.merge merge_left merge_right)) (PRef 0) F' /\
    NoDup F'.
Proof.
  assert (Hnd : NoDup (map fst merge_right)).
  { apply NoDup_singleton. }
  assert (Hwf : wf (YMap merge_right)).
  { simpl. repeat split; try apply NoDup_singleton.
    apply NoDup_cons. split; [|apply NoDup_singleton].
    intros Hin. apply list_elem_of_singleton in Hin. discriminate. }
  assert (Hr : repr (heap merge_plugin) (YMap merge_left) (PRef 0)
                 [0; 1]%nat).
  { apply repr_map. exists 0%nat, (<["a" := PRef 1]> ∅), [[1%nat]].
    split; [reflexivity|]. split; [reflexivity|]. split; [reflexivity|].
    split; [apply NoDup_singleton|]. split; [vm_compute; reflexivity|].
    repeat constructor. exists (PRef 1). split; [reflexivity|].
    apply repr_map.
    exists 1%nat, (<["x" := PInt 1]> (<["y" := PInt 2]> ∅)), [[]; []].
    split; [reflexivity|]. split; [reflexivity|]. split; [reflexivity|].
    split; [|split; [vm_compute; reflexivity|]].
    - apply NoDup_cons. split; [|apply NoDup_singleton].
      intros Hin. apply list_elem_of_singleton in Hin. discriminate.
    - repeat constructor.
      + exists (PInt 1). split; [reflexivity | simpl; split; reflexivity].
      + exists (PInt 2). split; [reflexivity | simpl; split; reflexivity]. }
  assert (HF : NoDup [0; 1]%nat).
  { apply NoDup_cons. split; [|apply NoDup_singleton].
    intros Hin. apply list_elem_of_singleton in Hin. discriminate. }
  pose proof (deep_merge_right_biased merge_left merge_right "a" Hnd)
    as (Hkey & _ & _ & Hrun).
  split; [exact Hkey | exact (Hrun merge_plugin 0%nat [0; 1]%nat Hwf Hr HF)].
Defined.

(** * More of the plugin

    Error and edge behaviour, invariants and compositions of the methods
    embedded above, read off the code.  [on_nav], [on_serve] and
    [start_chatting] are not embedded: they work on objects of MkDocs (the
    navigation, the development server, the logger) that the heap of this
    embedding does not hold; what [on_nav] relies on, [render] before any
    page is set, is covered on [render] itself. *)

(** ** Registering without a name, and before [on_config] *)

(** X1.  [macro] and [filter] called without a name on a value that has no
    [__name__] raise [AttributeError] and register nothing: the instance
    is as before, and [filter] does not even create its dictionary, the
    name being computed first. *)
Theorem registration_needs_a_name (s : MacrosPlugin) (v : pyval) :
  (forall f, v = PFunc f -> fn_name f = None) ->
  Plugin.macro v "" s
    = Outcome (inl (Exn AttributeError (PStr "__name__"))) s [] /\
  Plugin.filter v "" s
    = Outcome (inl (Exn AttributeError (PStr "__name__"))) s [].
Proof.
  intros Hv.
  assert (E : Plugin.name_or_dunder "" v s
              = Outcome (inl (Exn AttributeError (PStr "__name__"))) s []).
  { unfold Plugin.name_or_dunder, Plugin.dunder_name. simpl.
    destruct v as [| | | |f|]; try reflexivity.
    now rewrite (Hv f eq_refl). }
  unfold Plugin.macro, Plugin.filter.
  now rewrite !(bind_inl _ _ _ _ _ _ E).
Qed.

Lemma registration_needs_a_name_witness :
  let partial := Callable 9 None in
  let s := new_plugin default_config [] ∅ in
  st (Plugin.filter (PFunc partial) "" s) = s /\
  raises (Plugin.macro (PInt 3) "" s) AttributeError.
Proof.
  intros partial s. split.
  - assert (Hv : forall f, PFunc partial = PFunc f -> fn_name f = None)
      by (intros f [= <-]; reflexivity).
    now rewrite (proj2 (registration_needs_a_name s (PFunc partial) Hv)).
  - assert (Hv : forall f, PInt 3 = PFunc f -> fn_name f = None)
      by (intros f Hf; discriminate Hf).
    rewrite (proj1 (registration_needs_a_name s (PInt 3) Hv)).
    eexists. reflexivity.
Defined.

(** X2.  On an instance that [on_config] has not set up, registering a
    macro raises [AttributeError] and changes nothing, while registering a
    filter succeeds: [filter] creates the dictionary of filters, binds the
    function in it and leaves every existing object as it was. *)
Theorem registration_before_on_config (s : MacrosPlugin) (f : callable)
    (name key : string) :
  _macros s = None -> _filters s = None ->
  (name = "" -> fn_name f = Some key) ->
  (name <> "" -> key = name) ->
  let o := Plugin.filter (PFunc f) name s in
  let lf := length (heap s) in
  Plugin.macro (PFunc f) name s
    = Outcome (inl (Exn AttributeError
                      (PStr "Property called before on_config()"))) s [] /\
  res o = inr (PFunc f) /\
  _filters (st o) = Some lf /\
  dict_at (st o) lf (<[key := PFunc f]> ∅) /\
  (forall l, (l < lf)%nat -> heap (st o) !! l = heap s !! l) /\
  res (Plugin.filters (st o)) = inr (PRef lf).
Proof.
  intros Hm Hf Hd Hg o lf.
  pose proof (run_name_or_dunder f name key s Hd Hg) as En.
  split.
  - unfold Plugin.macro. rewrite (bind_inr _ _ _ _ _ _ En), prepend_nil.
    unfold Plugin.macros. now rewrite !bind_assoc, bind_get, Hm.
  - assert (Eo : o = Outcome (inr (PFunc f))
               (set_heap (<[lf := ODict (<[key := PFunc f]> ∅)]>
                            (heap s ++ [ODict ∅])%list)
                  (set_filters (Some lf) s)) []).
    { subst o. unfold Plugin.filter.
      rewrite (bind_inr _ _ _ _ _ _ En), prepend_nil.
      unfold Plugin.filters. rewrite !bind_assoc, bind_get, Hf.
      rewrite !bind_assoc, bind_alloc, !bind_assoc, bind_modify, bind_ret.
      assert (Hnew : dict_at (set_filters (Some lf) (set_heap (heap s ++ [ODict ∅])%list s))
                       lf ∅).
      { unfold dict_at. norm. subst lf. now rewrite lookup_app_r, Nat.sub_diag. }
      rewrite (bind_inr _ _ _ _ _ _ (run_setitem _ _ _ key (PFunc f) Hnew)),
        prepend_nil.
      reflexivity. }
    rewrite Eo. simpl. split; [reflexivity|]. split; [reflexivity|].
    assert (Hlen : (lf < length (heap s ++ [ODict ∅])%list)%nat)
      by (rewrite length_app; simpl; subst lf; lia).
    split; [|split].
    + unfold dict_at. simpl. now apply list_lookup_insert_eq.
    + intros l Hl. rewrite list_lookup_insert_ne by lia. now apply lookup_app_l.
    + reflexivity.
Qed.

Lemma registration_before_on_config_witness :
  let upper := Callable 4 (Some "upper") in
  let s := new_plugin default_config [] ∅ in
  raises (Plugin.macro (PFunc upper) "" s) AttributeError /\
  res (bind (Plugin.filter (PFunc upper) "")
         (fun _ => f <- Plugin.filters ;; getitem f "upper") s)
    = inr (PFunc upper).
Proof.
  intros upper s.
  destruct (registration_before_on_config s upper "" "upper"
              eq_refl eq_refl ltac:(reflexivity) ltac:(congruence))
    as (Hm & _ & _ & _ & _ & _).
  split.
  - rewrite Hm. eexists. reflexivity.
  - vm_compute. reflexivity.
Defined.

(** ** The text of the page *)

(** X3.  Assigning to [markdown]: a value that is not a string is refused
    with [ValueError], whether or not a page is being processed; a string
    assigned before any page is processed raises [AttributeError]; in both
    cases the instance is as before.  Otherwise the string becomes the
    text, which is what [markdown] then returns, and nothing else of the
    instance changes. *)
Theorem markdown_setter_round_trip (s : MacrosPlugin) (value : pyval) :
  let o := Plugin.markdown_setter value s in
  match value, _markdown s with
  | PStr t, Some _ =>
      res o = inr tt /\ st o = set_markdown (Some t) s /\
      res (Plugin.markdown (st o)) = inr t /\ log o = []
  | PStr _, None => raises o AttributeError /\ st o = s /\ log o = []
  | _, _ => raises o ValueError /\ st o = s /\ log o = []
  end.
Proof.
  intros o. subst o. unfold raises.
  destruct value as [| | |t| |];
    try (cbn; split; [eexists; reflexivity | now split]).
  unfold Plugin.markdown_setter.
  destruct (_markdown s) as [t0|] eqn:E.
  - rewrite (bind_inr _ _ _ _ _ _ (run_markdown s t0 E)), prepend_nil.
    simpl. repeat split; reflexivity.
  - unfold Plugin.markdown. rewrite bind_assoc, bind_get, E. simpl.
    split; [eexists; reflexivity | now split].
Qed.

(** ** Files of [include_yaml] that are missing or ill-formed *)

(** The file an entry of [include_yaml] names, when the entry is a file
    name or a dictionary with one pair. *)
Definition include_filename (el : yaml_include) : option string :=
  match el with
  | IncFile filename => Some filename
  | IncDict [(_, filename)] => Some filename
  | IncDict _ => None
  end.

(** The entry names a file that does not exist under the directory [d]. *)
Definition names_missing_file (H : Host) (d : string) (el : yaml_include)
    : Prop :=
  exists filename, include_filename el = Some filename /\
                   isfile H (path_join H d filename) = false.

Lemma for_each_app {A} (l1 l2 : list A) (body : A -> M unit) s s1 log1 :
  for_each l1 body s = Outcome (inr tt) s1 log1 ->
  for_each (l1 ++ l2)%list body s = prepend log1 (for_each l2 body s1).
Proof.
  revert s s1 log1. induction l1 as [|x l1 IH]; intros s s1 log1 E.
  - simpl in E. injection E as <- <-. simpl. now rewrite prepend_nil.
  - simpl in E. cbn [app for_each].
    destruct (body x s) as [[e|[]] sx lx] eqn:Ex.
    + rewrite (bind_inl _ _ _ _ _ _ Ex) in E. discriminate.
    + rewrite (bind_inr _ _ _ _ _ _ Ex) in E.
      rewrite (bind_inr _ _ _ _ _ _ Ex).
      destruct (for_each l1 body sx) as [r1 s1' l1'] eqn:E1.
      unfold prepend in E. simpl in E. injection E as -> <- <-.
      rewrite (IH _ _ _ E1). now rewrite prepend_prepend.
Qed.

(** The body of the loop of [_load_yaml], for one entry. *)
Definition load_yaml_entry (H : Host) (el : yaml_include) : M unit :=
  kf <- match el with
        | IncDict [(key, filename)] => ret (Some key, filename)
        | IncDict _ => raise ValueError (PStr "wrong number of values to unpack")
        | IncFile filename => ret (None, filename)
        end ;;
  d <- Plugin.project_dir H ;;
  let filename := path_join H d kf.2 in
  if isfile H filename then
    match yaml_load H filename with
    | inl e => raise_exn e
    | inr content =>
        let content := match kf.1 with
                       | Some key => YMap [(key, content)]
                       | None => content
                       end in
        v <- Plugin.variables ;;
        Util.update v content
    end
  else ret tt.

Lemma load_yaml_loop (H : Host) s :
  Plugin._load_yaml H s
  = for_each (include_yaml (config s)) (load_yaml_entry H) s.
Proof. unfold Plugin._load_yaml. now rewrite bind_get. Qed.

Lemma skip_missing_files (H : Host) s d (l : list yaml_include) :
  res (Plugin.project_dir H s) = inr d ->
  Forall (names_missing_file H d) l ->
  for_each l (load_yaml_entry H) s = Outcome (inr tt) s [].
Proof.
  intros Hd Hall. induction Hall as [|el l (f & Hf & Hmiss) _ IH]; [reflexivity|].
  cbn [for_each].
  rewrite (bind_inr _ _ _ tt s []); [now rewrite prepend_nil|].
  unfold load_yaml_entry.
  destruct el as [f'|[|[k f'] [|? ?]]]; simpl in Hf; try discriminate;
    injection Hf as ->;
    rewrite bind_ret, bind_project_dir, Hd; cbn [snd]; now rewrite Hmiss.
Qed.

(** X4.  A file of [include_yaml] that does not exist is passed over:
    when none of the files exists, [_load_yaml] ends without an error and
    the instance, its variables among the rest, is as before. *)
Theorem missing_yaml_files_are_skipped (H : Host) (s : MacrosPlugin)
    (d : string) :
  res (Plugin.project_dir H s) = inr d ->
  Forall (names_missing_file H d) (include_yaml (config s)) ->
  Plugin._load_yaml H s = Outcome (inr tt) s [].
Proof.
  intros Hd Hall. rewrite load_yaml_loop. now apply (skip_missing_files H s d).
Qed.

(** A configuration that lists the files [l]. *)
Definition including (l : list yaml_include) : PluginConfig :=
  {| module_name := DEFAULT_MODULE_NAME; modules := [];
     render_by_default := true; include_dir := ""; include_yaml := l;
     j2_block_start_string := ""; j2_block_end_string := "";
     j2_variable_start_string := ""; j2_variable_end_string := "";
     on_undefined := DEFAULT_UNDEFINED_BEHAVIOR; on_error_fail := false;
     verbose := false; other_options := [] |}.

(** The host of the examples, on a disk that has no file. *)
Definition host_without_files : Host :=
  {| invoke := invoke Site.host;
     template_render := template_render Site.host;
     context_define_env := context_define_env Site.host;
     jinja2_Environment := jinja2_Environment Site.host;
     DEFAULT_NAMESPACE := ∅;
     DEFAULT_FILTERS := ∅;
     isfile := fun _ => false;
     isdir := isdir Site.host;
     path_join := path_join Site.host;
     dirname_abspath := dirname_abspath Site.host;
     yaml_load := yaml_load Site.host;
     parse_package := parse_package Site.host;
     install_package := install_package Site.host;
     import_local_module := import_local_module Site.host |}.

Lemma missing_yaml_files_are_skipped_witness :
  let s := set_conf (Some 0)
             (Site.created (including [IncFile "a.yml"; IncDict [("b", "b.yml")]])) in
  Plugin._load_yaml host_without_files s = Outcome (inr tt) s [].
Proof.
  intros s.
  apply (missing_yaml_files_are_skipped host_without_files s "/site").
  - vm_compute. reflexivity.
  - repeat constructor; eexists; (split; [reflexivity | reflexivity]).
Defined.

(** X5.  An entry of [include_yaml] that is a dictionary with no pair, or
    with more than one, makes [_load_yaml] raise [ValueError] when its turn
    comes: the files listed after it are not read.  (Here the files listed
    before it do not exist, so that the instance is as before.) *)
Theorem ill_formed_yaml_entry (H : Host) (s : MacrosPlugin) (d : string)
    (before rest : list yaml_include) (entries : list (string * string)) :
  res (Plugin.project_dir H s) = inr d ->
  include_yaml (config s) = (before ++ IncDict entries :: rest)%list ->
  Forall (names_missing_file H d) before ->
  length entries <> 1%nat ->
  let o := Plugin._load_yaml H s in
  raises o ValueError /\ st o = s /\ log o = [].
Proof.
  intros Hd Hinc Hall Hlen o. subst o. rewrite load_yaml_loop, Hinc.
  rewrite (for_each_app _ _ _ _ _ _ (skip_missing_files H s d before Hd Hall)).
  rewrite prepend_nil. cbn [for_each].
  assert (E : load_yaml_entry H (IncDict entries) s
              = Outcome (inl (Exn ValueError
                                (PStr "wrong number of values to unpack"))) s []).
  { unfold load_yaml_entry.
    destruct entries as [|[k f] [|? ?]]; simpl in Hlen; try lia; reflexivity. }
  rewrite (bind_inl _ _ _ _ _ _ E). simpl.
  split; [eexists; reflexivity | now split].
Qed.

Lemma ill_formed_yaml_entry_witness :
  let s := set_conf (Some 0)
             (Site.created (including [IncFile "a.yml";
                                       IncDict [("b", "b.yml"); ("c", "c.yml")];
                                       IncFile "d.yml"])) in
  raises (Plugin._load_yaml host_without_files s) ValueError.
Proof.
  intros s.
  refine (proj1 (ill_formed_yaml_entry host_without_files s "/site"
                   [IncFile "a.yml"] [IncFile "d.yml"]
                   [("b", "b.yml"); ("c", "c.yml")] _ _ _ _)).
  - vm_compute. reflexivity.
  - reflexivity.
  - repeat constructor. eexists. split; reflexivity.
  - simpl. lia.
Defined.

(** ** What loading a module registers *)

(** The list [l] with the function [hook] at its end, when the module has
    one. *)
Definition with_hook (l : list callable) (hook : option callable)
    : list callable :=
  match hook with
  | Some func => (l ++ [func])%list
  | None => l
  end.

(** The three lists of functions, each with the function that the module
    has for it. *)
Definition with_hooks_of (module : PyModule) (pre post build : list callable)
    (s : MacrosPlugin) : MacrosPlugin :=
  set_post_build_functions (Some (with_hook build (on_post_build module)))
    (set_post_macro_functions (Some (with_hook post (on_post_page_macros module)))
       (set_pre_macro_functions (Some (with_hook pre (on_pre_page_macros module)))
          s)).

Lemma run_add_hooks (H : Host) (module : PyModule) pre post build s :
  _pre_macro_functions s = Some pre -> _post_macro_functions s = Some post ->
  _post_build_functions s = Some build ->
  (Plugin.add_function (on_pre_page_macros module) Plugin.pre_macro_functions
     set_pre_macro_functions ;;;
   Plugin.add_function (on_post_page_macros module) Plugin.post_macro_functions
     set_post_macro_functions ;;;
   Plugin.add_function (on_post_build module) Plugin.post_build_functions
     set_post_build_functions) s
  = Outcome (inr tt) (with_hooks_of module pre post build s) [].
Proof.
  intros Hpre Hpost Hbuild. unfold Plugin.add_function, with_hooks_of.
  unfold Plugin.pre_macro_functions, Plugin.post_macro_functions,
    Plugin.post_build_functions.
  rewrite !bind_assoc, bind_get, Hpre, bind_ret.
  destruct (on_pre_page_macros module) as [f1|];
    [rewrite bind_modify | rewrite bind_ret];
    rewrite !bind_assoc, bind_get; norm; rewrite Hpost, bind_ret;
    (destruct (on_post_page_macros module) as [f2|];
     [rewrite bind_modify | rewrite bind_ret]);
    rewrite !bind_assoc, bind_get; norm; rewrite Hbuild, bind_ret;
    (destruct (on_post_build module) as [f3|]); unfold modify, ret; simpl;
    f_equal; apply state_ext; norm; congruence.
Qed.

Lemma run_load_module (H : Host) s module module_name d f :
  res (Plugin.project_dir H s) = inr d ->
  define_env module = Some f -> declare_variables module = None ->
  Plugin._load_module H (Some module) module_name s =
  match invoke H f s with
  | (inr tt, s1) =>
      prepend [Called f]
        ((Plugin.add_function (on_pre_page_macros module)
            Plugin.pre_macro_functions set_pre_macro_functions ;;;
          Plugin.add_function (on_post_page_macros module)
            Plugin.post_macro_functions set_post_macro_functions ;;;
          Plugin.add_function (on_post_build module)
            Plugin.post_build_functions set_post_build_functions) s1)
  | (inl e, s1) => Outcome (inl e) s1 [Called f]
  end.
Proof.
  intros Hd Hdef Hdecl. unfold Plugin._load_module.
  rewrite bind_project_dir, Hd, Hdef, Hdecl.
  unfold Plugin.call. rewrite !bind_assoc, bind_tell.
  destruct (invoke H f s) as [[e|[]] s1] eqn:Hf.
  - rewrite (bind_inl _ _ _ e s1 []) by (unfold lift; now rewrite Hf).
    reflexivity.
  - rewrite (bind_lift _ _ _ tt) by now rewrite Hf.
    rewrite Hf. cbn [snd]. rewrite !bind_ret. cbn [negb]. reflexivity.
Qed.

(** X6.  A module that has [define_env] and no [declare_variables]:
    [_load_module] calls [define_env] once, on the instance as it is, and
    then adds each of the functions [on_pre_page_macros],
    [on_post_page_macros] and [on_post_build] that the module has at the
    end of its list; the lists are read after [define_env] has run.  When
    [define_env] raises, the exception goes through and no function is
    added. *)
Theorem load_module_registers_hooks (H : Host) (s : MacrosPlugin)
    (module : PyModule) (module_name d : string) (f : callable) :
  res (Plugin.project_dir H s) = inr d ->
  define_env module = Some f -> declare_variables module = None ->
  let o := Plugin._load_module H (Some module) module_name s in
  (forall s1 pre post build,
     invoke H f s = (inr tt, s1) ->
     _pre_macro_functions s1 = Some pre ->
     _post_macro_functions s1 = Some post ->
     _post_build_functions s1 = Some build ->
     o = Outcome (inr tt) (with_hooks_of module pre post build s1) [Called f]) /\
  (forall e s1, invoke H f s = (inl e, s1) ->
     o = Outcome (inl e) s1 [Called f]).
Proof.
  intros Hd Hdef Hdecl o. subst o.
  rewrite (run_load_module H s module module_name d f Hd Hdef Hdecl).
  split.
  - intros s1 pre post build Hf Hpre Hpost Hbuild. rewrite Hf.
    now rewrite (run_add_hooks H module pre post build s1 Hpre Hpost Hbuild).
  - intros e s1 Hf. now rewrite Hf.
Qed.

(** The instance of the examples once [on_config] has stored the
    configuration of the site and [_load_modules] has emptied the lists of
    functions. *)
Definition loading (c : PluginConfig) : MacrosPlugin :=
  set_post_build_functions (Some [])
    (set_post_macro_functions (Some [])
       (set_pre_macro_functions (Some [])
          (set_conf (Some 0) (Site.created c)))).

Lemma load_module_registers_hooks_witness :
  let module :=
    {| define_env := Some Site.f_define; declare_variables := None;
       on_pre_page_macros := Some Site.f_pre;
       on_post_page_macros := None; on_post_build := None |} in
  let o := Plugin._load_module Site.host (Some module) "main"
             (loading default_config) in
  _pre_macro_functions (st o) = Some [Site.f_pre] /\
  _post_macro_functions (st o) = Some [] /\
  log o = [Called Site.f_define].
Proof.
  intros module o.
  assert (Hd : res (Plugin.project_dir Site.host (loading default_config))
               = inr "/site") by (vm_compute; reflexivity).
  destruct (load_module_registers_hooks Site.host (loading default_config)
              module "main" "/site" Site.f_define Hd eq_refl eq_refl)
    as [Hok _].
  specialize (Hok (loading default_config) [] [] []
                eq_refl eq_refl eq_refl eq_refl).
  fold o in Hok. rewrite Hok. repeat split.
Defined.

(** ** The modules of [modules] *)

(** The instance once [_load_modules] has emptied the three lists. *)
Definition reset_hooks (s : MacrosPlugin) : MacrosPlugin :=
  set_post_build_functions (Some [])
    (set_post_macro_functions (Some [])
       (set_pre_macro_functions (Some []) s)).

(** The body of the loop of [_load_modules], for one name of [modules]. *)
Definition load_pluglet (H : Host) (m : string) : M unit :=
  let source_name := (parse_package H m).1 in
  let module_name := (parse_package H m).2 in
  module <- try_except (Plugin.import_module module_name) [ModuleNotFoundError]
    (fun _ =>
       try_except
         (lift (install_package H source_name) ;;;
          Plugin.import_module module_name)
         [NameError; ModuleNotFoundError]
         (fun _ => raise ModuleNotFoundError
            (PStr ("Could not import installed module '" ++ module_name
                   ++ "' (missing?)")))) ;;
  Plugin._load_module H (Some module) module_name.

Lemma load_named_modules_loop (H : Host) s :
  Plugin.load_named_modules H s
  = for_each (modules (config s)) (load_pluglet H) (reset_hooks s).
Proof.
  unfold Plugin.load_named_modules. now rewrite !bind_modify, bind_get.
Qed.

Lemma run_import_module s name :
  Plugin.import_module name s =
  match importable s !! name with
  | Some m => Outcome (inr m) s []
  | None => Outcome (inl (Exn ModuleNotFoundError (PStr name))) s []
  end.
Proof.
  unfold Plugin.import_module. rewrite bind_get.
  now destruct (importable s !! name).
Qed.

(** X7.  A name of [modules] that cannot be imported: the package is
    installed and the import tried again.  When the installation raises
    [NameError] or [ModuleNotFoundError], or when the module still cannot
    be imported, [_load_modules] raises [ModuleNotFoundError] with a
    message that names the module; another exception of the installation
    goes through as it is.  In each case nothing of the modules listed
    after it is loaded. *)
Theorem pluglet_that_cannot_be_imported (H : Host) (s : MacrosPlugin)
    (m : string) (rest : list string) :
  modules (config s) = m :: rest ->
  importable s !! (parse_package H m).2 = None ->
  let source_name := (parse_package H m).1 in
  let module_name := (parse_package H m).2 in
  let not_found :=
    Exn ModuleNotFoundError
      (PStr ("Could not import installed module '" ++ module_name
             ++ "' (missing?)")) in
  let o := Plugin._load_modules H s in
  (forall e s1, install_package H source_name (reset_hooks s) = (inl e, s1) ->
     exn_type e = NameError \/ exn_type e = ModuleNotFoundError ->
     o = Outcome (inl not_found) s1 []) /\
  (forall e s1, install_package H source_name (reset_hooks s) = (inl e, s1) ->
     exn_type e <> NameError -> exn_type e <> ModuleNotFoundError ->
     o = Outcome (inl e) s1 []) /\
  (forall s1, install_package H source_name (reset_hooks s) = (inr tt, s1) ->
     importable s1 !! module_name = None ->
     o = Outcome (inl not_found) s1 []).
Proof.
  intros Hm Himp source_name module_name not_found o.
  assert (Eo : forall e s1,
    try_except
      (lift (install_package H source_name) ;;;
       Plugin.import_module module_name)
      [NameError; ModuleNotFoundError]
      (fun _ => raise ModuleNotFoundError
         (PStr ("Could not import installed module '" ++ module_name
                ++ "' (missing?)"))) (reset_hooks s)
    = Outcome (inl e) s1 [] ->
    o = Outcome (inl e) s1 []).
  { intros e s1 E. subst o. unfold Plugin._load_modules.
    rewrite (bind_inl _ _ _ e s1 []); [reflexivity|].
    rewrite load_named_modules_loop, Hm. cbn [for_each].
    rewrite (bind_inl _ _ _ e s1 []); [reflexivity|].
    unfold load_pluglet. fold source_name module_name.
    rewrite (bind_inl _ _ _ e s1 []); [reflexivity|].
    rewrite (try_except_caught _ _ _ _ (Exn ModuleNotFoundError (PStr module_name))
               (reset_hooks s) []).
    - now rewrite prepend_nil.
    - rewrite run_import_module. unfold reset_hooks. norm.
      fold module_name in Himp. now rewrite Himp.
    - reflexivity. }
  split; [|split].
  - intros e s1 Hi Hc. apply Eo.
    rewrite (try_except_caught _ _ _ _ e s1 []).
    + reflexivity.
    + rewrite (bind_inl _ _ _ e s1 []); [reflexivity|].
      unfold lift. now rewrite Hi.
    + simpl. destruct Hc as [-> | ->]; reflexivity.
  - intros e s1 Hi Hn1 Hn2. apply Eo.
    apply try_except_passed.
    + rewrite (bind_inl _ _ _ e s1 []); [reflexivity|].
      unfold lift. now rewrite Hi.
    + simpl. unfold issubclass.
      rewrite !decide_False by assumption.
      now destruct (exn_type e).
  - intros s1 Hi Hstill. apply Eo.
    rewrite (try_except_caught _ _ _ _ (Exn ModuleNotFoundError (PStr module_name))
               s1 []).
    + reflexivity.
    + rewrite (bind_lift _ _ _ tt) by now rewrite Hi.
      rewrite Hi. cbn [snd]. rewrite run_import_module. now rewrite Hstill.
    + reflexivity.
Qed.

(** A configuration that lists the modules [ms]. *)
Definition with_modules (ms : list string) : PluginConfig :=
  {| module_name := DEFAULT_MODULE_NAME; modules := ms;
     render_by_default := true; include_dir := ""; include_yaml := [];
     j2_block_start_string := ""; j2_block_end_string := "";
     j2_variable_start_string := ""; j2_variable_end_string := "";
     on_undefined := DEFAULT_UNDEFINED_BEHAVIOR; on_error_fail := false;
     verbose := false; other_options := [] |}.

Lemma pluglet_that_cannot_be_imported_witness :
  let s := set_conf (Some 0)
             (Site.created (with_modules ["mkdocs-macros-test"; "other"])) in
  raises (Plugin._load_modules Site.host s) ModuleNotFoundError /\
  log (Plugin._load_modules Site.host s) = [].
Proof.
  intros s.
  destruct (pluglet_that_cannot_be_imported Site.host s "mkdocs-macros-test"
              ["other"] eq_refl eq_refl) as (Hinstall & _ & _).
  rewrite (Hinstall (Exn NameError PNone) (reset_hooks s) eq_refl
             (or_introl eq_refl)).
  split; [eexists; reflexivity | reflexivity].
Defined.

(** ** The order of the registered functions *)

(** Extension functions that run to their end and leave alone what the
    loading of modules reads: the configuration of the plugin, the modules
    that can be imported, the three lists, and the directory of the
    project. *)
Record steady (H : Host) : Prop := {
  steady_invoke : forall f s, exists s',
    invoke H f s = (inr tt, s') /\
    config s' = config s /\ importable s' = importable s /\
    _pre_macro_functions s' = _pre_macro_functions s /\
    _post_macro_functions s' = _post_macro_functions s /\
    _post_build_functions s' = _post_build_functions s /\
    res (Plugin.project_dir H s') = res (Plugin.project_dir H s)
}.

Lemma getitem_heap d key s s' :
  heap s' = heap s -> res (getitem d key s') = res (getitem d key s).
Proof.
  intros Hh. unfold getitem, as_dict, deref.
  destruct d as [| | | | |l]; try reflexivity.
  rewrite !bind_assoc, !bind_get, Hh.
  destruct (heap s !! l) as [[x|?|?]|]; try reflexivity.
  rewrite !bind_ret. simpl. now destruct (x !! key).
Qed.

Lemma project_dir_heap (H : Host) s s' :
  heap s' = heap s -> _conf s' = _conf s ->
  res (Plugin.project_dir H s') = res (Plugin.project_dir H s).
Proof.
  intros Hh Hc. unfold Plugin.project_dir, Plugin.conf.
  rewrite !bind_assoc, !bind_get, Hc.
  destruct (_conf s) as [l|]; [|reflexivity].
  rewrite !bind_ret.
  pose proof (getitem_heap (PRef l) "config_file_path" s s' Hh) as Eg.
  pose proof (getitem_pure (PRef l) "config_file_path" s) as E1.
  pose proof (getitem_pure (PRef l) "config_file_path" s') as E2.
  rewrite Eg in E2.
  destruct (res (getitem (PRef l) "config_file_path" s)) as [e|v].
  - now rewrite (bind_inl _ _ _ _ _ _ E1), (bind_inl _ _ _ _ _ _ E2).
  - rewrite (bind_inr _ _ _ _ _ _ E1), (bind_inr _ _ _ _ _ _ E2).
    rewrite !prepend_nil. now destruct v.
Qed.

(** The functions of one kind that the modules [mods] have, in order. *)
Definition hooks_of (hook : PyModule -> option callable) (mods : list PyModule)
    : list callable :=
  omap hook mods.

Lemma with_hook_hooks_of hook l md :
  with_hook l (hook md) = (l ++ hooks_of hook [md])%list.
Proof.
  unfold with_hook, hooks_of. simpl.
  destruct (hook md); [reflexivity | now rewrite app_nil_r].
Qed.

(** What loading reads is the same in [s'] as in [s]. *)
Definition same_setup (H : Host) (s s' : MacrosPlugin) : Prop :=
  config s' = config s /\ importable s' = importable s /\
  res (Plugin.project_dir H s') = res (Plugin.project_dir H s).

Lemma load_one_module (H : Host) s md name d pre post build :
  steady H ->
  res (Plugin.project_dir H s) = inr d ->
  define_env md <> None -> declare_variables md = None ->
  _pre_macro_functions s = Some pre -> _post_macro_functions s = Some post ->
  _post_build_functions s = Some build ->
  exists s',
    Plugin._load_module H (Some md) name s
      = Outcome (inr tt) s' (map Called (hooks_of define_env [md])) /\
    same_setup H s s' /\
    _pre_macro_functions s'
      = Some (pre ++ hooks_of on_pre_page_macros [md])%list /\
    _post_macro_functions s'
      = Some (post ++ hooks_of on_post_page_macros [md])%list /\
    _post_build_functions s'
      = Some (build ++ hooks_of on_post_build [md])%list.
Proof.
  intros St Hd Hdef Hdecl Hpre Hpost Hbuild.
  destruct (define_env md) as [f|] eqn:Ef; [|congruence].
  destruct (steady_invoke H St f s)
    as (s1 & Hf & Hc & Hi & H1 & H2 & H3 & Hp).
  rewrite (run_load_module H s md name d f Hd Ef Hdecl), Hf.
  rewrite (run_add_hooks H md pre post build s1)
    by (rewrite ?H1, ?H2, ?H3; assumption).
  exists (with_hooks_of md pre post build s1).
  split; [unfold hooks_of; simpl; now rewrite Ef|].
  split; [|unfold with_hooks_of; norm; now rewrite !with_hook_hooks_of].
  split; [exact Hc|]. split; [exact Hi|].
  rewrite <- Hp. now apply project_dir_heap.
Qed.

Lemma load_pluglets (H : Host) (ms : list string) (mods : list PyModule) :
  steady H ->
  Forall (fun md => define_env md <> None /\ declare_variables md = None) mods ->
  forall s d pre post build,
    res (Plugin.project_dir H s) = inr d ->
    Forall2 (fun m md => importable s !! (parse_package H m).2 = Some md)
      ms mods ->
    _pre_macro_functions s = Some pre -> _post_macro_functions s = Some post ->
    _post_build_functions s = Some build ->
    exists s',
      for_each ms (load_pluglet H) s
        = Outcome (inr tt) s' (map Called (hooks_of define_env mods)) /\
      same_setup H s s' /\
      _pre_macro_functions s'
        = Some (pre ++ hooks_of on_pre_page_macros mods)%list /\
      _post_macro_functions s'
        = Some (post ++ hooks_of on_post_page_macros mods)%list /\
      _post_build_functions s'
        = Some (build ++ hooks_of on_post_build mods)%list.
Proof.
  intros St Hmods. revert ms.
  induction Hmods as [|md mods [Hdef Hdecl] _ IH];
    intros ms s d pre post build Hd Himp Hpre Hpost Hbuild.
  - apply Forall2_nil_inv_r in Himp as ->.
    exists s. simpl. rewrite !app_nil_r. repeat split; assumption.
  - apply Forall2_cons_inv_r in Himp as (m & ms' & Hm & Himp & ->).
    destruct (load_one_module H s md (parse_package H m).2 d pre post build
                St Hd Hdef Hdecl Hpre Hpost Hbuild)
      as (s1 & E1 & (Hc1 & Hi1 & Hp1) & P1 & P2 & P3).
    assert (Himp1 : Forall2
              (fun m md => importable s1 !! (parse_package H m).2 = Some md)
              ms' mods) by now rewrite Hi1.
    destruct (IH ms' s1 d _ _ _ (eq_trans Hp1 Hd) Himp1 P1 P2 P3)
      as (s2 & E2 & (Hc2 & Hi2 & Hp2) & Q1 & Q2 & Q3).
    exists s2. split; [|split; [|split; [|split]]].
    + cbn [for_each]. unfold load_pluglet at 1. cbv zeta.
      rewrite bind_assoc.
      rewrite (bind_inr _ _ _ md s []), prepend_nil
        by (apply try_except_inr; rewrite run_import_module; now rewrite Hm).
      rewrite (bind_inr _ _ _ _ _ _ E1), E2.
      unfold prepend, hooks_of. simpl.
      destruct (define_env md); reflexivity.
    + split; [congruence|]. split; congruence.
    + rewrite Q1, <- app_assoc. unfold hooks_of. simpl.
      now destruct (on_pre_page_macros md).
    + rewrite Q2, <- app_assoc. unfold hooks_of. simpl.
      now destruct (on_post_page_macros md).
    + rewrite Q3, <- app_assoc. unfold hooks_of. simpl.
      now destruct (on_post_build md).
Qed.

(** X8.  With extension functions that run to their end and leave the
    lists alone, [_load_modules] starts from empty lists, whatever they
    held, and registers the functions of the modules in the order of
    [modules], those of the local module last: each list holds, in that
    order, the functions that the modules have for it, and [define_env] of
    each module is called once, in the same order.  (The modules are those
    with [define_env] and no [declare_variables].) *)
Theorem hooks_are_registered_in_order (H : Host) (s : MacrosPlugin)
    (d : string) (mods : list PyModule) (local : option PyModule) :
  steady H ->
  res (Plugin.project_dir H s) = inr d ->
  Forall2 (fun m md => importable s !! (parse_package H m).2 = Some md)
    (modules (config s)) mods ->
  import_local_module H d (module_name (config s)) = local ->
  (local = None -> module_name (config s) = DEFAULT_MODULE_NAME) ->
  Forall (fun md => define_env md <> None /\ declare_variables md = None)
    (mods ++ option_list local)%list ->
  let loaded := (mods ++ option_list local)%list in
  let o := Plugin._load_modules H s in
  res o = inr tt /\
  _pre_macro_functions (st o) = Some (hooks_of on_pre_page_macros loaded) /\
  _post_macro_functions (st o) = Some (hooks_of on_post_page_macros loaded) /\
  _post_build_functions (st o) = Some (hooks_of on_post_build loaded) /\
  log o = map Called (hooks_of define_env loaded).
Proof.
  intros St Hd Himp Hlocal Hmain Hall loaded o.
  apply Forall_app in Hall as [Hmods Hloc].
  assert (Hd0 : res (Plugin.project_dir H (reset_hooks s)) = inr d)
    by (rewrite <- Hd; now apply project_dir_heap).
  destruct (load_pluglets H (modules (config s)) mods St Hmods
              (reset_hooks s) d [] [] [] Hd0 Himp eq_refl eq_refl eq_refl)
    as (s1 & E1 & (Hc1 & Hi1 & Hp1) & P1 & P2 & P3).
  simpl in P1, P2, P3.
  assert (Hd1 : res (Plugin.project_dir H s1) = inr d) by congruence.
  assert (Eo : o = prepend (map Called (hooks_of define_env mods))
                     (Plugin.load_local_module H s1)).
  { subst o. unfold Plugin._load_modules.
    rewrite (bind_inr _ _ _ tt s1 (map Called (hooks_of define_env mods)));
      [reflexivity|].
    now rewrite load_named_modules_loop. }
  assert (El : Plugin.load_local_module H s1 =
               match local with
               | Some md => Plugin._load_module H local (module_name (config s)) s1
               | None => Outcome (inr tt) s1 []
               end).
  { unfold Plugin.load_local_module.
    rewrite bind_get, !bind_project_dir, Hd1, Hc1. unfold reset_hooks. norm.
    rewrite Hlocal. destruct local as [md|].
    - now rewrite bind_project_dir, Hd1.
    - now rewrite (Hmain eq_refl). }
  subst loaded. unfold hooks_of in *. rewrite !omap_app.
  destruct local as [md|].
  - apply Forall_singleton in Hloc as [Hdef Hdecl].
    destruct (load_one_module H s1 md (module_name (config s)) d _ _ _
                St Hd1 Hdef Hdecl P1 P2 P3)
      as (s2 & E2 & _ & Q1 & Q2 & Q3).
    rewrite Eo, El, E2. unfold prepend, hooks_of in *. simpl.
    rewrite Q1, Q2, Q3, map_app. repeat split.
  - rewrite Eo, El. unfold prepend. simpl.
    rewrite P1, P2, P3, !app_nil_r. repeat split.
Qed.

Lemma host_with_steady on_text : steady (Site.host_with on_text).
Proof.
  split. intros f s. unfold Site.host_with at 1. cbn [invoke].
  destruct (_markdown s) as [t|] eqn:E.
  - eexists. split; [reflexivity|]. repeat split.
    now apply project_dir_heap.
  - exists s. repeat split.
Qed.

(** Two modules of [modules], each with functions of its own. *)
Definition pluglet_a : PyModule :=
  {| define_env := Some (Callable 10 (Some "define_env"));
     declare_variables := None;
     on_pre_page_macros := Some (Callable 11 (Some "on_pre_page_macros"));
     on_post_page_macros := None;
     on_post_build := Some (Callable 12 (Some "on_post_build")) |}.

Definition pluglet_b : PyModule :=
  {| define_env := Some (Callable 20 (Some "define_env"));
     declare_variables := None;
     on_pre_page_macros := Some (Callable 21 (Some "on_pre_page_macros"));
     on_post_page_macros := Some (Callable 22 (Some "on_post_page_macros"));
     on_post_build := None |}.

Lemma hooks_are_registered_in_order_witness :
  let s := set_pre_macro_functions (Some [Site.f_pre])
             (set_conf (Some 0)
                (new_plugin (with_modules ["a"; "b"])
                   [Site.mkdocs_config; ODict ∅]
                   (<["a" := pluglet_a]> (<["b" := pluglet_b]> ∅)))) in
  let o := Plugin._load_modules Site.host s in
  _pre_macro_functions (st o)
    = Some [Callable 11 (Some "on_pre_page_macros");
            Callable 21 (Some "on_pre_page_macros")] /\
  log o = [Called (Callable 10 (Some "define_env"));
           Called (Callable 20 (Some "define_env"))].
Proof.
  intros s o.
  assert (Hd : res (Plugin.project_dir Site.host s) = inr "/site")
    by (vm_compute; reflexivity).
  assert (Himp : Forall2
            (fun m md => importable s !! (parse_package Site.host m).2 = Some md)
            (modules (config s)) [pluglet_a; pluglet_b]).
  { repeat constructor. }
  assert (Hall : Forall
            (fun md => define_env md <> None /\ declare_variables md = None)
            ([pluglet_a; pluglet_b] ++ option_list None)%list).
  { repeat constructor; discriminate. }
  destruct (hooks_are_registered_in_order Site.host s "/site"
              [pluglet_a; pluglet_b] None (host_with_steady _) Hd Himp
              eq_refl (fun _ => eq_refl) Hall)
    as (_ & Hpre & _ & _ & Hlog).
  split; [exact Hpre | exact Hlog].
Defined.

(** ** Rendering outside of a page *)

Lemma run_process_meta_variables_no_page s lv dv :
  _variables s = Some lv -> dict_at s lv dv -> dv !! "page" = None ->
  Plugin.process_meta_variables s =
  Outcome (inr (if render_by_default (config s)
                then Some (PRef (length (heap s))) else None))
    (set_heap (heap s ++ [ODict dv; ODict ∅])%list s) [].
Proof.
  intros Hv Hdv Hp. unfold Plugin.process_meta_variables.
  rewrite (bind_variables _ _ lv Hv).
  rewrite (bind_inr _ _ _ _ _ _ (run_copy _ _ _ Hdv)), prepend_nil.
  set (s1 := set_heap _ s). set (pv := length (heap s)).
  assert (Hdv1 : dict_at s1 lv dv) by now apply dict_at_alloc.
  assert (Ebody :
    (v <- Plugin.variables ;; p <- getitem v "page" ;; Plugin.getattr_meta p) s1
    = Outcome (inl (Exn KeyError (PStr "page"))) s1 []).
  { rewrite (bind_variables _ _ lv) by exact Hv.
    rewrite (bind_inl _ _ _ (Exn KeyError (PStr "page")) s1 []); [reflexivity|].
    now rewrite (run_getitem _ _ _ _ Hdv1), Hp. }
  rewrite (bind_inr _ _ _ (PRef (length (heap s1)))
             (set_heap (heap s1 ++ [ODict ∅])%list s1) []).
  2: { rewrite (try_except_caught _ _ _ _ _ _ _ Ebody) by reflexivity.
       now rewrite bind_alloc. }
  rewrite prepend_nil.
  set (s2 := set_heap _ s1).
  assert (Hm2 : dict_at s2 (length (heap s1)) ∅) by apply dict_at_new.
  unfold truthy. rewrite bind_assoc.
  rewrite (bind_inr _ _ _ _ _ _ (run_deref _ _ _ Hm2)), prepend_nil, bind_ret.
  rewrite bool_decide_true by reflexivity. cbn [negb].
  rewrite bind_ret, bind_get. cbn [fst snd py_eq_bool orb].
  replace (render_by_default (config s2)) with (render_by_default (config s))
    by reflexivity.
  destruct (render_by_default (config s)); cbn [negb].
  - assert (Hpv2 : dict_at s2 pv dv).
    { subst s2. apply dict_at_alloc. apply dict_at_new. }
    rewrite (bind_inr _ _ _ _ _ _ (run_dict_update _ _ _ _ _ Hpv2 Hm2)),
      prepend_nil.
    unfold ret. f_equal. apply state_ext; norm; try reflexivity.
    rewrite (left_id_L ∅ (∪)). subst s2 s1 pv. norm.
    rewrite <- app_assoc. simpl.
    apply list_insert_id. rewrite lookup_app_r by lia.
    now rewrite Nat.sub_diag.
  - unfold ret. f_equal. apply state_ext; norm; try reflexivity.
    subst s2 s1. norm. now rewrite <- app_assoc.
Qed.

(** X9.  [render] called when the variables have no entry [page], before
    any page is processed: the metadata count as empty, so that
    [render_by_default] alone decides.  Without it the text is returned
    as it is; with it the text is handed to the template engine with a
    copy of the variables, and nothing more. *)
Theorem render_before_any_page (H : Host) (s : MacrosPlugin) (lv : loc)
    (dv : gmap string pyval) (text : string) :
  _variables s = Some lv -> dict_at s lv dv -> dv !! "page" = None ->
  let s1 := set_heap (heap s ++ [ODict dv; ODict ∅])%list s in
  let pv := length (heap s) in
  dict_at s1 pv dv /\ dict_at s1 lv dv /\ pv <> lv /\
  Plugin.render H text s =
  if render_by_default (config s)
  then Plugin.expand_template H text (PRef pv) s1
  else Outcome (inr text) s1 [].
Proof.
  intros Hv Hdv Hp s1 pv.
  pose proof (dict_at_lt _ _ _ Hdv) as Hlt.
  split; [|split; [|split]].
  - unfold dict_at. subst s1 pv. norm. rewrite lookup_app_r by lia.
    now rewrite Nat.sub_diag.
  - unfold dict_at. subst s1. norm. now apply lookup_app_l_Some.
  - subst pv. lia.
  - unfold Plugin.render.
    rewrite (bind_inr _ _ _ _ _ _
               (run_process_meta_variables_no_page s lv dv Hv Hdv Hp)),
      prepend_nil.
    now destruct (render_by_default (config s)).
Qed.

(** An instance after [on_config] that has not seen a page yet. *)
Definition before_pages (c : PluginConfig) : MacrosPlugin :=
  {| config := c;
     heap := [ ODict (<["site_name" := PStr "Docs"]> ∅); ODict ∅; ODict ∅ ];
     importable := ∅;
     _conf := None; _variables := Some 0; _macros := None;
     _filters := None; _page := None; _markdown := None;
     _pre_macro_functions := Some []; _post_macro_functions := Some [];
     _post_build_functions := Some [];
     env := Some {| env_options := env_options Site.the_env; env_globals := 1; env_filters := 2 |} |}.

Lemma render_before_any_page_witness :
  res (Plugin.render Site.host "Home" (before_pages (Site.options false false)))
    = inr "Home" /\
  res (Plugin.render Site.host "Home" (before_pages (Site.options true false)))
    = inr "[Home]".
Proof.
  split.
  - destruct (render_before_any_page Site.host
                (before_pages (Site.options false false)) 0
                (<["site_name" := PStr "Docs"]> ∅) "Home"
                eq_refl eq_refl eq_refl) as (_ & _ & _ & E).
    now rewrite E.
  - destruct (render_before_any_page Site.host
                (before_pages (Site.options true false)) 0
                (<["site_name" := PStr "Docs"]> ∅) "Home"
                eq_refl eq_refl eq_refl) as (_ & _ & _ & E).
    rewrite E. vm_compute. reflexivity.
Defined.

(** ** Errors of the template engine that [render] does not handle *)

Lemma run_template_body (H : Host) s text pv kw e r s' :
  env s = Some e -> dict_at s pv kw ->
  template_render H e text kw s = (r, s') ->
  (e0 <- Plugin.get_env ;; kw0 <- as_dict (PRef pv) ;;
   tell (Evaluated text) ;;; lift (template_render H e0 text kw0.2)) s
  = Outcome r s' [Evaluated text].
Proof.
  intros He Hkw Hr. rewrite (bind_get_env _ _ e He).
  rewrite (bind_inr _ _ _ _ _ _ (run_as_dict _ _ _ Hkw)), prepend_nil.
  rewrite bind_tell. unfold lift, prepend. simpl. now rewrite Hr.
Qed.

(** X10.  An exception of the template engine that does not derive from
    [Exception] ([KeyboardInterrupt], [SystemExit]) goes through [render]
    as it is, with or without [on_error_fail]: no diagnostic is made, and
    the page is not looked at. *)
Theorem render_lets_base_exceptions_through (H : Host) (s s' : MacrosPlugin)
    (text : string) (pv : loc) (kw : gmap string pyval) (e : Environment)
    (error : exn) :
  env s = Some e -> dict_at s pv kw ->
  template_render H e text kw s = (inl error, s') ->
  issubclass (exn_type error) Exception = false ->
  Plugin.expand_template H text (PRef pv) s
  = Outcome (inl error) s' [Evaluated text].
Proof.
  intros He Hkw Hr Hc. unfold Plugin.expand_template. rewrite bind_get.
  apply try_except_passed.
  - now apply (run_template_body H s text pv kw e).
  - simpl. now rewrite Hc.
Qed.

(** A host whose template engine is interrupted. *)
Definition interrupted_host : Host :=
  {| invoke := invoke Site.host;
     template_render := fun _ _ _ s => (inl (Exn KeyboardInterrupt PNone), s);
     context_define_env := context_define_env Site.host;
     jinja2_Environment := jinja2_Environment Site.host;
     DEFAULT_NAMESPACE := ∅;
     DEFAULT_FILTERS := ∅;
     isfile := isfile Site.host;
     isdir := isdir Site.host;
     path_join := path_join Site.host;
     dirname_abspath := dirname_abspath Site.host;
     yaml_load := yaml_load Site.host;
     parse_package := parse_package Site.host;
     install_package := install_package Site.host;
     import_local_module := import_local_module Site.host |}.

Lemma render_lets_base_exceptions_through_witness :
  res (Plugin.expand_template interrupted_host "{{ x }}" (PRef 0)
         (Site.ready (Site.options true false) ∅ [] []))
  = inl (Exn KeyboardInterrupt PNone).
Proof.
  now rewrite (render_lets_base_exceptions_through interrupted_host
                 (Site.ready (Site.options true false) ∅ [] []) _
                 "{{ x }}" 0 _ Site.the_env (Exn KeyboardInterrupt PNone)
                 eq_refl eq_refl eq_refl eq_refl).
Defined.

(** X11.  When the template engine raises an error while no page has been
    set, as when [render] is called for the navigation: the handler asks
    for the page to make its diagnostic, and that raises
    [AttributeError].  [render] then neither returns a diagnostic nor ends
    the build, whatever [on_error_fail] says. *)
Theorem render_error_before_any_page (H : Host) (s s' : MacrosPlugin)
    (text : string) (pv : loc) (kw : gmap string pyval) (e : Environment)
    (error : exn) :
  env s = Some e -> dict_at s pv kw ->
  template_render H e text kw s = (inl error, s') ->
  issubclass (exn_type error) Exception = true ->
  _page s' = None ->
  Plugin.expand_template H text (PRef pv) s
  = Outcome (inl (Exn AttributeError
       (PStr "Too early: page information is not availableat this stage!")))
      s' [Evaluated text].
Proof.
  intros He Hkw Hr Hc Hp. unfold Plugin.expand_template. rewrite bind_get.
  rewrite (try_except_caught _ _ _ _ _ _ _
             (run_template_body H s text pv kw e _ s' He Hkw Hr))
    by (simpl; now rewrite Hc).
  unfold Plugin.page. rewrite !bind_assoc, bind_get, Hp.
  reflexivity.
Qed.

Lemma render_error_before_any_page_witness :
  raises (Plugin.expand_template Site.host "{{ boom() }}" (PRef 0)
            (before_pages (Site.options true true))) AttributeError.
Proof.
  rewrite (render_error_before_any_page Site.host
             (before_pages (Site.options true true))
             (before_pages (Site.options true true)) "{{ boom() }}" 0
             (<["site_name" := PStr "Docs"]> ∅)
             {| env_options := env_options Site.the_env; env_globals := 1; env_filters := 2 |}
             (Exn TemplateError (PStr "'boom' is undefined"))
             eq_refl eq_refl eq_refl eq_refl eq_refl).
  eexists. reflexivity.
Defined.

(** ** What the template engine is given *)

(** X12.  A page that is rendered: the template engine is called once,
    with the text and with the variables of the site overlaid with the
    metadata of the page, a key of the metadata taking the place of the
    variable of the same name for this page only (the variables of the
    site are as before); what the engine returns is what [render]
    returns. *)
Theorem render_gives_metadata_precedence (H : Host) (s s' : MacrosPlugin)
    (lv lm : loc) (dv dmeta : gmap string pyval) (e : Environment)
    (text out : string) :
  page_in_store s lv dv lm dmeta -> env s = Some e ->
  returns_early (render_by_default (config s)) dmeta = false ->
  let s1 := set_heap (heap s ++ [ODict (dmeta ∪ dv)])%list s in
  template_render H e text (dmeta ∪ dv) s1 = (inr out, s') ->
  Plugin.render H text s = Outcome (inr out) s' [Evaluated text] /\
  dict_at s1 lv dv /\
  (forall key value, dmeta !! key = Some value ->
     (dmeta ∪ dv) !! key = Some value) /\
  (forall key, dmeta !! key = None -> (dmeta ∪ dv) !! key = dv !! key).
Proof.
  intros Hp He Hearly s1 Hr.
  pose proof (run_process_meta_variables_state s lv dv lm dmeta Hp) as E.
  cbv zeta in E. rewrite Hearly in E. fold s1 in E.
  split; [|split; [|split]].
  - unfold Plugin.render. rewrite (bind_inr _ _ _ _ _ _ E), prepend_nil.
    unfold Plugin.expand_template. rewrite bind_get.
    apply try_except_inr.
    apply (run_template_body H s1 text (length (heap s)) (dmeta ∪ dv) e);
      [exact He | apply dict_at_new | exact Hr].
  - destruct Hp as (_ & Hdv & _). now apply dict_at_alloc.
  - intros key value Hk. now apply lookup_union_Some_l.
  - intros key Hk. now apply lookup_union_r.
Qed.

Lemma render_gives_metadata_precedence_witness :
  let dmeta : gmap string pyval := <["extra" := PStr "page"]> ∅ in
  let s := Site.ready (Site.options true false) dmeta [] [] in
  res (Plugin.render Site.host "{{ extra }}" s) = inr "[{{ extra }}]" /\
  (dmeta ∪ <["page" := PRef 1]> (<["extra" := PRef 7]> ∅)) !! "extra"
    = Some (PStr "page").
Proof.
  intros dmeta s.
  assert (Hp : page_in_store s 0 (<["page" := PRef 1]> (<["extra" := PRef 7]> ∅))
                 2 dmeta).
  { split; [reflexivity|]. split; [reflexivity|].
    exists 1%nat, Site.the_page. repeat split. }
  destruct (render_gives_metadata_precedence Site.host s
              (set_heap (heap s ++ [ODict (dmeta ∪ <["page" := PRef 1]>
                                             (<["extra" := PRef 7]> ∅))])%list s)
              0 2 _ dmeta Site.the_env "{{ extra }}" "[{{ extra }}]"
              Hp eq_refl eq_refl eq_refl) as (E & _ & Hover & _).
  split; [now rewrite E|].
  apply Hover. reflexivity.
Defined.

(** ** The two flags, whatever their values *)

(** [x == True], [x == False] for the values of the embedding. *)
Lemma py_eq_bool_true x : py_eq_bool x true = true <-> x = PBool true \/ x = PInt 1.
Proof.
  destruct x as [|[]|n| | |]; simpl; split;
    try (intros [Hx|Hx]; discriminate Hx); try discriminate; try tauto.
  - intros Hn. apply Z.eqb_eq in Hn. subst. now right.
  - intros [Hx|Hx]; [discriminate Hx|]. injection Hx as ->. reflexivity.
Qed.

Lemma py_eq_bool_false x : py_eq_bool x false = true <-> x = PBool false \/ x = PInt 0.
Proof.
  destruct x as [|[]|n| | |]; simpl; split;
    try (intros [Hx|Hx]; discriminate Hx); try discriminate; try tauto.
  - intros Hn. apply Z.eqb_eq in Hn. subst. now right.
  - intros [Hx|Hx]; [discriminate Hx|]. injection Hx as ->. reflexivity.
Qed.

(** The values that the statement below is about: [None], a boolean, an
    integer or a string.  (Python also compares a float with [True] and
    [False] by value; the embedding has no float.) *)
Definition plain_value (x : pyval) : Prop :=
  match x with
  | PNone | PBool _ | PInt _ | PStr _ => True
  | PFunc _ | PRef _ => False
  end.

(** X13.  For flags of the metadata that are absent, [None], a boolean, an
    integer or a string: the flags are compared with [True] and [False]
    by value, so that the integer [1] counts as true and [0] as false, as
    in Python, while any other integer, any string and [None] count as no
    flag.  With [render_by_default] the text is returned as it is exactly
    when [ignore_macros] is true or [render_macros] is false in that
    sense; without it, exactly when neither [render_macros] is true nor
    [ignore_macros] is false. *)
Theorem flags_are_compared_by_value (s : MacrosPlugin) (lv lm : loc)
    (dv dmeta : gmap string pyval) :
  page_in_store s lv dv lm dmeta ->
  let ignore_macros := default PNone (dmeta !! "ignore_macros") in
  let render_macros := default PNone (dmeta !! "render_macros") in
  plain_value ignore_macros -> plain_value render_macros ->
  let is_true x := x = PBool true \/ x = PInt 1 in
  let is_false x := x = PBool false \/ x = PInt 0 in
  let skipped := res (Plugin.process_meta_variables s) = inr None in
  (render_by_default (config s) = true ->
     (skipped <-> is_true ignore_macros \/ is_false render_macros)) /\
  (render_by_default (config s) = false ->
     (skipped <-> ~ (is_true render_macros \/ is_false ignore_macros))).
Proof.
  intros Hp ignore_macros render_macros _ _ is_true is_false skipped.
  pose proof (run_process_meta_variables_state s lv dv lm dmeta Hp) as E.
  cbv zeta in E. subst skipped. rewrite E. cbn [res].
  unfold returns_early. fold ignore_macros render_macros.
  assert (Hnone : forall b : bool,
            inr (if b then None else Some (PRef (length (heap s))))
              = (inr None : exn + option pyval) <-> b = true).
  { intros []; split; try reflexivity; discriminate. }
  rewrite Hnone. subst is_true is_false. cbv beta.
  rewrite <- !py_eq_bool_true, <- !py_eq_bool_false.
  split; intros ->.
  - now rewrite orb_true_iff.
  - rewrite negb_true_iff, <- orb_true_iff.
    now destruct (_ || _).
Qed.

Lemma flags_are_compared_by_value_witness :
  let dmeta : gmap string pyval :=
    <["ignore_macros" := PInt 1]> (<["render_macros" := PStr "no"]> ∅) in
  res (Plugin.process_meta_variables
         (Site.ready (Site.options true false) dmeta [] [])) = inr None.
Proof.
  intros dmeta.
  set (s := Site.ready (Site.options true false) dmeta [] []).
  assert (Hp : page_in_store s 0 (<["page" := PRef 1]> (<["extra" := PRef 7]> ∅))
                 2 dmeta).
  { split; [reflexivity|]. split; [reflexivity|].
    exists 1%nat, Site.the_page. repeat split. }
  destruct (flags_are_compared_by_value s 0 2 _ dmeta Hp I I) as [Hout _].
  apply (Hout eq_refl). left. right. reflexivity.
Defined.

(** ** A page when there are no variables *)

(** X14.  [on_page_markdown] first records the page.  Then, when the
    dictionary of variables is empty, it returns the text as it is: no
    function is called, nothing is rendered, and the page is not copied
    into the variables.  Before [on_config] there are no variables to
    look at, and the call raises [AttributeError]; the page is recorded
    all the same. *)
Theorem page_without_variables (H : Host) (s : MacrosPlugin)
    (markdown' : string) (page : loc) :
  (forall lv, _variables s = Some lv -> dict_at s lv ∅) ->
  Plugin.on_page_markdown H markdown' page s =
  Outcome
    match _variables s with
    | Some _ => inr markdown'
    | None => inl (Exn AttributeError (PStr "Property called before on_config()"))
    end
    (set_page (Some page) s) [].
Proof.
  intros Hempty. unfold Plugin.on_page_markdown. rewrite bind_modify.
  unfold Plugin.variables. rewrite !bind_assoc, bind_get. norm.
  destruct (_variables s) as [lv|] eqn:Hv; [|reflexivity].
  rewrite bind_ret. unfold truthy. rewrite bind_assoc.
  rewrite (bind_inr _ _ _ _ _ _
             (run_deref (set_page (Some page) s) lv _ (Hempty lv eq_refl))),
    prepend_nil, bind_ret.
  now rewrite bool_decide_true by reflexivity.
Qed.

Lemma page_without_variables_witness :
  let s := set_variables (Some 1) (Site.created default_config) in
  let s' := set_heap [Site.mkdocs_config; ODict ∅] s in
  Plugin.on_page_markdown Site.host "# {{ title }}" 0 s'
  = Outcome (inr "# {{ title }}") (set_page (Some 0) s') [].
Proof.
  intros s s'.
  apply (page_without_variables Site.host s' "# {{ title }}" 0).
  intros lv [= <-]. reflexivity.
Defined.

(** ** The title of the page *)

Lemma run_on_page_markdown_state (H : Host) on_text eval s markdown' page lv dv
    pg lm dmeta e pre post b t2 :
  tame H on_text eval ->
  _variables s = Some lv -> dict_at s lv dv -> dv <> ∅ ->
  heap s !! page = Some (OPage pg) -> meta pg = PRef lm ->
  dict_at s lm dmeta -> lm <> lv ->
  env s = Some e ->
  _pre_macro_functions s = Some pre -> _post_macro_functions s = Some post ->
  let n := length (heap s) in
  let dv1 := <["page" := PRef n]> dv in
  let t1 := after_hooks on_text pre markdown' in
  render_result (config s) eval e pg dv1 dmeta t1 = inr b ->
  render_result (config s) eval e pg dv1 dmeta (title pg) = inr t2 ->
  let o := Plugin.on_page_markdown H markdown' page s in
  res o = inr (after_hooks on_text post b) /\
  _page (st o) = Some page /\
  _markdown (st o) = Some (after_hooks on_text post b) /\
  _variables (st o) = Some lv /\
  dict_at (st o) lv dv1 /\
  heap (st o) !! n = Some (OPage pg) /\
  heap (st o) !! page
    = Some (OPage {| title := t2; meta := meta pg; src_path := src_path pg |}) /\
  (forall l, (l < n)%nat -> l <> lv -> l <> page ->
     heap (st o) !! l = heap s !! l).
Proof.
  intros T Hv Hdv Hne Hpg Hmeta Hdm Hlm He Hpre Hpost n dv1 t1 Hr1 Hr2 o.
  pose proof (dict_at_lt _ _ _ Hdv) as Llv.
  pose proof (dict_at_lt _ _ _ Hdm) as Llm.
  assert (Lpage : (page < length (heap s))%nat) by now apply lookup_lt_Some in Hpg.
  assert (Hpl : page <> lv).
  { intros ->. unfold dict_at in Hdv. congruence. }
  subst o. unfold Plugin.on_page_markdown.
  rewrite bind_modify. set (sA := set_page (Some page) s).
  rewrite (bind_variables _ _ lv) by exact Hv.
  unfold truthy. rewrite bind_assoc.
  rewrite (bind_inr _ _ _ _ _ _ (run_deref sA _ _ Hdv)), prepend_nil, bind_ret.
  rewrite bool_decide_false by exact Hne. cbn [negb].
  rewrite (bind_inr _ _ _ _ _ _ (run_copy sA _ _ Hpg)), prepend_nil.
  set (sB := set_heap _ sA).
  change (length (heap sA)) with n.
  rewrite (bind_variables _ _ lv) by exact Hv.
  assert (HdvB : dict_at sB lv dv) by (subst sB; now apply (dict_at_alloc sA)).
  rewrite (bind_inr _ _ _ _ _ _ (run_setitem _ _ _ "page" (PRef n) HdvB)), prepend_nil.
  rewrite bind_modify.
  set (sD := set_markdown _ _).
  unfold Plugin.pre_macro_functions. rewrite bind_assoc, bind_get.
  replace (_pre_macro_functions sD) with (Some pre) by (symmetry; exact Hpre).
  rewrite bind_ret.
  rewrite (bind_inr _ _ _ _ _ _ (run_hooks H on_text eval pre sD markdown' T eq_refl)).
  fold t1.
  set (sE := set_markdown (Some t1) sD).
  rewrite (bind_inr _ _ _ _ _ _ (run_markdown sE t1 eq_refl)), prepend_nil.
  assert (HsE : page_in_store sE lv dv1 lm dmeta).
  { split; [exact Hv|]. split.
    - subst sE sD. apply (dict_at_insert_eq sB lv dv dv1 HdvB).
    - exists n, pg. split; [apply lookup_insert_eq|]. split; [|split; [exact Hmeta|]].
      + subst sE sD sB n sA. norm. rewrite list_lookup_insert_ne by lia.
        now rewrite lookup_app_r, Nat.sub_diag.
      + subst sE sD. apply dict_at_insert_ne; [congruence|].
        subst sB. now apply (dict_at_alloc sA). }
  assert (HpE : heap sE !! page = Some (OPage pg)).
  { subst sE sD sB sA. norm. rewrite list_lookup_insert_ne by congruence.
    now apply lookup_app_l_Some. }
  pose proof (run_render H on_text eval sE lv dv1 lm dmeta e page pg t1 T HsE He
                eq_refl HpE) as Er1.
  cbv zeta in Er1.
  replace (config sE) with (config s) in Er1 by reflexivity.
  rewrite Hr1 in Er1.
  rewrite (bind_inr _ _ _ _ _ _ Er1).
  set (sF := set_heap _ sE).
  unfold Plugin.markdown_setter. rewrite bind_assoc.
  rewrite (bind_inr _ _ _ _ _ _ (run_markdown sF t1 eq_refl)), prepend_nil.
  rewrite bind_modify.
  set (sG := set_markdown (Some b) sF).
  assert (HpG : heap sG !! page = Some (OPage pg)).
  { subst sG sF. norm. now apply lookup_app_l_Some. }
  rewrite (bind_inr _ _ _ _ _ _ (run_deref_page sG _ _ HpG)), prepend_nil.
  assert (HsG : page_in_store sG lv dv1 lm dmeta).
  { subst sG sF. apply page_in_store_set_markdown.
    now apply page_in_store_alloc. }
  pose proof (run_render H on_text eval sG lv dv1 lm dmeta e page pg (title pg)
                T HsG He eq_refl HpG) as Er2.
  cbv zeta in Er2.
  replace (config sG) with (config s) in Er2 by reflexivity.
  rewrite Hr2 in Er2.
  rewrite (bind_inr _ _ _ _ _ _ Er2).
  set (sH := set_heap _ sG).
  assert (HpH : heap sH !! page = Some (OPage pg)).
  { subst sH. norm. now apply lookup_app_l_Some. }
  unfold Plugin.set_title. rewrite bind_assoc.
  rewrite (bind_inr _ _ _ _ _ _ (run_deref_page sH _ _ HpH)), prepend_nil.
  unfold store. rewrite bind_modify.
  set (sI := set_heap _ sH).
  unfold Plugin.post_macro_functions. rewrite bind_assoc, bind_get.
  replace (_post_macro_functions sI) with (Some post) by (symmetry; exact Hpost).
  rewrite bind_ret.
  rewrite (bind_inr _ _ _ _ _ _ (run_hooks H on_text eval post sI b T eq_refl)).
  rewrite (run_markdown (set_markdown (Some (after_hooks on_text post b)) sI)
             _ eq_refl).
  unfold prepend. cbn [res st log].
  assert (LH : (page < length (heap sH))%nat) by now apply lookup_lt_Some in HpH.
  assert (HB : forall l, (l < n)%nat -> heap sB !! l = heap s !! l).
  { intros l Hl. subst sB sA. norm. now apply lookup_app_l. }
  assert (HE : forall l, l <> lv -> heap sE !! l = heap sB !! l).
  { intros l Hl. subst sE sD. norm. now rewrite list_lookup_insert_ne. }
  assert (LE : length (heap sE) = S n).
  { subst sE sD sB sA. norm. rewrite length_insert, length_app. simpl. lia. }
  assert (HH : forall l, (l < S n)%nat -> heap sH !! l = heap sE !! l).
  { intros l Hl. subst sH sG sF. norm.
    rewrite lookup_app_l by (rewrite length_app; lia).
    now rewrite lookup_app_l by lia. }
  split; [reflexivity|]. split; [reflexivity|]. split; [reflexivity|].
  split; [exact Hv|]. norm.
  split; [|split; [|split]].
  - unfold dict_at. norm. subst sI. norm.
    rewrite list_lookup_insert_ne by congruence.
    rewrite HH by lia. destruct HsE as (_ & HdE & _). exact HdE.
  - subst sI. norm. rewrite list_lookup_insert_ne by lia.
    rewrite HH by lia. rewrite HE by lia.
    subst sB sA. norm. now rewrite lookup_app_r, Nat.sub_diag.
  - subst sI. norm. now apply list_lookup_insert_eq.
  - intros l Hl Hlv Hlp. subst sI. norm.
    rewrite list_lookup_insert_ne by congruence.
    rewrite HH by lia. rewrite HE by exact Hlv. now apply HB.
Qed.

(** X15.  A page that is processed to the end, with hook functions that
    only rewrite the text: the page object that MkDocs handed over, which
    is the one [page] returns, has its title replaced by the rendered
    title and its other fields as before; the entry [page] of the
    variables names a copy made before the rendering, another object,
    which keeps the title as it was written.  The text of the instance is
    the text returned, and the other objects that existed are as
    before. *)
Theorem title_is_rendered_on_the_page (H : Host)
    (on_text : callable -> string -> string)
    (eval : Environment -> string -> gmap string pyval -> exn + string)
    (s : MacrosPlugin) (markdown' : string) (page lv lm : loc) (pg : Page)
    (dv dmeta : gmap string pyval) (e : Environment)
    (pre post : list callable) (b t2 : string) :
  tame H on_text eval ->
  _variables s = Some lv -> dict_at s lv dv -> dv <> ∅ ->
  heap s !! page = Some (OPage pg) -> meta pg = PRef lm ->
  dict_at s lm dmeta -> lm <> lv ->
  env s = Some e ->
  _pre_macro_functions s = Some pre -> _post_macro_functions s = Some post ->
  let n := length (heap s) in
  let dv1 := <["page" := PRef n]> dv in
  render_result (config s) eval e pg dv1 dmeta
    (after_hooks on_text pre markdown') = inr b ->
  render_result (config s) eval e pg dv1 dmeta (title pg) = inr t2 ->
  let o := Plugin.on_page_markdown H markdown' page s in
  res (Plugin.page (st o)) = inr page /\
  heap (st o) !! page
    = Some (OPage {| title := t2; meta := meta pg; src_path := src_path pg |}) /\
  res (bind Plugin.variables (fun v => getitem v "page") (st o)) = inr (PRef n) /\
  n <> page /\
  heap (st o) !! n = Some (OPage pg) /\
  res (Plugin.markdown (st o)) = res o /\
  (forall l, (l < n)%nat -> l <> lv -> l <> page ->
     heap (st o) !! l = heap s !! l).
Proof.
  intros T Hv Hdv Hne Hpg Hmeta Hdm Hlm He Hpre Hpost n dv1 Hr1 Hr2 o.
  destruct (run_on_page_markdown_state H on_text eval s markdown' page lv dv pg
              lm dmeta e pre post b t2 T Hv Hdv Hne Hpg Hmeta Hdm Hlm He
              Hpre Hpost Hr1 Hr2)
    as (Hres & Hpage & Hmd & Hv' & Hdv' & Hcopy & Htitle & Hframe).
  fold o in Hres, Hpage, Hmd, Hv', Hdv', Hcopy, Htitle, Hframe.
  split; [now rewrite (run_page _ _ Hpage)|].
  split; [exact Htitle|].
  split; [|split; [|split; [exact Hcopy | split; [|exact Hframe]]]].
  - rewrite (bind_variables _ _ lv Hv').
    rewrite (run_getitem _ _ _ _ Hdv'). subst dv1.
    now rewrite lookup_insert_eq.
  - apply lookup_lt_Some in Hpg. subst n. lia.
  - now rewrite (run_markdown _ _ Hmd), Hres.
Qed.

Lemma title_is_rendered_on_the_page_witness :
  let s := Site.ready (Site.options true false) ∅ [] [] in
  let o := Plugin.on_page_markdown Site.host "# Welcome" 1 s in
  heap (st o) !! 1%nat
    = Some (OPage {| title := "[Home]"; meta := PRef 2; src_path := "index.md" |}) /\
  heap (st o) !! 8%nat = Some (OPage Site.the_page) /\
  res o = inr "[# Welcome]".
Proof.
  intros s o.
  set (dv := <["page" := PRef 1]> (<["extra" := PRef 7]> ∅) : gmap string pyval).
  assert (Hne : dv <> ∅).
  { intros Hempty.
    apply (f_equal (fun m : gmap string pyval => m !! "page")) in Hempty.
    vm_compute in Hempty. discriminate. }
  destruct (title_is_rendered_on_the_page Site.host (fun _ t => t) Site.eval s
              "# Welcome" 1 0 2 Site.the_page dv ∅ Site.the_env [] []
              "[# Welcome]" "[Home]"
              (host_with_tame (fun _ t => t))
              eq_refl eq_refl Hne eq_refl eq_refl eq_refl ltac:(discriminate)
              eq_refl eq_refl eq_refl eq_refl eq_refl)
    as (_ & Htitle & _ & _ & Hcopy & Hmd & _).
  fold o in Htitle, Hcopy, Hmd.
  split; [exact Htitle|]. split; [exact Hcopy|].
  rewrite <- Hmd. vm_compute. reflexivity.
Defined.

(** ** After the build *)





(** ** The directory of the included files *)

(** X17.  [on_config] takes the directory of the included files from
    [include_dir] or, when that is empty, from [docs_dir] of the site.
    When it is not an existing directory, [FileNotFoundError] is raised
    with a message that names it; this comes before the value of
    [on_undefined] is looked at, and no environment is built. *)
Theorem include_directory_must_exist (H : Host) (s : MacrosPlugin)
    (config' : loc) (dc : gmap string pyval) (d : string) :
  dict_at s config' dc ->
  (if negb (String.eqb (include_dir (config s)) "")
   then PStr (include_dir (config s))
   else default PNone (dc !! "docs_dir")) = PStr d ->
  isdir H d = false ->
  Plugin.on_config_environment H config' s =
  Outcome (inl (Exn FileNotFoundError
     (PStr ("MACROS ERROR: Include directory '" ++ d ++ "' does not exist!"))))
    s [].
Proof.
  intros Hc Hdir Hisdir. unfold Plugin.on_config_environment.
  rewrite (bind_inr _ _ _ _ _ _ (run_dict_get _ _ _ _ Hc)), prepend_nil.
  now rewrite bind_get, Hdir, Hisdir.
Qed.

(** The host of the examples, on a disk that has no directory. *)
Definition host_without_directories : Host :=
  {| invoke := invoke Site.host;
     template_render := template_render Site.host;
     context_define_env := context_define_env Site.host;
     jinja2_Environment := jinja2_Environment Site.host;
     DEFAULT_NAMESPACE := ∅;
     DEFAULT_FILTERS := ∅;
     isfile := isfile Site.host;
     isdir := fun _ => false;
     path_join := path_join Site.host;
     dirname_abspath := dirname_abspath Site.host;
     yaml_load := yaml_load Site.host;
     parse_package := parse_package Site.host;
     install_package := install_package Site.host;
     import_local_module := import_local_module Site.host |}.

Lemma include_directory_must_exist_witness :
  let c :=
    {| module_name := "main"; modules := []; render_by_default := true;
       include_dir := "includes"; include_yaml := [];
       j2_block_start_string := ""; j2_block_end_string := "";
       j2_variable_start_string := ""; j2_variable_end_string := "";
       on_undefined := "loose"; on_error_fail := false; verbose := false; other_options := [] |} in
  raises (Plugin.on_config_environment host_without_directories 0
            (Site.created c)) FileNotFoundError /\
  raises (Plugin.on_config_environment host_without_directories 0
            (Site.created default_config)) FileNotFoundError.
Proof.
  intros c. split.
  - rewrite (include_directory_must_exist host_without_directories
               (Site.created c) 0 _ "includes" eq_refl eq_refl eq_refl).
    eexists. reflexivity.
  - rewrite (include_directory_must_exist host_without_directories
               (Site.created default_config) 0 _ "docs" eq_refl eq_refl eq_refl).
    eexists. reflexivity.
Defined.

(** ** The options handed to jinja2 *)








(** ** What [on_config] publishes *)

(** X19.  The last part of [on_config], on dictionaries that are distinct
    objects.  The variables get the entries [macros], [filters] and
    [filters_builtin]: new dictionaries with the macros, the filters of the
    modules, and the filters the environment had before those of the
    modules were added.  The macros are added to the globals of the
    environment and the filters of the modules to its filters; where a
    name is on both sides, that of the module wins.  The dictionaries of
    macros and filters themselves are as before. *)
Theorem on_config_publishes_copies (s : MacrosPlugin) (e : Environment)
    (lv lm lf : loc) (dv dm df dg dfe : gmap string pyval) :
  env s = Some e -> _variables s = Some lv -> _macros s = Some lm ->
  _filters s = Some lf ->
  dict_at s lv dv -> dict_at s lm dm -> dict_at s lf df ->
  dict_at s (env_globals e) dg -> dict_at s (env_filters e) dfe ->
  lv <> lm -> lv <> lf -> lv <> env_globals e -> lv <> env_filters e ->
  env_globals e <> lm -> env_globals e <> lf ->
  env_globals e <> env_filters e ->
  env_filters e <> lm -> env_filters e <> lf ->
  let n := length (heap s) in
  let o := Plugin.on_config_publish s in
  res o = inr tt /\
  dict_at (st o) lv
    (<["filters_builtin" := PRef (n + 2)]>
       (<["filters" := PRef (n + 1)]> (<["macros" := PRef n]> dv))) /\
  dict_at (st o) n dm /\ dict_at (st o) (n + 1) df /\
  dict_at (st o) (n + 2) dfe /\
  dict_at (st o) (env_globals e) (dm ∪ dg) /\
  dict_at (st o) (env_filters e) (df ∪ dfe) /\
  dict_at (st o) lm dm /\ dict_at (st o) lf df.
Proof.
  intros He Hv Hm Hf Dv Dm Df Dg Dfe N1 N2 N3 N4 N5 N6 N7 N8 N9 n o.
  pose proof (dict_at_lt _ _ _ Dv) as Lv.
  pose proof (dict_at_lt _ _ _ Dm) as Lm.
  pose proof (dict_at_lt _ _ _ Df) as Lf.
  pose proof (dict_at_lt _ _ _ Dg) as Lg.
  pose proof (dict_at_lt _ _ _ Dfe) as Lfe.
  subst o. unfold Plugin.on_config_publish.
  (* self.variables['macros'] = copy(self.macros) *)
  rewrite (bind_macros _ _ _ Hm).
  rewrite (bind_inr _ _ _ _ _ _ (run_copy _ _ _ Dm)), prepend_nil. fold n.
  set (s1 := set_heap _ s).
  assert (Dv1 : dict_at s1 lv dv) by now apply dict_at_alloc.
  assert (Dm1 : dict_at s1 lm dm) by now apply dict_at_alloc.
  assert (Df1 : dict_at s1 lf df) by now apply dict_at_alloc.
  assert (Dg1 : dict_at s1 (env_globals e) dg) by now apply dict_at_alloc.
  assert (Dfe1 : dict_at s1 (env_filters e) dfe) by now apply dict_at_alloc.
  assert (Dn1 : dict_at s1 n dm) by apply dict_at_new.
  assert (L1 : length (heap s1) = (n + 1)%nat)
    by (subst s1; norm; rewrite length_app; reflexivity).
  rewrite (bind_variables _ _ lv) by exact Hv.
  rewrite (bind_inr _ _ _ _ _ _ (run_setitem _ _ _ "macros" (PRef n) Dv1)),
    prepend_nil.
  set (dv2 := <["macros" := PRef n]> dv).
  set (s2 := set_heap _ s1).
  assert (Dv2 : dict_at s2 lv dv2) by apply (dict_at_insert_eq _ _ _ _ Dv1).
  assert (Dm2 : dict_at s2 lm dm) by now apply dict_at_insert_ne.
  assert (Df2 : dict_at s2 lf df) by now apply dict_at_insert_ne.
  assert (Dg2 : dict_at s2 (env_globals e) dg) by now apply dict_at_insert_ne.
  assert (Dfe2 : dict_at s2 (env_filters e) dfe) by now apply dict_at_insert_ne.
  assert (Dn2 : dict_at s2 n dm) by (apply dict_at_insert_ne; [lia | exact Dn1]).
  assert (L2 : length (heap s2) = (n + 1)%nat)
    by (subst s2; norm; now rewrite length_insert).
  (* self.env.globals.update(self.macros) *)
  rewrite (bind_get_env _ _ e) by exact He.
  rewrite (bind_macros _ _ lm) by exact Hm.
  rewrite (bind_inr _ _ _ _ _ _ (run_dict_update _ _ _ _ _ Dg2 Dm2)), prepend_nil.
  set (s3 := set_heap _ s2).
  assert (Dv3 : dict_at s3 lv dv2) by now apply dict_at_insert_ne.
  assert (Dm3 : dict_at s3 lm dm) by now apply dict_at_insert_ne.
  assert (Df3 : dict_at s3 lf df) by now apply dict_at_insert_ne.
  assert (Dg3 : dict_at s3 (env_globals e) (dm ∪ dg))
    by apply (dict_at_insert_eq _ _ _ _ Dg2).
  assert (Dfe3 : dict_at s3 (env_filters e) dfe) by now apply dict_at_insert_ne.
  assert (Dn3 : dict_at s3 n dm) by (apply dict_at_insert_ne; [lia | exact Dn2]).
  assert (L3 : length (heap s3) = (n + 1)%nat)
    by (subst s3; norm; now rewrite length_insert).
  (* self.variables['filters'] = copy(self.filters) *)
  rewrite (bind_filters _ _ lf) by exact Hf.
  rewrite (bind_inr _ _ _ _ _ _ (run_copy _ _ _ Df3)), prepend_nil. rewrite L3.
  set (s4 := set_heap _ s3).
  assert (Dv4 : dict_at s4 lv dv2) by now apply dict_at_alloc.
  assert (Dm4 : dict_at s4 lm dm) by now apply dict_at_alloc.
  assert (Df4 : dict_at s4 lf df) by now apply dict_at_alloc.
  assert (Dg4 : dict_at s4 (env_globals e) (dm ∪ dg)) by now apply dict_at_alloc.
  assert (Dfe4 : dict_at s4 (env_filters e) dfe) by now apply dict_at_alloc.
  assert (Dn4 : dict_at s4 n dm) by now apply dict_at_alloc.
  assert (Dp4 : dict_at s4 (n + 1) df) by (rewrite <- L3; apply dict_at_new).
  assert (L4 : length (heap s4) = (n + 2)%nat)
    by (subst s4; norm; rewrite length_app, L3; simpl; lia).
  rewrite (bind_variables _ _ lv) by exact Hv.
  rewrite (bind_inr _ _ _ _ _ _
             (run_setitem _ _ _ "filters" (PRef (n + 1)) Dv4)), prepend_nil.
  set (dv5 := <["filters" := PRef (n + 1)]> dv2).
  set (s5 := set_heap _ s4).
  assert (Dv5 : dict_at s5 lv dv5) by apply (dict_at_insert_eq _ _ _ _ Dv4).
  assert (Dm5 : dict_at s5 lm dm) by now apply dict_at_insert_ne.
  assert (Df5 : dict_at s5 lf df) by now apply dict_at_insert_ne.
  assert (Dg5 : dict_at s5 (env_globals e) (dm ∪ dg)) by now apply dict_at_insert_ne.
  assert (Dfe5 : dict_at s5 (env_filters e) dfe) by now apply dict_at_insert_ne.
  assert (Dn5 : dict_at s5 n dm) by (apply dict_at_insert_ne; [lia | exact Dn4]).
  assert (Dp5 : dict_at s5 (n + 1) df) by (apply dict_at_insert_ne; [lia | exact Dp4]).
  assert (L5 : length (heap s5) = (n + 2)%nat)
    by (subst s5; norm; now rewrite length_insert).
  (* self.variables['filters_builtin'] = copy(self.env.filters) *)
  rewrite (bind_get_env _ _ e) by exact He.
  rewrite (bind_inr _ _ _ _ _ _ (run_copy _ _ _ Dfe5)), prepend_nil. rewrite L5.
  set (s6 := set_heap _ s5).
  assert (Dv6 : dict_at s6 lv dv5) by now apply dict_at_alloc.
  assert (Dm6 : dict_at s6 lm dm) by now apply dict_at_alloc.
  assert (Df6 : dict_at s6 lf df) by now apply dict_at_alloc.
  assert (Dg6 : dict_at s6 (env_globals e) (dm ∪ dg)) by now apply dict_at_alloc.
  assert (Dfe6 : dict_at s6 (env_filters e) dfe) by now apply dict_at_alloc.
  assert (Dn6 : dict_at s6 n dm) by now apply dict_at_alloc.
  assert (Dp6 : dict_at s6 (n + 1) df) by now apply dict_at_alloc.
  assert (Dq6 : dict_at s6 (n + 2) dfe) by (rewrite <- L5; apply dict_at_new).
  rewrite (bind_variables _ _ lv) by exact Hv.
  rewrite (bind_inr _ _ _ _ _ _
             (run_setitem _ _ _ "filters_builtin" (PRef (n + 2)) Dv6)),
    prepend_nil.
  set (dv7 := <["filters_builtin" := PRef (n + 2)]> dv5).
  set (s7 := set_heap _ s6).
  assert (Dv7 : dict_at s7 lv dv7) by apply (dict_at_insert_eq _ _ _ _ Dv6).
  assert (Dm7 : dict_at s7 lm dm) by now apply dict_at_insert_ne.
  assert (Df7 : dict_at s7 lf df) by now apply dict_at_insert_ne.
  assert (Dg7 : dict_at s7 (env_globals e) (dm ∪ dg)) by now apply dict_at_insert_ne.
  assert (Dfe7 : dict_at s7 (env_filters e) dfe) by now apply dict_at_insert_ne.
  assert (Dn7 : dict_at s7 n dm) by (apply dict_at_insert_ne; [lia | exact Dn6]).
  assert (Dp7 : dict_at s7 (n + 1) df) by (apply dict_at_insert_ne; [lia | exact Dp6]).
  assert (Dq7 : dict_at s7 (n + 2) dfe) by (apply dict_at_insert_ne; [lia | exact Dq6]).
  (* self.env.filters.update(self.filters) *)
  rewrite (bind_get_env _ _ e) by exact He.
  rewrite (bind_filters _ _ lf) by exact Hf.
  rewrite (run_dict_update _ _ _ _ _ Dfe7 Df7). cbn [res st].
  split; [reflexivity|].
  split; [now apply dict_at_insert_ne|].
  split; [apply dict_at_insert_ne; [lia | exact Dn7]|].
  split; [apply dict_at_insert_ne; [lia | exact Dp7]|].
  split; [apply dict_at_insert_ne; [lia | exact Dq7]|].
  split; [apply dict_at_insert_ne; [congruence | exact Dg7]|].
  split; [apply (dict_at_insert_eq _ _ _ _ Dfe7)|].
  split; now apply dict_at_insert_ne.
Qed.

(** An instance about to publish: 0 the variables, 1 the macros, 2 the
    filters of the modules, 3 and 4 the globals and the filters of the
    environment.  The module and the environment both have a filter
    [upper]. *)
Definition publishing : MacrosPlugin :=
  {| config := default_config;
     heap := [ ODict (<["site_name" := PStr "Docs"]> ∅);
               ODict (<["double" := PFunc (Callable 40 (Some "double"))]> ∅);
               ODict (<["upper" := PFunc (Callable 41 (Some "upper"))]> ∅);
               ODict (<["range" := PFunc (Callable 42 (Some "range"))]> ∅);
               ODict (<["upper" := PFunc (Callable 43 (Some "do_upper"))]>
                        (<["lower" := PFunc (Callable 44 (Some "do_lower"))]> ∅)) ];
     importable := ∅;
     _conf := None; _variables := Some 0; _macros := Some 1;
     _filters := Some 2; _page := None; _markdown := None;
     _pre_macro_functions := Some []; _post_macro_functions := Some [];
     _post_build_functions := Some [];
     env := Some {| env_options := env_options Site.the_env; env_globals := 3; env_filters := 4 |} |}.

Lemma on_config_publishes_copies_witness :
  let o := Plugin.on_config_publish publishing in
  res (getitem (PRef 4) "upper" (st o))
    = inr (PFunc (Callable 41 (Some "upper"))) /\
  res (getitem (PRef 7) "upper" (st o))
    = inr (PFunc (Callable 43 (Some "do_upper"))) /\
  res (getitem (PRef 0) "filters_builtin" (st o)) = inr (PRef 7).
Proof.
  intros o.
  destruct (on_config_publishes_copies publishing
              {| env_options := env_options Site.the_env; env_globals := 3; env_filters := 4 |}
              0 1 2 _ _ _ _ _
              eq_refl eq_refl eq_refl eq_refl
              eq_refl eq_refl eq_refl eq_refl eq_refl
              ltac:(discriminate) ltac:(discriminate) ltac:(discriminate)
              ltac:(discriminate) ltac:(discriminate) ltac:(discriminate)
              ltac:(discriminate) ltac:(discriminate) ltac:(discriminate))
    as (_ & Hv & _ & _ & Hb & _ & Hf & _).
  fold o in Hv, Hb, Hf.
  rewrite (run_getitem _ _ _ _ Hf), (run_getitem _ _ _ _ Hb),
    (run_getitem _ _ _ _ Hv).
  repeat split.
Defined.

(** ** The variables of [extra] *)

Lemma run_filters_new s :
  _filters s = None ->
  Plugin.filters s =
  Outcome (inr (PRef (length (heap s))))
    (set_filters (Some (length (heap s)))
       (set_heap (heap s ++ [ODict ∅])%list s)) [].
Proof.
  intros Hf. unfold Plugin.filters.
  now rewrite bind_get, Hf, bind_alloc, bind_modify.
Qed.

(** X20.  [on_config] on a site whose configuration has no [extra]:
    [dict(None)] raises [TypeError].  The variables and macros of the
    instance have been reset by then, the configuration is not stored yet,
    and nothing is loaded or built. *)
Theorem on_config_needs_extra (H : Host) (s : MacrosPlugin) (config' : loc)
    (dc : gmap string pyval) :
  dict_at s config' dc -> dc !! "extra" = None ->
  let n := length (heap s) in
  let o := Plugin.on_config H config' s in
  raises o TypeError /\
  st o = set_macros (Some (n + 1)) (set_variables (Some n)
           (set_heap (heap s ++ [ODict ∅; ODict ∅])%list s)) /\
  log o = [].
Proof.
  intros Hc He n o.
  assert (Eseed : Plugin.on_config_seed config' s =
    Outcome (inl (Exn TypeError (PStr "not a mapping")))
      (set_macros (Some (n + 1)) (set_variables (Some n)
         (set_heap (heap s ++ [ODict ∅; ODict ∅])%list s))) []).
  { unfold Plugin.on_config_seed.
    rewrite bind_alloc, bind_modify, bind_alloc, bind_modify.
    match goal with |- _ ?s0 = _ => set (s1 := s0) end.
    assert (Hc1 : dict_at s1 config' dc).
    { unfold dict_at. subst s1. norm. now do 2 apply lookup_app_l_Some. }
    rewrite (bind_inr _ _ _ _ _ _ (run_dict_get _ _ _ YAML_VARIABLES Hc1)),
      prepend_nil.
    unfold YAML_VARIABLES. rewrite He. cbn [default].
    rewrite (bind_inl _ _ _ (Exn TypeError (PStr "not a mapping")) s1 [])
      by reflexivity.
    f_equal. subst s1. apply state_ext; norm; try reflexivity.
    + now rewrite <- app_assoc.
    + rewrite length_app. simpl. subst n. reflexivity. }
  subst o. unfold Plugin.on_config, Plugin.on_config_variables.
  rewrite (bind_inl _ _ _ _ _ _
             (bind_inl _ _ _ _ _ _ Eseed)).
  cbn [res st log]. split; [eexists; reflexivity | now split].
Qed.

Lemma on_config_needs_extra_witness :
  raises (Plugin.on_config Site.host 0
            (new_plugin default_config
               [ODict (<["docs_dir" := PStr "docs"]> ∅)] ∅)) TypeError.
Proof.
  exact (proj1 (on_config_needs_extra Site.host
                  (new_plugin default_config
                     [ODict (<["docs_dir" := PStr "docs"]> ∅)] ∅) 0
                  (<["docs_dir" := PStr "docs"]> ∅) eq_refl eq_refl)).
Defined.

Lemma run_project_dir (H : Host) s c dc f :
  _conf s = Some c -> dict_at s c dc ->
  dc !! "config_file_path" = Some (PStr f) ->
  Plugin.project_dir H s = Outcome (inr (dirname_abspath H f)) s [].
Proof.
  intros Hc Hdc Hf. unfold Plugin.project_dir, Plugin.conf.
  rewrite bind_assoc, bind_get, Hc, bind_ret.
  rewrite (bind_inr _ _ _ (PStr f) s []), prepend_nil
    by now rewrite (run_getitem _ _ _ _ Hdc), Hf.
  reflexivity.
Qed.

(** X21.  [on_config] on a site with no file of [include_yaml] and no
    module, up to the building of the environment.  The variables are a
    new dictionary; they hold what the standard context [ctx] puts in
    them, the entries [extra] (a new dictionary with the entries of
    [extra] of the site) and [config], and every entry of [extra] at the
    top level.  Where a name is on both sides, the entry of [extra] wins
    over the context and over the entries [extra] and [config]. *)
Theorem extra_variables_are_promoted (H : Host) (s : MacrosPlugin)
    (config' le : loc) (dc de ctx : gmap string pyval) (f : string) :
  dict_at s config' dc -> dc !! "extra" = Some (PRef le) -> dict_at s le de ->
  dc !! "config_file_path" = Some (PStr f) ->
  include_yaml (config s) = [] -> modules (config s) = [] ->
  module_name (config s) = DEFAULT_MODULE_NAME ->
  import_local_module H (dirname_abspath H f) DEFAULT_MODULE_NAME = None ->
  _filters s = None ->
  (forall s0 lv0 d0, _variables s0 = Some lv0 -> dict_at s0 lv0 d0 ->
     context_define_env H s0
     = (inr tt, set_heap (<[lv0 := ODict (ctx ∪ d0)]> (heap s0)) s0)) ->
  let n := length (heap s) in
  let seed : gmap string pyval :=
    <["config" := PRef (n + 3)]> (<["extra" := PRef (n + 2)]> ∅) in
  let o := Plugin.on_config_variables H config' s in
  res o = inr tt /\ log o = [] /\
  res (Plugin.variables (st o)) = inr (PRef n) /\
  dict_at (st o) n (de ∪ (ctx ∪ seed)) /\
  dict_at (st o) (n + 2) de /\ (n + 2)%nat <> le /\
  (forall key value, de !! key = Some value ->
     (de ∪ (ctx ∪ seed)) !! key = Some value) /\
  (forall key, de !! key = None ->
     (de ∪ (ctx ∪ seed)) !! key = (ctx ∪ seed) !! key).
Proof.
  intros Hc He Hde Hf Hyaml Hmods Hname Hlocal Hfil Hctx n seed o.
  pose proof (dict_at_lt _ _ _ Hc) as Lc.
  pose proof (dict_at_lt _ _ _ Hde) as Le.
  pose proof (run_on_config_seed s config' dc le de Hc He Hde) as E1.
  cbv zeta in E1. fold n in E1.
  subst o. unfold Plugin.on_config_variables.
  rewrite (bind_inr _ _ _ _ _ _ E1), prepend_nil.
  set (s1 := set_heap _ _).
  assert (L1 : length (heap s1) = (n + 4)%nat)
    by (subst s1; norm; rewrite length_app; simpl; subst n; lia).
  assert (Dv1 : dict_at s1 n seed).
  { unfold dict_at. subst s1. norm. now rewrite lookup_app_r, Nat.sub_diag. }
  assert (De1 : dict_at s1 (n + 2) de).
  { unfold dict_at. subst s1. norm. rewrite lookup_app_r by (subst n; lia).
    now replace (n + 2 - length (heap s))%nat with 2%nat by (subst n; lia). }
  assert (Dc1 : dict_at s1 config' dc).
  { unfold dict_at. subst s1. norm. now apply lookup_app_l_Some. }
  (* self._load_yaml() *)
  rewrite (bind_inr _ _ _ tt s1 []), prepend_nil
    by (rewrite load_yaml_loop; subst s1; norm; now rewrite Hyaml).
  (* define_env(self) *)
  rewrite (bind_lift _ _ _ tt) by now rewrite (Hctx s1 n seed eq_refl Dv1).
  rewrite (Hctx s1 n seed eq_refl Dv1). cbn [snd].
  set (s2 := set_heap _ s1).
  assert (Dv2 : dict_at s2 n (ctx ∪ seed)) by apply (dict_at_insert_eq _ _ _ _ Dv1).
  assert (De2 : dict_at s2 (n + 2) de) by (apply dict_at_insert_ne; [lia | exact De1]).
  assert (Dc2 : dict_at s2 config' dc)
    by (apply dict_at_insert_ne; [subst n; lia | exact Dc1]).
  (* self.variables.update(extra) *)
  rewrite (bind_variables _ _ n) by reflexivity.
  rewrite (bind_inr _ _ _ _ _ _ (run_dict_update _ _ _ _ _ Dv2 De2)), prepend_nil.
  set (s3 := set_heap _ s2).
  assert (Dv3 : dict_at s3 n (de ∪ (ctx ∪ seed)))
    by apply (dict_at_insert_eq _ _ _ _ Dv2).
  assert (De3 : dict_at s3 (n + 2) de) by (apply dict_at_insert_ne; [lia | exact De2]).
  assert (Dc3 : dict_at s3 config' dc)
    by (apply dict_at_insert_ne; [subst n; lia | exact Dc2]).
  (* self._load_modules() *)
  assert (Emods : Plugin._load_modules H s3 = Outcome (inr tt) (reset_hooks s3) []).
  { unfold Plugin._load_modules.
    rewrite (bind_inr _ _ _ tt (reset_hooks s3) []), prepend_nil
      by (rewrite load_named_modules_loop; subst s3 s2 s1; norm;
          now rewrite Hmods).
    unfold Plugin.load_local_module. rewrite bind_get.
    assert (Ed : Plugin.project_dir H (reset_hooks s3)
                 = Outcome (inr (dirname_abspath H f)) (reset_hooks s3) [])
      by (apply (run_project_dir H _ config' dc f); [reflexivity | exact Dc3 | exact Hf]).
    rewrite !bind_project_dir, Ed. cbn [res].
    replace (module_name (config (reset_hooks s3))) with (module_name (config s))
      by reflexivity.
    now rewrite Hname, Hlocal. }
  rewrite (bind_inr _ _ _ _ _ _ Emods), prepend_nil.
  set (s4 := reset_hooks s3).
  rewrite (bind_variables _ _ n) by reflexivity.
  rewrite (bind_inr _ _ _ _ _ _ (run_filters_new s4 Hfil)), prepend_nil.
  set (s5 := set_filters _ _).
  assert (Df5 : dict_at s5 (length (heap s4)) ∅) by apply dict_at_new.
  unfold truthy. rewrite !bind_assoc.
  rewrite (bind_inr _ _ _ _ _ _ (run_deref _ _ _ Df5)), prepend_nil, !bind_ret.
  cbn [res st log].
  split; [reflexivity|]. split; [reflexivity|]. split; [reflexivity|].
  split; [|split; [|split; [subst n; lia | split]]].
  - subst s5 s4. unfold reset_hooks. apply (dict_at_alloc s3 _ _ _ Dv3).
  - subst s5 s4. unfold reset_hooks. apply (dict_at_alloc s3 _ _ _ De3).
  - intros key value Hk. now apply lookup_union_Some_l.
  - intros key Hk. now apply lookup_union_r.
Qed.

(** A standard context that puts [site_name] and [environment] in the
    variables and does nothing else. *)
Definition context_entries : gmap string pyval :=
  <["site_name" := PStr "from the context"]>
    (<["environment" := PStr "system"]> ∅).

Definition context_host : Host :=
  {| invoke := invoke Site.host;
     template_render := template_render Site.host;
     jinja2_Environment := jinja2_Environment Site.host;
     context_define_env := fun s =>
       match _variables s with
       | Some lv =>
           match heap s !! lv with
           | Some (ODict d) =>
               (inr tt,
                set_heap (<[lv := ODict (context_entries ∪ d)]> (heap s)) s)
           | _ => (inr tt, s)
           end
       | None => (inr tt, s)
       end;
     DEFAULT_NAMESPACE := ∅;
     DEFAULT_FILTERS := ∅;
     isfile := isfile Site.host;
     isdir := isdir Site.host;
     path_join := path_join Site.host;
     dirname_abspath := dirname_abspath Site.host;
     yaml_load := yaml_load Site.host;
     parse_package := parse_package Site.host;
     install_package := install_package Site.host;
     import_local_module := import_local_module Site.host |}.

Lemma extra_variables_are_promoted_witness :
  let o := Plugin.on_config_variables context_host 0
             (Site.created default_config) in
  let seed : gmap string pyval :=
    <["config" := PRef 5]> (<["extra" := PRef 4]> ∅) in
  let de : gmap string pyval := <["site_name" := PStr "Docs"]> ∅ in
  dict_at (st o) 2 (de ∪ (context_entries ∪ seed)) /\
  (de ∪ (context_entries ∪ seed)) !! "site_name" = Some (PStr "Docs") /\
  (de ∪ (context_entries ∪ seed)) !! "environment" = Some (PStr "system").
Proof.
  intros o seed de.
  assert (Hctx : forall s0 lv0 d0, _variables s0 = Some lv0 -> dict_at s0 lv0 d0 ->
            context_define_env context_host s0
            = (inr tt, set_heap (<[lv0 := ODict (context_entries ∪ d0)]> (heap s0)) s0)).
  { intros s0 lv0 d0 Hv Hd. cbn [context_define_env context_host].
    unfold dict_at in Hd. now rewrite Hv, Hd. }
  destruct (extra_variables_are_promoted context_host
              (Site.created default_config) 0 1
              (<["config_file_path" := PStr "/site/mkdocs.yml"]>
                 (<["docs_dir" := PStr "docs"]> (<["extra" := PRef 1]> ∅)))
              de context_entries "/site/mkdocs.yml"
              eq_refl eq_refl eq_refl eq_refl eq_refl eq_refl eq_refl eq_refl
              eq_refl Hctx)
    as (_ & _ & _ & Hd & _ & _ & Hwin & Helse).
  split; [exact Hd|]. split.
  - apply Hwin. reflexivity.
  - etransitivity; [apply Helse; reflexivity | vm_compute; reflexivity].
Defined.

(** ** The attribute [raw_markdown] *)

(** The class binds the name [raw_markdown] twice.  The first binding is a
    property whose getter warns and evaluates [self.markdown(self)].  The
    second, made by [@markdown.setter], is a copy of the property
    [markdown] with the function that follows as its setter, and it takes
    the place of the first: reading [raw_markdown] runs the getter of
    [markdown], and assigning to it runs that function, which warns and
    assigns to [markdown]. *)
Definition raw_markdown : M string := Plugin.markdown.

Definition raw_markdown_setter (value : pyval) : M unit :=
  Plugin.markdown_setter value.

(** X22.  [raw_markdown] is another name of the text of the page: what
    is assigned to [raw_markdown] is what [markdown] then returns, and
    what is assigned to [markdown] is what [raw_markdown] then returns,
    once a page is being processed.  Before that, reading [raw_markdown]
    raises [AttributeError]; and a value that is not a string is refused
    with [ValueError], the text staying as it was. *)
Theorem raw_markdown_is_the_text (s : MacrosPlugin) (t : string) :
  (_markdown s <> None ->
     res (bind (raw_markdown_setter (PStr t)) (fun _ => Plugin.markdown) s)
       = inr t /\
     res (bind (Plugin.markdown_setter (PStr t)) (fun _ => raw_markdown) s)
       = inr t) /\
  (_markdown s = None -> raises (raw_markdown s) AttributeError) /\
  (forall value, (forall x, value <> PStr x) ->
     raises (raw_markdown_setter value s) ValueError /\
     res (raw_markdown (st (raw_markdown_setter value s)))
       = res (raw_markdown s)).
Proof.
  unfold raw_markdown, raw_markdown_setter. split; [|split].
  - intros Hsome. destruct (_markdown s) as [t0|] eqn:E; [|congruence].
    assert (Eset : Plugin.markdown_setter (PStr t) s
                   = Outcome (inr tt) (set_markdown (Some t) s) []).
    { unfold Plugin.markdown_setter.
      now rewrite (bind_inr _ _ _ _ _ _ (run_markdown s t0 E)), prepend_nil. }
    rewrite (bind_inr _ _ _ _ _ _ Eset), prepend_nil.
    now rewrite (run_markdown (set_markdown (Some t) s) t eq_refl).
  - intros Hnone. unfold Plugin.markdown. rewrite bind_get, Hnone.
    eexists. reflexivity.
  - intros value Hv.
    destruct value as [| | |x| |]; try (split; [eexists|]; reflexivity).
    now destruct (Hv x).
Qed.

(** ** A second [on_config] *)

(** X23.  [on_config] starts from new dictionaries of variables and of
    macros, whatever the instance held: the variables have the two
    entries [extra] and [config] and nothing else, the macros are empty,
    and the objects that existed, the former variables and macros among
    them, are not touched.  The filters are not reset: [_filters] is what
    it was. *)
Theorem on_config_starts_afresh (s : MacrosPlugin) (config' le : loc)
    (dc de : gmap string pyval) :
  dict_at s config' dc -> dc !! "extra" = Some (PRef le) -> dict_at s le de ->
  let n := length (heap s) in
  let o := Plugin.on_config_seed config' s in
  res (Plugin.variables (st o)) = inr (PRef n) /\
  dict_at (st o) n
    (<["config" := PRef (n + 3)]> (<["extra" := PRef (n + 2)]> ∅)) /\
  res (Plugin.macros (st o)) = inr (PRef (n + 1)) /\
  dict_at (st o) (n + 1) ∅ /\
  _filters (st o) = _filters s /\
  res (Plugin.conf (st o)) = inr (PRef config') /\
  (forall l, (l < n)%nat -> heap (st o) !! l = heap s !! l).
Proof.
  intros Hc He Hde n o.
  pose proof (run_on_config_seed s config' dc le de Hc He Hde) as E.
  cbv zeta in E. fold n o in E. rewrite E. cbn [st].
  split; [reflexivity|]. split; [|split; [reflexivity | split; [|split; [reflexivity|split; [reflexivity|]]]]].
  - unfold dict_at. norm. now rewrite lookup_app_r, Nat.sub_diag.
  - unfold dict_at. norm. rewrite lookup_app_r by (subst n; lia).
    now replace (n + 1 - length (heap s))%nat with 1%nat by (subst n; lia).
  - intros l Hl. norm. now apply lookup_app_l.
Qed.

Lemma on_config_starts_afresh_witness :
  let used :=
    set_filters (Some 3) (set_macros (Some 2) (set_variables (Some 2)
      (new_plugin default_config
         [ Site.mkdocs_config; ODict (<["site_name" := PStr "Docs"]> ∅);
           ODict (<["double" := PFunc (Callable 40 (Some "double"))]> ∅);
           ODict (<["upper" := PFunc (Callable 41 (Some "upper"))]> ∅) ] ∅))) in
  let o := Plugin.on_config_seed 0 used in
  dict_at (st o) 5 ∅ /\ _filters (st o) = Some 3%nat /\
  res (Plugin.macros (st o)) = inr (PRef 5).
Proof.
  intros used o.
  destruct (on_config_starts_afresh used 0 1
              (<["config_file_path" := PStr "/site/mkdocs.yml"]>
                 (<["docs_dir" := PStr "docs"]> (<["extra" := PRef 1]> ∅)))
              (<["site_name" := PStr "Docs"]> ∅) eq_refl eq_refl eq_refl)
    as (_ & _ & Hm & Hd & Hf & _).
  split; [exact Hd|]. split; [exact Hf | exact Hm].
Defined.
